(** * Tool Builder: the tool definition model, the tabular transcoder and
    the evaluation engine of [app.py], embedded in Rocq.

    Python dictionaries of the tool schema are records whose scalar fields
    are [option pyval] ([None] when the key is absent, so that
    [d.get(k)] and [d.get(k, default)] are modelled as they behave);
    list-valued fields are lists (an absent list key reads as [[]]).
    Flat editor rows and the mapping of input values are string-keyed
    dictionaries, [gmap string pyval].  An exception raised by the Python
    code ([AttributeError] of [.strip()], [TypeError] of [.join]) is
    [None] in the option monad. *)

From Stdlib Require Import ZArith Ascii DecimalString.
From stdpp Require Import gmap strings list.

Local Open Scope string_scope.
Local Open Scope Z_scope.
Local Open Scope list_scope.

(** ** Python scalars *)

(** The scalars a JSON document or an editor cell holds.  [PNum] is a Python
    [int]; strings are sequences of characters with code below 256. *)
Inductive pyval : Type :=
  | PNone
  | PBool (b : bool)
  | PNum (n : Z)
  | PStr (s : string).

Global Instance pyval_eq_dec : EqDecision pyval.
Proof. solve_decision. Defined.

Definition bool_num (b : bool) : Z := if b then 1 else 0.

(** [a == b].  [bool] is a subclass of [int], so [True == 1]; values of
    different kinds are otherwise unequal. *)
Definition py_eq (a b : pyval) : bool :=
  match a, b with
  | PNone, PNone => true
  | PBool x, PBool y => Bool.eqb x y
  | PBool x, PNum n => Z.eqb (bool_num x) n
  | PNum n, PBool x => Z.eqb n (bool_num x)
  | PNum m, PNum n => Z.eqb m n
  | PStr s, PStr t => String.eqb s t
  | _, _ => false
  end.

(** [a != b] *)
Definition py_ne (a b : pyval) : bool := negb (py_eq a b).

(** [v in l] for a list [l] *)
Definition py_in (v : pyval) (l : list pyval) : bool := existsb (py_eq v) l.

(** Truth value of [v] in a condition ([if v], [not v], [bool(v)]). *)
Definition py_truthy (v : pyval) : bool :=
  match v with
  | PNone => false
  | PBool b => b
  | PNum n => negb (Z.eqb n 0)
  | PStr s => negb (String.eqb s "")
  end.

(** [str(v)] *)
Definition py_str (v : pyval) : string :=
  match v with
  | PNone => "None"
  | PBool true => "True"
  | PBool false => "False"
  | PNum n => NilZero.string_of_int (Z.to_int n)
  | PStr s => s
  end.

(** ** Python string methods *)

(** [c.isspace()] for a character with code below 256. *)
Definition is_space (c : ascii) : bool :=
  match c with
  | "009" | "010" | "011" | "012" | "013"
  | "028" | "029" | "030" | "031" | " " | "133" | "160" => true
  | _ => false
  end%char.

Fixpoint lstrip (s : string) : string :=
  match s with
  | "" => ""
  | String c s' => if is_space c then lstrip s' else s
  end.

Fixpoint rstrip (s : string) : string :=
  match s with
  | "" => ""
  | String c s' =>
      match rstrip s' with
      | "" => if is_space c then "" else String c ""
      | r => String c r
      end
  end.

(** [s.strip()] *)
Definition strip (s : string) : string := rstrip (lstrip s).

(** [v.strip()]: only [str] has the method. *)
Definition py_strip (v : pyval) : option string :=
  match v with
  | PStr s => Some (strip s)
  | _ => None
  end.

(** [s.split(",")]: never empty, an empty token between adjacent commas. *)
Fixpoint split_comma (s : string) : list string :=
  match s with
  | "" => [""]
  | String c s' =>
      if Ascii.eqb c "," then "" :: split_comma s'
      else match split_comma s' with
           | t :: ts => String c t :: ts
           | [] => [String c ""]
           end
  end.

(** [sep.join(l)] for a list of [str] *)
Fixpoint join (sep : string) (l : list string) : string :=
  match l with
  | [] => ""
  | [x] => x
  | x :: rest => x +:+ sep +:+ join sep rest
  end.

Definition as_str (v : pyval) : option string :=
  match v with
  | PStr s => Some s
  | _ => None
  end.

(** [sep.join(l)]: [TypeError] when an item is not a [str]. *)
Definition py_join (sep : string) (l : list pyval) : option string :=
  join sep <$> mapM as_str l.

(** ** Dictionaries *)

(** [d.get(k)] and [d.get(k, dflt)] on a field of a schema record *)
Definition get (field : option pyval) : pyval := default PNone field.
Definition get_or (dflt : pyval) (field : option pyval) : pyval :=
  default dflt field.

(** [row.get(k)] and [row.get(k, dflt)] on a string-keyed dictionary *)
Definition row_get (row : gmap string pyval) (k : string) : pyval :=
  default PNone (row !! k).
Definition row_get_or (row : gmap string pyval) (k : string) (dflt : pyval)
  : pyval :=
  default dflt (row !! k).

(** [values.get(k)] for a key [k] that is any scalar: the mapping is keyed by
    input ids, which are strings, so no other key is found. *)
Definition values_get (values : gmap string pyval) (k : pyval) : pyval :=
  match k with
  | PStr s => row_get values s
  | _ => PNone
  end.

(** ** The tool definition model *)

Record Condition : Type := mkCondition {
  cond_input_id : option pyval;
  cond_op : option pyval;
  cond_value : option pyval
}.

Record RecommendationRule : Type := mkRule {
  rule_name : option pyval;
  rule_level : option pyval;
  rule_message : option pyval;
  rule_conditions : list Condition
}.

Record ScoringRule : Type := mkScoring {
  sr_input_id : option pyval;
  sr_favor_values : list pyval;
  sr_against_values : list pyval;
  sr_invert_favor : option pyval
}.

Record InputField : Type := mkInput {
  in_id : option pyval;
  in_label : option pyval;
  in_type : option pyval;
  in_options : list pyval
}.

Record OutcomeMessage : Type := mkOutcome {
  out_level : option pyval;
  out_message : option pyval
}.

Record ToolDefinition : Type := mkTool {
  tool_name : option pyval;
  tool_description : option pyval;
  tool_inputs : list InputField;
  tool_scoring_rules : list ScoringRule;
  tool_rules : list RecommendationRule;
  tool_fallback : option OutcomeMessage
}.

Global Instance Condition_eq_dec : EqDecision Condition.
Proof. solve_decision. Defined.
Global Instance RecommendationRule_eq_dec : EqDecision RecommendationRule.
Proof. solve_decision. Defined.
Global Instance ScoringRule_eq_dec : EqDecision ScoringRule.
Proof. solve_decision. Defined.
Global Instance InputField_eq_dec : EqDecision InputField.
Proof. solve_decision. Defined.

Definition DEFAULT_TOOL : ToolDefinition := {|
  tool_name := Some (PStr "New Tool");
  tool_description := Some (PStr "");
  tool_inputs :=
    [ {| in_id := Some (PStr "example_yes_no");
         in_label := Some (PStr "Example Yes/No?");
         in_type := Some (PStr "select");
         in_options := [PStr "Yes"; PStr "No"; PStr "Unknown"] |} ];
  tool_scoring_rules :=
    [ {| sr_input_id := Some (PStr "example_yes_no");
         sr_favor_values := [PStr "Yes"];
         sr_against_values := [PStr "No"];
         sr_invert_favor := Some (PBool false) |} ];
  tool_rules :=
    [ {| rule_name := Some (PStr "Example Rule");
         rule_level := Some (PStr "info");
         rule_message := Some (PStr "Example: Rule matched");
         rule_conditions :=
           [ {| cond_input_id := Some (PStr "example_yes_no");
                cond_op := Some (PStr "equals");
                cond_value := Some (PStr "Yes") |} ] |} ];
  tool_fallback :=
    Some {| out_level := Some (PStr "warning");
            out_message := Some (PStr "No rules matched.") |}
|}.

(** ** The evaluation engine *)

(** The inner loop of [evaluate_rules]: [matches] stays [True] until a
    condition's actual value differs from the expected one ([break]). *)
Fixpoint conditions_match (values : gmap string pyval)
    (conditions : list Condition) : bool :=
  match conditions with
  | [] => true
  | cond :: rest =>
      let input_id := get (cond_input_id cond) in
      let expected := get (cond_value cond) in
      let actual := values_get values input_id in
      if py_ne actual expected then false
      else conditions_match values rest
  end.

(** The outer loop of [evaluate_rules]: the rule at which the loop returns,
    if any.  A rule whose condition list is falsy is passed over
    ([continue]). *)
Fixpoint first_match (values : gmap string pyval)
    (rules : list RecommendationRule) : option RecommendationRule :=
  match rules with
  | [] => None
  | rule :: rest =>
      let conditions := rule_conditions rule in
      match conditions with
      | [] => first_match values rest
      | _ :: _ =>
          if conditions_match values conditions then Some rule
          else first_match values rest
      end
  end.

Definition default_fallback : OutcomeMessage :=
  {| out_level := Some (PStr "warning");
     out_message := Some (PStr "No rules matched.") |}.

Definition evaluate_rules (tool : ToolDefinition)
    (values : gmap string pyval) : pyval * pyval :=
  match first_match values (tool_rules tool) with
  | Some rule =>
      (get_or (PStr "info") (rule_level rule),
       get_or (PStr "") (rule_message rule))
  | None =>
      let fallback := default default_fallback (tool_fallback tool) in
      (get_or (PStr "warning") (out_level fallback),
       get_or (PStr "No rules matched.") (out_message fallback))
  end.

(** One iteration of the loop of [compute_scores] on the counters
    [(plus, minus)]. *)
Definition score_step (values : gmap string pyval) (acc : Z * Z)
    (rule : ScoringRule) : Z * Z :=
  let '(plus, minus) := acc in
  let input_id := get (sr_input_id rule) in
  if negb (py_truthy input_id) then (plus, minus)
  else
    let value := values_get values input_id in
    let favor_values := sr_favor_values rule in
    let against_values := sr_against_values rule in
    let invert := py_truthy (get_or (PBool false) (sr_invert_favor rule)) in
    let score :=
      if py_in value favor_values then (if invert then -1 else 1)
      else if py_in value against_values then (if invert then 1 else -1)
      else 0 in
    if Z.eqb score 1 then (plus + 1, minus)
    else if Z.eqb score (-1) then (plus, minus + 1)
    else (plus, minus).

Definition compute_scores (tool : ToolDefinition)
    (values : gmap string pyval) : Z * Z :=
  fold_left (score_step values) (tool_scoring_rules tool) (0, 0).

(** ** The tabular transcoder *)

(** [[o.strip() for o in str(options_csv).split(",") if o.strip()]]; cells
    are scalars, so the [isinstance(options_csv, list)] branch is not
    taken. *)
Definition normalize_options (options_csv : pyval) : list pyval :=
  if negb (py_truthy options_csv) then []
  else
    omap (λ o, if String.eqb (strip o) "" then None else Some (PStr (strip o)))
         (split_comma (py_str options_csv)).

Definition input_row (item : InputField) : option (gmap string pyval) :=
  options_csv ← py_join ", " (in_options item);
  Some {[ "id" := get_or (PStr "") (in_id item);
          "label" := get_or (PStr "") (in_label item);
          "type" := get_or (PStr "select") (in_type item);
          "options_csv" := PStr options_csv ]}.

Definition tool_to_input_rows (tool : ToolDefinition)
  : option (list (gmap string pyval)) :=
  mapM input_row (tool_inputs tool).

Fixpoint input_rows_to_tool (rows : list (gmap string pyval))
  : option (list InputField) :=
  match rows with
  | [] => Some []
  | row :: rest =>
      if negb (py_truthy (row_get row "id")) then input_rows_to_tool rest
      else
        id ← py_strip (row_get row "id");
        label ← py_strip (row_get_or row "label" (PStr ""));
        inputs ← input_rows_to_tool rest;
        Some ({| in_id := Some (PStr id);
                 in_label := Some (PStr label);
                 in_type := Some (row_get_or row "type" (PStr "select"));
                 in_options :=
                   normalize_options (row_get_or row "options_csv" (PStr ""))
              |} :: inputs)
  end.

Definition scoring_row (item : ScoringRule) : option (gmap string pyval) :=
  favor_values_csv ← py_join ", " (sr_favor_values item);
  against_values_csv ← py_join ", " (sr_against_values item);
  Some {[ "input_id" := get_or (PStr "") (sr_input_id item);
          "favor_values_csv" := PStr favor_values_csv;
          "against_values_csv" := PStr against_values_csv;
          "invert_favor" :=
            PBool (py_truthy (get_or (PBool false) (sr_invert_favor item))) ]}.

Definition tool_to_scoring_rows (tool : ToolDefinition)
  : option (list (gmap string pyval)) :=
  mapM scoring_row (tool_scoring_rules tool).

Fixpoint scoring_rows_to_tool (rows : list (gmap string pyval))
  : option (list ScoringRule) :=
  match rows with
  | [] => Some []
  | row :: rest =>
      if negb (py_truthy (row_get row "input_id")) then
        scoring_rows_to_tool rest
      else
        input_id ← py_strip (row_get row "input_id");
        rules ← scoring_rows_to_tool rest;
        Some ({| sr_input_id := Some (PStr input_id);
                 sr_favor_values :=
                   normalize_options
                     (row_get_or row "favor_values_csv" (PStr ""));
                 sr_against_values :=
                   normalize_options
                     (row_get_or row "against_values_csv" (PStr ""));
                 sr_invert_favor :=
                   Some (PBool (py_truthy
                     (row_get_or row "invert_favor" (PBool false))))
              |} :: rules)
  end.

(** [f"input_id_{idx + 1}"] and [f"value_{idx + 1}"] *)
Definition key_id (idx : nat) : string :=
  "input_id_" +:+ py_str (PNum (Z.of_nat idx + 1)).
Definition key_val (idx : nat) : string :=
  "value_" +:+ py_str (PNum (Z.of_nat idx + 1)).

(** One iteration of [for idx in range(3)] in [tool_to_rule_rows]. *)
Definition fill_slot (conditions : list Condition)
    (row : gmap string pyval) (idx : nat) : gmap string pyval :=
  match conditions !! idx with
  | Some cond =>
      <[key_val idx := get_or (PStr "") (cond_value cond)]>
        (<[key_id idx := get_or (PStr "") (cond_input_id cond)]> row)
  | None =>
      <[key_val idx := PStr ""]> (<[key_id idx := PStr ""]> row)
  end.

Definition rule_row (rule : RecommendationRule) : gmap string pyval :=
  let conditions := rule_conditions rule in
  let row : gmap string pyval :=
    {[ "name" := get_or (PStr "") (rule_name rule);
       "level" := get_or (PStr "info") (rule_level rule);
       "message" := get_or (PStr "") (rule_message rule) ]} in
  fold_left (fill_slot conditions) (seq 0 3) row.

Definition tool_to_rule_rows (tool : ToolDefinition)
  : list (gmap string pyval) :=
  rule_row <$> tool_rules tool.

(** The loop [for idx in range(3)] of [rule_rows_to_tool] over the slots
    [idxs], appending the kept conditions in slot order. *)
Fixpoint slot_conditions (row : gmap string pyval) (idxs : list nat)
  : option (list Condition) :=
  match idxs with
  | [] => Some []
  | idx :: rest =>
      input_id ← py_strip (row_get_or row (key_id idx) (PStr ""));
      let value := row_get_or row (key_val idx) (PStr "") in
      conditions ← slot_conditions row rest;
      if negb (String.eqb input_id "") && py_ne value (PStr "") then
        Some ({| cond_input_id := Some (PStr input_id);
                 cond_op := Some (PStr "equals");
                 cond_value := Some value |} :: conditions)
      else Some conditions
  end.

Fixpoint rule_rows_to_tool (rows : list (gmap string pyval))
  : option (list RecommendationRule) :=
  match rows with
  | [] => Some []
  | row :: rest =>
      if negb (py_truthy (row_get row "name")) then rule_rows_to_tool rest
      else
        conditions ← slot_conditions row (seq 0 3);
        rules ← rule_rows_to_tool rest;
        Some ({| rule_name := Some (row_get_or row "name" (PStr ""));
                 rule_level := Some (row_get_or row "level" (PStr "info"));
                 rule_message := Some (row_get_or row "message" (PStr ""));
                 rule_conditions := conditions |} :: rules)
  end.

(** ** Specification vocabulary for the engine *)

(** A condition holds: the value looked up for its input id ([None] when the
    key is missing) equals its expected value. *)
Definition cond_holds (values : gmap string pyval) (c : Condition) : bool :=
  py_eq (values_get values (get (cond_input_id c))) (get (cond_value c)).

(** A rule matches: it has at least one condition and all of them hold. *)
Definition rule_matches (values : gmap string pyval)
    (r : RecommendationRule) : bool :=
  match rule_conditions r with
  | [] => false
  | cs => forallb (cond_holds values) cs
  end.

(** The pair a rule yields when selected, and the pair of the fallback. *)
Definition rule_outcome (r : RecommendationRule) : pyval * pyval :=
  (get_or (PStr "info") (rule_level r), get_or (PStr "") (rule_message r)).

Definition fallback_outcome (tool : ToolDefinition) : pyval * pyval :=
  match tool_fallback tool with
  | Some fb =>
      (get_or (PStr "warning") (out_level fb),
       get_or (PStr "No rules matched.") (out_message fb))
  | None => (PStr "warning", PStr "No rules matched.")
  end.

(** The input id of a condition or scoring rule is not a key of [values]. *)
Definition not_a_key (values : gmap string pyval) (id : option pyval) : Prop :=
  ∀ k, get id = PStr k → values !! k = None.

(** The reading of a condition in the specification: the key must be present
    in [values] and its value equal to the expected one. *)
Definition cond_holds_present (values : gmap string pyval) (c : Condition)
  : bool :=
  match get (cond_input_id c) with
  | PStr k =>
      match values !! k with
      | Some actual => py_eq actual (get (cond_value c))
      | None => false
      end
  | _ => false
  end.

Definition first_rule_present (values : gmap string pyval)
    (rules : list RecommendationRule) : option RecommendationRule :=
  List.find
    (λ r, match rule_conditions r with
          | [] => false
          | cs => forallb (cond_holds_present values) cs
          end) rules.

(** Scoring as the specification words it. *)
Definition raw_polarity (value : pyval)
    (favor_values against_values : list pyval) : Z :=
  if py_in value favor_values then 1
  else if py_in value against_values then -1
  else 0.

Definition polarity (invert : bool) (raw : Z) : Z :=
  if invert then - raw else raw.

Definition rule_polarity (values : gmap string pyval) (rule : ScoringRule) : Z :=
  polarity (py_truthy (get_or (PBool false) (sr_invert_favor rule)))
    (raw_polarity (values_get values (get (sr_input_id rule)))
       (sr_favor_values rule) (sr_against_values rule)).

Definition with_rules (tool : ToolDefinition)
    (rules : list RecommendationRule) : ToolDefinition :=
  {| tool_name := tool_name tool;
     tool_description := tool_description tool;
     tool_inputs := tool_inputs tool;
     tool_scoring_rules := tool_scoring_rules tool;
     tool_rules := rules;
     tool_fallback := tool_fallback tool |}.

Definition with_scoring_rules (tool : ToolDefinition)
    (rules : list ScoringRule) : ToolDefinition :=
  {| tool_name := tool_name tool;
     tool_description := tool_description tool;
     tool_inputs := tool_inputs tool;
     tool_scoring_rules := rules;
     tool_rules := tool_rules tool;
     tool_fallback := tool_fallback tool |}.

(** ** Specification vocabulary for the transcoder *)

Definition starts_with_space (s : string) : bool :=
  match s with
  | "" => false
  | String c _ => is_space c
  end.

Fixpoint ends_with_space (s : string) : bool :=
  match s with
  | "" => false
  | String c "" => is_space c
  | String _ s' => ends_with_space s'
  end.

(** No leading and no trailing whitespace. *)
Definition stripped (s : string) : bool :=
  negb (starts_with_space s) && negb (ends_with_space s).

(** No embedded comma. *)
Fixpoint comma_free (s : string) : bool :=
  match s with
  | "" => true
  | String c s' => negb (Ascii.eqb c ",") && comma_free s'
  end.

Definition nonempty (s : string) : bool := negb (String.eqb s "").

(** A row carries its key field: [row.get(key)] is truthy. *)
Definition has_key (key : string) (row : gmap string pyval) : bool :=
  py_truthy (row_get row key).

(** The cell under [key] is absent or a string. *)
Definition text_cell (key : string) (row : gmap string pyval) : bool :=
  match row !! key with
  | None | Some (PStr _) => true
  | Some _ => false
  end.

(** ** Concrete tools and values *)

Definition cond_equals (input_id : string) (value : pyval) : Condition :=
  {| cond_input_id := Some (PStr input_id);
     cond_op := Some (PStr "equals");
     cond_value := Some value |}.

Definition rule_of (name level message : string)
    (conditions : list Condition) : RecommendationRule :=
  {| rule_name := Some (PStr name);
     rule_level := Some (PStr level);
     rule_message := Some (PStr message);
     rule_conditions := conditions |}.

Definition tool_of_rules (rules : list RecommendationRule)
    (fallback : option OutcomeMessage) : ToolDefinition :=
  {| tool_name := Some (PStr "T");
     tool_description := Some (PStr "");
     tool_inputs := [];
     tool_scoring_rules := [];
     tool_rules := rules;
     tool_fallback := fallback |}.

Definition fallback_no : OutcomeMessage :=
  {| out_level := Some (PStr "warning"); out_message := Some (PStr "No") |}.

(** A rule with no condition, a rule with one and a rule with two. *)
Definition rule_empty : RecommendationRule :=
  rule_of "empty" "error" "never" [].
Definition rule_q_yes : RecommendationRule :=
  rule_of "one" "success" "Go" [cond_equals "q" (PStr "Yes")].
Definition rule_q_yes_n_1 : RecommendationRule :=
  rule_of "two" "info" "Go on"
    [cond_equals "q" (PStr "Yes"); cond_equals "n" (PNum 1)].

Definition tool_three_rules : ToolDefinition :=
  tool_of_rules [rule_empty; rule_q_yes; rule_q_yes_n_1] (Some fallback_no).
Definition tool_only_empty : ToolDefinition :=
  tool_of_rules [rule_empty] (Some fallback_no).
Definition tool_no_fallback : ToolDefinition :=
  tool_of_rules [rule_empty; rule_q_yes] None.

Definition values_q_yes_n_1 : gmap string pyval :=
  {[ "q" := PStr "Yes"; "n" := PNum 1 ]}.
Definition values_q_yes : gmap string pyval := {[ "q" := PStr "Yes" ]}.
Definition values_q_no : gmap string pyval := {[ "q" := PStr "No" ]}.
Definition values_r_x : gmap string pyval := {[ "r" := PStr "x" ]}.

(** A condition on input "q" whose expected value is [None], as an editor
    cell left empty gives it, ahead of a rule on input "r". *)
Definition rule_q_none : RecommendationRule :=
  rule_of "blank" "error" "Stop" [cond_equals "q" PNone].
Definition rule_r_x : RecommendationRule :=
  rule_of "r" "success" "Go" [cond_equals "r" (PStr "x")].
Definition tool_q_none : ToolDefinition :=
  tool_of_rules [rule_q_none; rule_r_x] (Some fallback_no).

(** A condition that names an input no value was collected for and has no
    "value" key. *)
Definition cond_ghost : Condition :=
  {| cond_input_id := Some (PStr "ghost");
     cond_op := Some (PStr "equals");
     cond_value := None |}.
Definition rule_ghost : RecommendationRule :=
  rule_of "ghost" "error" "Stop" [cond_ghost].
Definition tool_ghost : ToolDefinition :=
  tool_of_rules [rule_ghost] (Some fallback_no).

(** The scoring rule of the specification's end-to-end examples. *)
Definition scoring_q (invert : bool) : ScoringRule :=
  {| sr_input_id := Some (PStr "q");
     sr_favor_values := [PStr "Yes"];
     sr_against_values := [PStr "No"];
     sr_invert_favor := Some (PBool invert) |}.
Definition scoring_ghost : ScoringRule :=
  {| sr_input_id := Some (PStr "ghost");
     sr_favor_values := [PStr "Yes"];
     sr_against_values := [PStr "No"];
     sr_invert_favor := Some (PBool false) |}.
(** A scoring rule that lists [None] among its favor values. *)
Definition scoring_none_listed : ScoringRule :=
  {| sr_input_id := Some (PStr "q");
     sr_favor_values := [PNone];
     sr_against_values := [PStr "No"];
     sr_invert_favor := Some (PBool false) |}.
Definition tool_of_scoring (rules : list ScoringRule) : ToolDefinition :=
  {| tool_name := Some (PStr "T");
     tool_description := Some (PStr "");
     tool_inputs := [];
     tool_scoring_rules := rules;
     tool_rules := [];
     tool_fallback := Some fallback_no |}.

(** The text cells a converter strips are absent or strings. *)
Definition input_row_texts (row : gmap string pyval) : bool :=
  text_cell "id" row && text_cell "label" row.
Definition scoring_row_texts (row : gmap string pyval) : bool :=
  text_cell "input_id" row.
Definition rule_row_texts (row : gmap string pyval) : bool :=
  forallb (λ idx, text_cell (key_id idx) row) (seq 0 3).

(** A condition as [rule_rows_to_tool] builds it. *)
Definition cond_from_row (c : Condition) : Prop :=
  cond_op c = Some (PStr "equals")
  ∧ (∃ s, cond_input_id c = Some (PStr s) ∧ s ≠ ""
          ∧ starts_with_space s = false ∧ ends_with_space s = false)
  ∧ (∃ v, cond_value c = Some v ∧ v ≠ PStr "" ∧ py_eq v (PStr "") = false).

(** *** Models that survive the round trip *)

Definition present (f : option pyval) : bool :=
  match f with
  | Some _ => true
  | None => false
  end.

(** A non-empty string identifier without surrounding whitespace. *)
Definition stripped_id (f : option pyval) : bool :=
  match f with
  | Some (PStr s) => nonempty s && stripped s
  | _ => false
  end.

Definition stripped_text (f : option pyval) : bool :=
  match f with
  | Some (PStr s) => stripped s
  | _ => false
  end.

(** A list item the comma-separated encoding gives back: a non-empty string
    without comma and without surrounding whitespace. *)
Definition csv_item (v : pyval) : bool :=
  match v with
  | PStr s => nonempty s && stripped s && comma_free s
  | _ => false
  end.

Definition input_roundtrips (i : InputField) : bool :=
  stripped_id (in_id i) && stripped_text (in_label i) && present (in_type i)
  && forallb csv_item (in_options i).

Definition scoring_roundtrips (r : ScoringRule) : bool :=
  stripped_id (sr_input_id r)
  && forallb csv_item (sr_favor_values r)
  && forallb csv_item (sr_against_values r)
  && match sr_invert_favor r with
     | Some (PBool _) => true
     | _ => false
     end.

Definition cond_roundtrips (c : Condition) : bool :=
  stripped_id (cond_input_id c)
  && bool_decide (cond_op c = Some (PStr "equals"))
  && match cond_value c with
     | Some v => py_ne v (PStr "")
     | None => false
     end.

Definition rule_roundtrips (r : RecommendationRule) : bool :=
  match rule_name r with
  | Some name => py_truthy name
  | None => false
  end
  && present (rule_level r) && present (rule_message r)
  && (length (rule_conditions r) <=? 3)%nat
  && forallb cond_roundtrips (rule_conditions r).

Definition tool_roundtrips (tool : ToolDefinition) : bool :=
  forallb input_roundtrips (tool_inputs tool)
  && forallb scoring_roundtrips (tool_scoring_rules tool)
  && forallb rule_roundtrips (tool_rules tool).

(** *** The precondition as the specification words it: at most three
    conditions per rule, non-empty key fields, non-empty condition ids and
    values, no comma in any string. *)

Definition filled (f : option pyval) : bool :=
  match f with
  | Some (PStr s) => nonempty s
  | _ => false
  end.

Definition comma_free_val (v : pyval) : bool :=
  match v with
  | PStr s => comma_free s
  | _ => true
  end.

Definition comma_free_field (f : option pyval) : bool :=
  match f with
  | Some v => comma_free_val v
  | None => false
  end.

Definition input_csv_safe (i : InputField) : bool :=
  filled (in_id i) && comma_free_field (in_id i)
  && comma_free_field (in_label i) && comma_free_field (in_type i)
  && forallb comma_free_val (in_options i).

Definition scoring_csv_safe (r : ScoringRule) : bool :=
  filled (sr_input_id r) && comma_free_field (sr_input_id r)
  && forallb comma_free_val (sr_favor_values r)
  && forallb comma_free_val (sr_against_values r)
  && present (sr_invert_favor r).

Definition cond_csv_safe (c : Condition) : bool :=
  filled (cond_input_id c) && comma_free_field (cond_input_id c)
  && filled (cond_value c) && comma_free_field (cond_value c)
  && bool_decide (cond_op c = Some (PStr "equals")).

Definition rule_csv_safe (r : RecommendationRule) : bool :=
  filled (rule_name r) && comma_free_field (rule_name r)
  && comma_free_field (rule_level r) && comma_free_field (rule_message r)
  && (length (rule_conditions r) <=? 3)%nat
  && forallb cond_csv_safe (rule_conditions r).

Definition tool_csv_safe (tool : ToolDefinition) : bool :=
  forallb input_csv_safe (tool_inputs tool)
  && forallb scoring_csv_safe (tool_scoring_rules tool)
  && forallb rule_csv_safe (tool_rules tool).

(** *** Concrete rows and models *)

(** Three input rows: no "id" key, an identifier, an empty identifier. *)
Definition input_rows_sample : list (gmap string pyval) :=
  [ {[ "label" := PStr "no id" ]};
    {[ "id" := PStr " q "; "label" := PStr "Question";
       "type" := PStr "select"; "options_csv" := PStr "Yes, No,," ]};
    {[ "id" := PStr ""; "label" := PStr "empty id" ]} ].

Definition scoring_rows_sample : list (gmap string pyval) :=
  [ {[ "input_id" := PNone; "favor_values_csv" := PStr "Yes" ]};
    {[ "input_id" := PStr "q"; "favor_values_csv" := PStr "Yes";
       "against_values_csv" := PStr "No"; "invert_favor" := PBool true ]} ].

(** Two rule rows: one without a name; one whose second slot has no id and
    whose third slot has no value. *)
Definition rule_rows_sample : list (gmap string pyval) :=
  [ {[ "name" := PStr ""; "level" := PStr "info" ]};
    {[ "name" := PStr "R"; "level" := PStr "success"; "message" := PStr "Go";
       "input_id_1" := PStr " q "; "value_1" := PStr "Yes";
       "input_id_2" := PStr "  "; "value_2" := PStr "x";
       "input_id_3" := PStr "n"; "value_3" := PStr "" ]} ].

(** A model whose only input has an identifier with a leading space. *)
Definition input_padded : InputField :=
  {| in_id := Some (PStr " a");
     in_label := Some (PStr "A");
     in_type := Some (PStr "select");
     in_options := [PStr "Yes"; PStr "No"] |}.

Definition tool_padded : ToolDefinition :=
  {| tool_name := Some (PStr "T");
     tool_description := Some (PStr "");
     tool_inputs := [input_padded];
     tool_scoring_rules := [scoring_q false];
     tool_rules := [rule_q_yes];
     tool_fallback := Some fallback_no |}.

Definition tool_full : ToolDefinition :=
  {| tool_name := Some (PStr "T");
     tool_description := Some (PStr "");
     tool_inputs :=
       [ {| in_id := Some (PStr "q"); in_label := Some (PStr "Question, 1");
            in_type := Some (PStr "select");
            in_options := [PStr "Yes"; PStr "No"] |};
         {| in_id := Some (PStr "n"); in_label := Some (PStr "");
            in_type := Some (PStr "number"); in_options := [] |} ];
     tool_scoring_rules := [scoring_q false; scoring_q true];
     tool_rules := [rule_empty; rule_q_yes_n_1; rule_q_yes];
     tool_fallback := Some fallback_no |}.

(** ** Further vocabulary for the engine *)

(** What [evaluate_rules] reads of a condition: the id it looks up and the
    value it expects, each [None] when its key is absent. *)
Definition cond_key (c : Condition) : pyval * pyval :=
  (get (cond_input_id c), get (cond_value c)).

(** Two rules with the same level and message whose conditions read the
    same (id, value) pairs, in any order. *)
Definition same_reading (r r' : RecommendationRule) : Prop :=
  rule_level r = rule_level r'
  ∧ rule_message r = rule_message r'
  ∧ cond_key <$> rule_conditions r ≡ₚ cond_key <$> rule_conditions r'.

(** A scoring rule counts in favor, or against, under [values]. *)
Definition counts_favor (values : gmap string pyval) (rule : ScoringRule)
  : bool :=
  py_truthy (get (sr_input_id rule)) && Z.eqb (rule_polarity values rule) 1.

Definition counts_against (values : gmap string pyval) (rule : ScoringRule)
  : bool :=
  py_truthy (get (sr_input_id rule))
  && Z.eqb (rule_polarity values rule) (-1).

(** The scoring rule with its [invert_favor] flag negated. *)
Definition flip_invert (rule : ScoringRule) : ScoringRule :=
  {| sr_input_id := sr_input_id rule;
     sr_favor_values := sr_favor_values rule;
     sr_against_values := sr_against_values rule;
     sr_invert_favor :=
       Some (PBool (negb (py_truthy
         (get_or (PBool false) (sr_invert_favor rule))))) |}.

Definition pair_add (a b : Z * Z) : Z * Z := (a.1 + b.1, a.2 + b.2).
Definition pair_swap (a : Z * Z) : Z * Z := (a.2, a.1).

(** [rule_q_yes_n_1] under another name, with its conditions swapped and an
    operator the engine does not know. *)
Definition rule_n_1_q_yes : RecommendationRule :=
  {| rule_name := Some (PStr "renamed");
     rule_level := Some (PStr "info");
     rule_message := Some (PStr "Go on");
     rule_conditions :=
       [ {| cond_input_id := Some (PStr "n");
            cond_op := Some (PStr "greater_than");
            cond_value := Some (PNum 1) |};
         {| cond_input_id := Some (PStr "q");
            cond_op := None;
            cond_value := Some (PStr "Yes") |} ] |}.

(** ** Further vocabulary for the transcoder *)

(** A rule cut down to the three conditions a row has slots for. *)
Definition truncate_rule (r : RecommendationRule) : RecommendationRule :=
  {| rule_name := rule_name r;
     rule_level := rule_level r;
     rule_message := rule_message r;
     rule_conditions := take 3 (rule_conditions r) |}.

(** The columns of a rule row. *)
Definition rule_row_keys : gset string :=
  {[ "name"; "level"; "message";
     "input_id_1"; "value_1"; "input_id_2"; "value_2";
     "input_id_3"; "value_3" ]}.

Definition is_str (v : pyval) : bool :=
  match v with
  | PStr _ => true
  | _ => false
  end.

(** A row whose "id" cell is made of whitespace only. *)
Definition input_row_blank_id : gmap string pyval :=
  {[ "id" := PStr "  "; "label" := PStr "Blank"; "type" := PStr "text" ]}.

(** A rule with four conditions. *)
Definition rule_four_conditions : RecommendationRule :=
  rule_of "four" "info" "Four"
    [cond_equals "a" (PStr "1"); cond_equals "b" (PStr "2");
     cond_equals "c" (PStr "3"); cond_equals "d" (PStr "4")].

(** A rule every part of which a rule row can carry, whatever the number of
    its conditions. *)
Definition rule_encodable (r : RecommendationRule) : bool :=
  match rule_name r with
  | Some name => py_truthy name
  | None => false
  end
  && present (rule_level r) && present (rule_message r)
  && forallb cond_roundtrips (rule_conditions r).

(** ** The application around the engine *)

(** [l.index(v)]: the first position whose item equals [v];
    [ValueError] when there is none. *)
Fixpoint py_index (v : pyval) (l : list pyval) : option nat :=
  match l with
  | [] => None
  | x :: rest => if py_eq x v then Some 0%nat else S <$> py_index v rest
  end.

(** *** The preview of a select input *)

(** [options = item.get("options", [])] and [if not options:
    options = [""]]. *)
Definition select_options (item : InputField) : list pyval :=
  match in_options item with
  | [] => [PStr ""]
  | options => options
  end.

(** [options.index(default) if default in options else 0] *)
Definition select_index (options : list pyval) (dflt : pyval) : option nat :=
  if py_in dflt options then py_index dflt options else Some 0%nat.

(** *** Dictionaries in insertion order *)

Section pydict.
  Context {V : Type}.

(** [d.get(k)] *)
Fixpoint dict_get (d : list (string * V)) (k : string) : option V :=
  match d with
  | [] => None
  | (k', v) :: rest => if String.eqb k' k then Some v else dict_get rest k
  end.

(** [d[k] = v]: a key already there keeps its place, a new key goes
  last. *)
Fixpoint dict_set (d : list (string * V)) (k : string) (v : V)
  : list (string * V) :=
  match d with
  | [] => [(k, v)]
  | (k', v') :: rest =>
      if String.eqb k' k then (k, v) :: rest
      else (k', v') :: dict_set rest k v
  end.

(** [del d[k]]: [KeyError] when the key is missing. *)
Fixpoint dict_del (d : list (string * V)) (k : string)
  : option (list (string * V)) :=
  match d with
  | [] => None
  | (k', v') :: rest =>
      if String.eqb k' k then Some rest
      else ((k', v') ::.) <$> dict_del rest k
  end.

(** [list(d.keys())] *)
Definition dict_keys (d : list (string * V)) : list string := d.*1.
End pydict.

(** *** The tool selector of the sidebar *)

(** [tool_labels = [tool_items[tool_id]["name"] for tool_id in tool_ids]]:
    [KeyError] when a tool has no name. *)
Definition tool_labels (tool_items : list (string * ToolDefinition))
  : option (list pyval) :=
  mapM (λ item, tool_name item.2) tool_items.

(** [tool_ids[tool_labels.index(selected_label)]], where [selected_label]
    is the label the selectbox returns for the position [choice]. *)
Definition select_tool (tool_items : list (string * ToolDefinition))
    (choice : nat) : option string :=
  labels ← tool_labels tool_items;
  selected_label ← labels !! choice;
  idx ← py_index selected_label labels;
  dict_keys tool_items !! idx.

(** Two tools created from the template, hence with the same name. *)
Definition two_new_tools : list (string * ToolDefinition) :=
  [("tool_a", DEFAULT_TOOL); ("tool_b", DEFAULT_TOOL)].

(** *** The persisted store and the session *)

(** The document of [data/tools.json], [{"tools": {...}}]; [store_tools] is
    [None] when the document has no "tools" key. *)
Record ToolStore : Type := mkStore {
  store_tools : option (list (string * ToolDefinition))
}.

(** [st.session_state]: a field is [None] as long as its key is not set.
    [selected_tool_id] and [editing_tool], once set, hold [None] or a
    value. *)
Record SessionState : Type := mkSession {
  ss_tools_data : option ToolStore;
  ss_selected_tool_id : option (option string);
  ss_editing_tool : option (option ToolDefinition);
  ss_preview_values : option (list (string * gmap string pyval))
}.

(** The session together with the file: [tools_file] is [None] when
    [data/tools.json] does not exist, and otherwise the document it holds. *)
Record World : Type := mkWorld {
  session : SessionState;
  tools_file : option ToolStore
}.

Definition load_tools (file : option ToolStore) : ToolStore :=
  match file with
  | None => {| store_tools := Some [] |}
  | Some data => data
  end.

(** The file after [save_tools(data)]. *)
Definition save_tools (data : ToolStore) : option ToolStore := Some data.

(** [data.get("tools", {})] *)
Definition store_items (data : ToolStore) : list (string * ToolDefinition) :=
  default [] (store_tools data).

Definition ensure_state (w : World) : World :=
  let ss := session w in
  let tools_data :=
    match ss_tools_data ss with
    | Some data => data
    | None => load_tools (tools_file w)
    end in
  let selected_tool_id :=
    match ss_selected_tool_id ss with
    | Some selected => selected
    | None => head (dict_keys (store_items tools_data))
    end in
  {| session :=
       {| ss_tools_data := Some tools_data;
          ss_selected_tool_id := Some selected_tool_id;
          ss_editing_tool := Some (default None (ss_editing_tool ss));
          ss_preview_values := Some (default [] (ss_preview_values ss)) |};
     tools_file := tools_file w |}.

Definition set_editing_tool (ss : SessionState)
    (tool : option ToolDefinition) : SessionState :=
  {| ss_tools_data := ss_tools_data ss;
     ss_selected_tool_id := ss_selected_tool_id ss;
     ss_editing_tool := Some tool;
     ss_preview_values := ss_preview_values ss |}.

Definition set_tools (ss : SessionState) (data : ToolStore)
    (selected : option string) : SessionState :=
  {| ss_tools_data := Some data;
     ss_selected_tool_id := Some selected;
     ss_editing_tool := ss_editing_tool ss;
     ss_preview_values := ss_preview_values ss |}.

Definition set_selected (ss : SessionState) (selected : option string)
  : SessionState :=
  {| ss_tools_data := ss_tools_data ss;
     ss_selected_tool_id := Some selected;
     ss_editing_tool := ss_editing_tool ss;
     ss_preview_values := ss_preview_values ss |}.

(** [AttributeError] when a key of the session is not set, [KeyError] when
    the store has no "tools". *)
Definition ensure_editing_tool (ss : SessionState) : option SessionState :=
  tool_id ← ss_selected_tool_id ss;
  match tool_id with
  | None => Some (set_editing_tool ss None)
  | Some tool_id =>
      data ← ss_tools_data ss;
      tools ← store_tools data;
      Some (set_editing_tool ss (dict_get tools tool_id))
  end.

(** The body of [if st.button("New Tool")], for the generated [new_id]. *)
Definition new_tool (new_id : string) (w : World) : option World :=
  data ← ss_tools_data (session w);
  tools ← store_tools data;
  let data' := {| store_tools := Some (dict_set tools new_id DEFAULT_TOOL) |} in
  Some {| session := set_tools (session w) data' (Some new_id);
          tools_file := save_tools data' |}.

(** The body of [if st.button("Delete Tool")]. *)
Definition delete_tool (w : World) : option World :=
  data ← ss_tools_data (session w);
  tools ← store_tools data;
  selected ← ss_selected_tool_id (session w);
  tool_id ← selected;
  tools' ← dict_del tools tool_id;
  let data' := {| store_tools := Some tools' |} in
  Some {| session := set_tools (session w) data' (head (dict_keys tools'));
          tools_file := save_tools data' |}.

(** The body of [if st.button("Save Tool")], the selection being
    [tool_id]. *)
Definition save_tool (tool_id : string) (tool : ToolDefinition) (w : World)
  : option World :=
  data ← ss_tools_data (session w);
  tools ← store_tools data;
  selected ← ss_selected_tool_id (session w);
  let data' := {| store_tools := Some (dict_set tools tool_id tool) |} in
  Some {| session := set_tools (session w) data' selected;
          tools_file := save_tools data' |}.

(** What the user does in one run of the script: the button clicked, if
    any. *)
Inductive Click : Type :=
  | NoClick
  | ClickNew (new_id : string)
  | ClickDelete
  | ClickSave.

(** One run of [main] on the session and the file.  [choice] is the
    position the tool selector returns the label of, [edit] what the
    Builder tab makes of the tool being edited; the Preview tab, which
    changes [preview_values] only, is left out.  The run ends at
    [st.rerun()], at [st.stop()] or at the end of the script. *)
Definition main_run (choice : nat) (click : Click)
    (edit : ToolDefinition → option ToolDefinition) (w : World)
  : option World :=
  let w := ensure_state w in
  data ← ss_tools_data (session w);
  let tool_items := store_items data in
  let tool_ids := dict_keys tool_items in
  _ ← tool_labels tool_items;
  w ← match tool_ids with
      | [] => Some w
      | _ :: _ =>
          selected ← select_tool tool_items choice;
          Some {| session := set_selected (session w) (Some selected);
                  tools_file := tools_file w |}
      end;
  match click, tool_ids with
  | ClickNew new_id, _ => new_tool new_id w
  | ClickDelete, _ :: _ => delete_tool w
  | _, _ =>
      selected ← ss_selected_tool_id (session w);
      match selected with
      | None => Some w
      | Some tool_id =>
          ss ← ensure_editing_tool (session w);
          editing ← ss_editing_tool ss;
          tool ← editing;
          tool' ← edit tool;
          let w' := {| session := set_editing_tool ss (Some tool');
                       tools_file := tools_file w |} in
          match click with
          | ClickSave => save_tool tool_id tool' w'
          | _ => Some w'
          end
      end
  end.

Definition fresh_session : SessionState :=
  {| ss_tools_data := None;
     ss_selected_tool_id := None;
     ss_editing_tool := None;
     ss_preview_values := None |}.

(** *** Well-formed stores and sessions *)

Definition named (item : string * ToolDefinition) : Prop :=
  is_Some (tool_name item.2).

(** A store as the application writes it: it has the "tools" key, the tool
    ids are distinct (they are the keys of a dictionary) and every tool has
    a name. *)
Definition store_ok (data : ToolStore) : Prop :=
  ∃ tools, store_tools data = Some tools
    ∧ NoDup (dict_keys tools) ∧ Forall named tools.

(** The selection is the id of a stored tool, or [None] when there is no
    tool. *)
Definition selection_ok (tools : list (string * ToolDefinition))
    (selected : option string) : Prop :=
  match selected with
  | None => tools = []
  | Some tool_id => tool_id ∈ dict_keys tools
  end.

(** The state between two runs: the session holds a well-formed store,
    the file holds the same store, and the selection is valid. *)
Definition world_ok (w : World) : Prop :=
  ∃ data selected,
    ss_tools_data (session w) = Some data
    ∧ store_ok data
    ∧ load_tools (tools_file w) = data
    ∧ ss_selected_tool_id (session w) = Some selected
    ∧ selection_ok (store_items data) selected.

(** The state before the first run of a browser session. *)
Definition world_fresh (w : World) : Prop :=
  session w = fresh_session ∧ store_ok (load_tools (tools_file w)).

(** The number of tools the selector shows in a run started in [w]. *)
Definition tool_count (w : World) : nat :=
  match ss_tools_data (session (ensure_state w)) with
  | Some data => length (store_items data)
  | None => 0
  end.

(** A store of two tools, with the first one selected. *)
Definition world_two_tools : World :=
  {| session :=
       {| ss_tools_data := Some {| store_tools := Some two_new_tools |};
          ss_selected_tool_id := Some (Some "tool_a");
          ss_editing_tool := Some None;
          ss_preview_values := Some [] |};
     tools_file := Some {| store_tools := Some two_new_tools |} |}.

(** The first run: no session yet, no file yet. *)
Definition world_empty : World :=
  {| session := fresh_session; tools_file := None |}.

(** *** The Builder tab *)

Definition LEVELS : list pyval :=
  [PStr "success"; PStr "info"; PStr "warning"; PStr "error"].

(** What the widgets of the Builder tab return in a run, each as a function
    of what the script hands to the widget: the text inputs of their
    [value], the data editors of their rows, the level selector of its
    [index] (it returns a position of [LEVELS]). *)
Record Widgets : Type := mkWidgets {
  ui_name : pyval → pyval;
  ui_description : pyval → pyval;
  ui_inputs : list (gmap string pyval) → list (gmap string pyval);
  ui_scoring : list (gmap string pyval) → list (gmap string pyval);
  ui_rules : list (gmap string pyval) → list (gmap string pyval);
  ui_level : nat → nat;
  ui_message : pyval → pyval
}.

(** Widgets that hand back what they are handed: an instance for the
    examples.  What a widget returns in a run is up to Streamlit and the
    user; a theorem that needs the returns to be the values handed in says
    so with [returns_given]. *)
Definition echo : Widgets :=
  {| ui_name := id;
     ui_description := id;
     ui_inputs := id;
     ui_scoring := id;
     ui_rules := id;
     ui_level := id;
     ui_message := id |}.

(** [tool.get("fallback", {})] *)
Definition fallback_or_empty (tool : ToolDefinition) : OutcomeMessage :=
  default {| out_level := None; out_message := None |} (tool_fallback tool).

(** The Builder tab of [main] on the tool being edited: the tool it leaves
    in [tool]. *)
Definition builder_tab (ui : Widgets) (tool : ToolDefinition)
  : option ToolDefinition :=
  let name := ui_name ui (get_or (PStr "") (tool_name tool)) in
  let description :=
    ui_description ui (get_or (PStr "") (tool_description tool)) in
  input_rows ← tool_to_input_rows tool;
  inputs ← input_rows_to_tool (ui_inputs ui input_rows);
  scoring_rows ← tool_to_scoring_rows tool;
  scoring_rules ← scoring_rows_to_tool (ui_scoring ui scoring_rows);
  rules ← rule_rows_to_tool (ui_rules ui (tool_to_rule_rows tool));
  index ← py_index
    (get_or (PStr "warning") (out_level (fallback_or_empty tool))) LEVELS;
  fallback_level ← LEVELS !! ui_level ui index;
  let fallback_message :=
    ui_message ui
      (get_or (PStr "No rules matched.")
         (out_message (fallback_or_empty tool))) in
  Some {| tool_name := Some name;
          tool_description := Some description;
          tool_inputs := inputs;
          tool_scoring_rules := scoring_rules;
          tool_rules := rules;
          tool_fallback :=
            Some {| out_level := Some fallback_level;
                    out_message := Some fallback_message |} |}.

(** In a pass of the Builder tab over [tool], every widget returns the
    very value the script hands to it: the two text inputs and the message
    input their [value], the three data editors their rows, the level
    selector the position given as [index]. *)
Definition returns_given (ui : Widgets) (tool : ToolDefinition) : Prop :=
  ui_name ui (get_or (PStr "") (tool_name tool))
    = get_or (PStr "") (tool_name tool)
  ∧ ui_description ui (get_or (PStr "") (tool_description tool))
      = get_or (PStr "") (tool_description tool)
  ∧ (∀ rows, tool_to_input_rows tool = Some rows → ui_inputs ui rows = rows)
  ∧ (∀ rows, tool_to_scoring_rows tool = Some rows →
       ui_scoring ui rows = rows)
  ∧ ui_rules ui (tool_to_rule_rows tool) = tool_to_rule_rows tool
  ∧ (∀ index,
       py_index (get_or (PStr "warning") (out_level (fallback_or_empty tool)))
                LEVELS = Some index →
       ui_level ui index = index)
  ∧ ui_message ui
      (get_or (PStr "No rules matched.") (out_message (fallback_or_empty tool)))
      = get_or (PStr "No rules matched.")
          (out_message (fallback_or_empty tool)).

(** A tool every field of which is set as the Builder sets it. *)
Definition tool_complete (tool : ToolDefinition) : bool :=
  present (tool_name tool) && present (tool_description tool)
  && match tool_fallback tool with
     | Some fb =>
         match out_level fb with
         | Some level => bool_decide (level ∈ LEVELS)
         | None => false
         end
         && present (out_message fb)
     | None => false
     end.

(** A tool whose fallback has a level the Builder does not offer. *)
Definition tool_odd_level : ToolDefinition :=
  tool_of_rules [rule_q_yes]
    (Some {| out_level := Some (PStr "critical");
             out_message := Some (PStr "No") |}).

(** [row.get(input_id_N, "")] is a string and slot [idx] gives no
    condition: the stripped id is empty or the value equals "". *)
Definition slot_blank (row : gmap string pyval) (idx : nat) : bool :=
  match row_get_or row (key_id idx) (PStr "") with
  | PStr s =>
      String.eqb (strip s) ""
      || py_eq (row_get_or row (key_val idx) (PStr "")) (PStr "")
  | _ => false
  end.

(** A rule row with all nine columns, as [tool_to_rule_rows] lays them
    out, whose first slot has an id and a [None] value cell and whose other
    two slots are empty. *)
Definition rule_row_blank_value : gmap string pyval :=
  {[ "name" := PStr "R"; "level" := PStr "error"; "message" := PStr "Stop";
     "input_id_1" := PStr "ghost"; "value_1" := PNone;
     "input_id_2" := PStr ""; "value_2" := PStr "";
     "input_id_3" := PStr ""; "value_3" := PStr "" ]}.

Definition rule_row_values_text (row : gmap string pyval) : bool :=
  forallb (λ idx, text_cell (key_val idx) row) (seq 0 3).

(** ** Facts about Python equality *)

Lemma py_eq_refl v : py_eq v v = true.
Proof.
  destruct v as [|b|n|s]; simpl; auto.
  - by destruct b.
  - apply Z.eqb_refl.
  - apply String.eqb_refl.
Qed.

Lemma py_eq_sym a b : py_eq a b = py_eq b a.
Proof.
  destruct a as [|x|m|s], b as [|y|n|t]; simpl; auto.
  - by destruct x, y.
  - apply Z.eqb_sym.
  - apply Z.eqb_sym.
  - apply Z.eqb_sym.
  - apply String.eqb_sym.
Qed.

Lemma py_eq_none_l v : py_eq PNone v = true ↔ v = PNone.
Proof. destruct v; simpl; split; congruence. Qed.

Lemma py_eq_num_str n s : py_eq (PNum n) (PStr s) = false.
Proof. reflexivity. Qed.

Lemma py_eq_str_num s n : py_eq (PStr s) (PNum n) = false.
Proof. reflexivity. Qed.

Lemma values_get_missing values id :
  not_a_key values id → values_get values (get id) = PNone.
Proof.
  intros Hk. unfold values_get, row_get.
  destruct (get id) as [| | |k] eqn:E; auto.
  by rewrite (Hk k).
Qed.

(** ** The rule scan *)

Section rule_scan.
  Context (values : gmap string pyval).

Lemma conditions_match_forallb cs :
  conditions_match values cs = forallb (cond_holds values) cs.
Proof.
  induction cs as [|c cs IH]; simpl; [done|].
  unfold py_ne, cond_holds. rewrite IH.
  by destruct (py_eq _ _).
Qed.

Lemma first_match_cons r rest :
  first_match values (r :: rest) =
    if rule_matches values r then Some r else first_match values rest.
Proof.
  unfold rule_matches. simpl.
  destruct (rule_conditions r) as [|c cs] eqn:E; [done|].
  by rewrite conditions_match_forallb.
Qed.

Lemma first_match_app_skip pre rest :
  Forall (λ r, rule_matches values r = false) pre →
  first_match values (pre ++ rest) = first_match values rest.
Proof.
  induction 1 as [|r pre Hr _ IH]; [done|].
  rewrite <- app_comm_cons, first_match_cons. by rewrite Hr.
Qed.

Lemma first_match_Some rules r :
  first_match values rules = Some r ↔
  ∃ pre post, rules = pre ++ r :: post
    ∧ Forall (λ r', rule_matches values r' = false) pre
    ∧ rule_matches values r = true.
Proof.
  split.
  - induction rules as [|r0 rules IH]; [done|].
    rewrite first_match_cons.
    destruct (rule_matches values r0) eqn:E.
    + intros [= <-]. by exists [], rules.
    + intros (pre & post & -> & Hpre & Hr)%IH.
      exists (r0 :: pre), post. by repeat constructor.
  - intros (pre & post & -> & Hpre & Hr).
    rewrite first_match_app_skip, first_match_cons by done.
    by rewrite Hr.
Qed.

Lemma first_match_None rules :
  first_match values rules = None ↔
  Forall (λ r, rule_matches values r = false) rules.
Proof.
  induction rules as [|r rules IH]; [by split|].
  rewrite first_match_cons, Forall_cons.
  destruct (rule_matches values r).
  - split; [done|]. by intros [? _].
  - rewrite IH. split; [by split|]. by intros [_ ?].
Qed.

Lemma evaluate_rules_fallback tool :
  first_match values (tool_rules tool) = None →
  evaluate_rules tool values = fallback_outcome tool.
Proof.
  intros H. unfold evaluate_rules, fallback_outcome. rewrite H.
  by destruct (tool_fallback tool).
Qed.

Lemma evaluate_rules_selected tool r :
  first_match values (tool_rules tool) = Some r →
  evaluate_rules tool values = rule_outcome r.
Proof. intros H. unfold evaluate_rules. by rewrite H. Qed.

Lemma cond_holds_missing c :
  not_a_key values (cond_input_id c) →
  get (cond_value c) ≠ PNone →
  cond_holds values c = false.
Proof.
  intros Hk Hv. unfold cond_holds. rewrite values_get_missing by done.
  destruct (py_eq PNone _) eqn:E; [|done].
  by apply py_eq_none_l in E.
Qed.

Lemma rule_matches_all_hold r c :
  rule_matches values r = true → c ∈ rule_conditions r →
  cond_holds values c = true.
Proof.
  unfold rule_matches. destruct (rule_conditions r) as [|c0 cs] eqn:E; [done|].
  rewrite forallb_forall. intros H Hin. apply H. by apply list_elem_of_In.
Qed.

Lemma rule_matches_spec r :
  rule_matches values r = true ↔
  rule_conditions r ≠ []
    ∧ Forall (λ c, cond_holds values c = true) (rule_conditions r).
Proof.
  unfold rule_matches. destruct (rule_conditions r) as [|c cs].
  { split; [done|]. by intros [? _]. }
  rewrite forallb_forall, Forall_forall.
  split; [intros H; split; [done|] | intros [_ H]];
    intros x Hx; apply H; by apply list_elem_of_In.
Qed.

Lemma rule_unmatched_spec r :
  rule_conditions r = []
    ∨ Exists (λ c, cond_holds values c = false) (rule_conditions r) →
  rule_matches values r = false.
Proof.
  intros H. destruct (rule_matches values r) eqn:E; [|done].
  apply rule_matches_spec in E as [Hne Hall].
  destruct H as [H|H]; [done|].
  apply Exists_exists in H as (c & Hc & Hf).
  rewrite Forall_forall in Hall. specialize (Hall c Hc). congruence.
Qed.

Lemma first_match_drop_empty pre r post :
  rule_matches values r = false →
  first_match values (pre ++ r :: post) = first_match values (pre ++ post).
Proof.
  intros Hr. induction pre as [|r0 pre IH]; simpl app.
  - by rewrite first_match_cons, Hr.
  - by rewrite !first_match_cons, IH.
Qed.

Lemma first_match_matches rules r :
  first_match values rules = Some r → rule_matches values r = true.
Proof. intros H. by apply first_match_Some in H as (? & ? & _ & _ & ?). Qed.

End rule_scan.

(** ** The score loop *)

Section score_loop.
  Context (values : gmap string pyval).

Lemma score_step_polarity plus minus rule :
  py_truthy (get (sr_input_id rule)) = true →
  score_step values (plus, minus) rule =
    (if Z.eqb (rule_polarity values rule) 1 then plus + 1 else plus,
     if Z.eqb (rule_polarity values rule) (-1) then minus + 1 else minus).
Proof.
  intros Hid. unfold score_step, rule_polarity, polarity, raw_polarity.
  rewrite Hid. simpl negb. cbv iota.
  destruct (py_truthy (get_or (PBool false) (sr_invert_favor rule))),
    (py_in (values_get values (get (sr_input_id rule)))
       (sr_favor_values rule)),
    (py_in (values_get values (get (sr_input_id rule)))
       (sr_against_values rule)); reflexivity.
Qed.

Lemma score_step_skip acc rule :
  py_truthy (get (sr_input_id rule)) = false →
  score_step values acc rule = acc.
Proof. intros Hid. destruct acc. unfold score_step. by rewrite Hid. Qed.

Lemma rule_polarity_range rule :
  rule_polarity values rule = 1 ∨ rule_polarity values rule = -1
    ∨ rule_polarity values rule = 0.
Proof.
  unfold rule_polarity, polarity, raw_polarity.
  destruct (py_truthy (get_or (PBool false) (sr_invert_favor rule))),
    (py_in (values_get values (get (sr_input_id rule)))
       (sr_favor_values rule)),
    (py_in (values_get values (get (sr_input_id rule)))
       (sr_against_values rule)); auto.
Qed.

(** Each iteration keeps both counters from decreasing and raises their sum
    by at most one. *)
Lemma score_step_grows plus minus rule :
  let '(plus', minus') := score_step values (plus, minus) rule in
  plus ≤ plus' ∧ minus ≤ minus' ∧ plus' + minus' ≤ plus + minus + 1.
Proof.
  destruct (py_truthy (get (sr_input_id rule))) eqn:Hid.
  - rewrite score_step_polarity by done.
    destruct (rule_polarity_range rule) as [-> | [-> | ->]];
      simpl; lia.
  - rewrite score_step_skip by done. lia.
Qed.

Lemma score_loop_grows rules plus minus :
  let '(plus', minus') := fold_left (score_step values) rules (plus, minus) in
  plus ≤ plus' ∧ minus ≤ minus'
    ∧ plus' + minus' ≤ plus + minus + Z.of_nat (length rules).
Proof.
  revert plus minus. induction rules as [|rule rules IH]; intros plus minus.
  - simpl. lia.
  - cbn [fold_left].
    pose proof (score_step_grows plus minus rule) as Hs.
    destruct (score_step values (plus, minus) rule) as [p1 m1].
    specialize (IH p1 m1).
    destruct (fold_left _ rules (p1, m1)) as [p2 m2].
    rewrite length_cons. lia.
Qed.

Lemma score_loop_drop pre rule post acc :
  (∀ acc', score_step values acc' rule = acc') →
  fold_left (score_step values) (pre ++ rule :: post) acc =
    fold_left (score_step values) (pre ++ post) acc.
Proof. intros H. rewrite !fold_left_app. simpl. by rewrite H. Qed.

Lemma score_step_missing acc rule :
  not_a_key values (sr_input_id rule) →
  py_in PNone (sr_favor_values rule) = false →
  py_in PNone (sr_against_values rule) = false →
  score_step values acc rule = acc.
Proof.
  intros Hk Hf Ha. destruct acc as [plus minus].
  destruct (py_truthy (get (sr_input_id rule))) eqn:Hid.
  - rewrite score_step_polarity by done.
    unfold rule_polarity, raw_polarity.
    rewrite values_get_missing, Hf, Ha by done.
    unfold polarity.
    by destruct (py_truthy (get_or (PBool false) (sr_invert_favor rule))).
  - by apply score_step_skip.
Qed.

End score_loop.

(** ** Recommendation selection *)

(** C1 (amended).  [evaluate_rules] returns the (level, message) of the
    first rule of [tool.rules], in sequence order, that has at least one
    condition and all of whose conditions hold; whichever rules follow it,
    and however many conditions they have, is irrelevant.  A condition holds
    iff [values.get(cond.input_id)] equals [cond.value] under Python's [==]:
    for a key that is present this compares the stored value, for a missing
    key it holds exactly when the expected value is [None], so a missing key
    is a non-match whenever the expected value is not [None]; a number never
    equals a string. *)
Theorem evaluate_rules_first_match tool values pre r post :
  tool_rules tool = pre ++ r :: post →
  Forall (λ r', rule_matches values r' = false) pre →
  rule_matches values r = true →
  evaluate_rules tool values = rule_outcome r
  ∧ (∀ r', rule_matches values r' = true ↔
       rule_conditions r' ≠ []
       ∧ Forall (λ c, cond_holds values c = true) (rule_conditions r'))
  ∧ (∀ c k actual, get (cond_input_id c) = PStr k →
       values !! k = Some actual →
       cond_holds values c = py_eq actual (get (cond_value c)))
  ∧ (∀ c, not_a_key values (cond_input_id c) →
       (cond_holds values c = true ↔ get (cond_value c) = PNone))
  ∧ (∀ n s, py_eq (PNum n) (PStr s) = false ∧ py_eq (PStr s) (PNum n) = false).
Proof.
  intros Hrules Hpre Hr. split; [|split; [|split; [|split]]].
  - apply evaluate_rules_selected, first_match_Some. by exists pre, post.
  - intros r'. apply rule_matches_spec.
  - intros c k actual Hid Hk. unfold cond_holds, values_get, row_get.
    by rewrite Hid, Hk.
  - intros c Hk. unfold cond_holds. rewrite values_get_missing by done.
    apply py_eq_none_l.
  - done.
Qed.

Lemma evaluate_rules_first_match_witness :
  tool_rules tool_three_rules = [rule_empty] ++ rule_q_yes :: [rule_q_yes_n_1]
  ∧ Forall (λ r', rule_matches values_q_yes_n_1 r' = false) [rule_empty]
  ∧ rule_matches values_q_yes_n_1 rule_q_yes = true
  ∧ rule_matches values_q_yes_n_1 rule_q_yes_n_1 = true
  ∧ evaluate_rules tool_three_rules values_q_yes_n_1
      = (PStr "success", PStr "Go").
Proof.
  assert (H1 : tool_rules tool_three_rules
               = [rule_empty] ++ rule_q_yes :: [rule_q_yes_n_1])
    by reflexivity.
  assert (H2 : Forall (λ r', rule_matches values_q_yes_n_1 r' = false)
                 [rule_empty]) by (repeat constructor).
  assert (H3 : rule_matches values_q_yes_n_1 rule_q_yes = true)
    by (vm_compute; reflexivity).
  split; [exact H1|]. split; [exact H2|]. split; [exact H3|].
  split; [vm_compute; reflexivity|].
  exact (proj1 (evaluate_rules_first_match tool_three_rules values_q_yes_n_1
                  [rule_empty] rule_q_yes [rule_q_yes_n_1] H1 H2 H3)).
Defined.

(** C1, as stated, fails: with [values = {"r": "x"}] the key "q" is missing,
    so under the claim's reading the first rule all of whose conditions hold
    is the second one; the code compares [values.get("q")], which is [None],
    with the expected [None] and returns the first rule. *)
Lemma evaluate_rules_missing_key_counterexample :
  values_r_x !! "q" = None
  ∧ first_rule_present values_r_x (tool_rules tool_q_none) = Some rule_r_x
  ∧ evaluate_rules tool_q_none values_r_x = (PStr "error", PStr "Stop")
  ∧ evaluate_rules tool_q_none values_r_x ≠ rule_outcome rule_r_x.
Proof. repeat split; vm_compute; congruence. Qed.

(** Every rule of a concrete list is skipped or has a failing first
    condition. *)
Ltac no_rule_matches :=
  simpl tool_rules;
  repeat (constructor;
          [first [ by left
                 | right; apply Exists_cons_hd; vm_compute; reflexivity ] |]);
  constructor.

(** C4.  When no rule matches, because each rule either is skipped for
    having no conditions or has a condition that fails, [evaluate_rules]
    returns the (level, message) of [tool.fallback]; when the tool has no
    fallback it returns ("warning", "No rules matched."). *)
Theorem evaluate_rules_no_match tool values :
  Forall (λ r, rule_conditions r = []
               ∨ Exists (λ c, cond_holds values c = false) (rule_conditions r))
    (tool_rules tool) →
  (∀ fb, tool_fallback tool = Some fb →
     evaluate_rules tool values =
       (get_or (PStr "warning") (out_level fb),
        get_or (PStr "No rules matched.") (out_message fb)))
  ∧ (tool_fallback tool = None →
     evaluate_rules tool values = (PStr "warning", PStr "No rules matched.")).
Proof.
  intros Hall.
  assert (Hnone : first_match values (tool_rules tool) = None).
  { apply first_match_None. eapply Forall_impl; [exact Hall|].
    intros r. apply rule_unmatched_spec. }
  pose proof (evaluate_rules_fallback values tool Hnone) as Hfb.
  unfold fallback_outcome in Hfb.
  split; [intros fb Hsome | intros Hno]; by rewrite Hfb, ?Hsome, ?Hno.
Qed.

Lemma evaluate_rules_no_match_witness :
  evaluate_rules tool_three_rules values_q_no = (PStr "warning", PStr "No")
  ∧ evaluate_rules tool_only_empty values_q_yes = (PStr "warning", PStr "No")
  ∧ evaluate_rules tool_no_fallback values_q_no
      = (PStr "warning", PStr "No rules matched.").
Proof.
  split; [|split].
  - apply (proj1 (evaluate_rules_no_match tool_three_rules values_q_no
       ltac:(no_rule_matches)) fallback_no).
    reflexivity.
  - apply (proj1 (evaluate_rules_no_match tool_only_empty values_q_yes
       ltac:(no_rule_matches)) fallback_no).
    reflexivity.
  - apply (proj2 (evaluate_rules_no_match tool_no_fallback values_q_no
       ltac:(no_rule_matches))).
    reflexivity.
Defined.

(** C5.  A rule whose condition list is empty is never the rule at which
    [evaluate_rules] returns: the scan never stops at it, wherever it stands
    in [tool.rules] (first included), so deleting it leaves the result
    unchanged; when it is the only rule the fallback is returned. *)
Theorem empty_rule_never_selected tool values r :
  rule_conditions r = [] →
  first_match values (tool_rules tool) ≠ Some r
  ∧ (∀ pre post, tool_rules tool = pre ++ r :: post →
       first_match values (tool_rules tool) = first_match values (pre ++ post)
       ∧ evaluate_rules tool values
           = evaluate_rules (with_rules tool (pre ++ post)) values)
  ∧ (tool_rules tool = [r] → evaluate_rules tool values = fallback_outcome tool).
Proof.
  intros Hempty.
  assert (Hr : rule_matches values r = false)
    by (apply rule_unmatched_spec; by left).
  split; [|split].
  - intros Hsel%first_match_matches. congruence.
  - intros pre post Hrules.
    assert (Hdrop : first_match values (tool_rules tool)
                    = first_match values (pre ++ post))
      by (rewrite Hrules; by apply first_match_drop_empty).
    split; [done|]. unfold evaluate_rules. by rewrite Hdrop.
  - intros Hrules. apply evaluate_rules_fallback.
    rewrite Hrules, first_match_cons. by rewrite Hr.
Qed.

Lemma empty_rule_never_selected_witness :
  rule_conditions rule_empty = []
  ∧ evaluate_rules tool_three_rules values_q_yes
      = evaluate_rules (with_rules tool_three_rules
                          ([] ++ [rule_q_yes; rule_q_yes_n_1])) values_q_yes
  ∧ evaluate_rules tool_only_empty values_q_yes = (PStr "warning", PStr "No").
Proof.
  split; [reflexivity|]. split.
  - apply (proj1 (proj2 (empty_rule_never_selected tool_three_rules
       values_q_yes rule_empty eq_refl)) [] [rule_q_yes; rule_q_yes_n_1]).
    reflexivity.
  - apply (proj2 (proj2 (empty_rule_never_selected tool_only_empty
       values_q_yes rule_empty eq_refl))).
    reflexivity.
Defined.

(** C6 (amended).  A rule containing a condition whose input id is not a
    key of [values] and whose expected value is not [None] never matches and
    is never selected; a scoring rule whose input id is not a key of
    [values] leaves both counters unchanged provided [None] is listed in
    neither of its value lists, and one whose input id is empty (or absent)
    is skipped: in each case [compute_scores] returns what it returns
    without that scoring rule.  Both functions are total. *)
Theorem dangling_reference_inert tool values :
  (∀ r c, c ∈ rule_conditions r →
     not_a_key values (cond_input_id c) →
     get (cond_value c) ≠ PNone →
     rule_matches values r = false
     ∧ first_match values (tool_rules tool) ≠ Some r)
  ∧ (∀ pre rule post, tool_scoring_rules tool = pre ++ rule :: post →
     not_a_key values (sr_input_id rule) →
     py_in PNone (sr_favor_values rule) = false →
     py_in PNone (sr_against_values rule) = false →
     (∀ acc, score_step values acc rule = acc)
     ∧ compute_scores tool values
         = compute_scores (with_scoring_rules tool (pre ++ post)) values)
  ∧ (∀ pre rule post, tool_scoring_rules tool = pre ++ rule :: post →
     py_truthy (get (sr_input_id rule)) = false →
     (∀ acc, score_step values acc rule = acc)
     ∧ compute_scores tool values
         = compute_scores (with_scoring_rules tool (pre ++ post)) values).
Proof.
  split; [|split].
  - intros r c Hc Hk Hv.
    assert (Hr : rule_matches values r = false).
    { destruct (rule_matches values r) eqn:E; [|done].
      pose proof (rule_matches_all_hold values r c E Hc) as Hh.
      by rewrite cond_holds_missing in Hh. }
    split; [done|]. intros Hsel%first_match_matches. congruence.
  - intros pre rule post Hrules Hk Hf Ha.
    assert (Hid : ∀ acc, score_step values acc rule = acc)
      by (intros acc; by apply score_step_missing).
    split; [done|]. unfold compute_scores. rewrite Hrules. simpl.
    by apply score_loop_drop.
  - intros pre rule post Hrules Hemp.
    assert (Hid : ∀ acc, score_step values acc rule = acc)
      by (intros acc; by apply score_step_skip).
    split; [done|]. unfold compute_scores. rewrite Hrules. simpl.
    by apply score_loop_drop.
Qed.

Lemma dangling_reference_inert_witness :
  rule_matches values_q_yes (rule_of "g" "error" "Stop"
                               [cond_equals "ghost" (PStr "Yes")]) = false
  ∧ compute_scores (tool_of_scoring [scoring_q false; scoring_ghost])
      values_q_yes
    = compute_scores (with_scoring_rules
        (tool_of_scoring [scoring_q false; scoring_ghost])
        ([scoring_q false] ++ [])) values_q_yes.
Proof.
  split.
  - apply (proj1 (dangling_reference_inert tool_ghost values_q_yes)
             _ (cond_equals "ghost" (PStr "Yes"))).
    + apply list_elem_of_here.
    + intros k [= <-]. reflexivity.
    + discriminate.
  - apply (proj1 (proj2 (dangling_reference_inert
             (tool_of_scoring [scoring_q false; scoring_ghost]) values_q_yes))
             [scoring_q false] scoring_ghost []).
    + reflexivity.
    + intros k [= <-]. reflexivity.
    + reflexivity.
    + reflexivity.
Defined.

(** C6, as stated, fails: "ghost" is not a key of [values], yet the rule
    whose only condition names it (and carries no expected value) matches
    and is returned instead of the fallback. *)
Lemma dangling_condition_counterexample :
  values_q_yes !! "ghost" = None
  ∧ cond_input_id cond_ghost = Some (PStr "ghost")
  ∧ rule_conditions rule_ghost = [cond_ghost]
  ∧ first_match values_q_yes (tool_rules tool_ghost) = Some rule_ghost
  ∧ evaluate_rules tool_ghost values_q_yes = (PStr "error", PStr "Stop")
  ∧ evaluate_rules tool_ghost values_q_yes ≠ fallback_outcome tool_ghost.
Proof. repeat split; vm_compute; congruence. Qed.

(** ** Scoring *)



(** The engine itself makes no presence test: on a rule built by hand with
    [None] among its [favor_values], a key missing from [values] counts in
    favor.  No such rule comes out of [scoring_rows_to_tool]. *)
Example score_step_none_listed :
  (∅ : gmap string pyval) !! "q" = None
  ∧ py_truthy (get (sr_input_id scoring_none_listed)) = true
  ∧ score_step ∅ (0, 0) scoring_none_listed = (1, 0)
  ∧ compute_scores (tool_of_scoring [scoring_none_listed]) ∅ = (1, 0).
Proof. repeat split; vm_compute; congruence. Qed.

(** The end-to-end examples of the specification. *)
Example evaluate_rules_example_yes :
  evaluate_rules (tool_of_rules [rule_q_yes] (Some fallback_no)) values_q_yes
    = (PStr "success", PStr "Go").
Proof. reflexivity. Qed.

Example evaluate_rules_example_no :
  evaluate_rules (tool_of_rules [rule_q_yes] (Some fallback_no)) values_q_no
    = (PStr "warning", PStr "No").
Proof. reflexivity. Qed.

Example compute_scores_examples :
  compute_scores (tool_of_scoring [scoring_q false]) values_q_yes = (1, 0)
  ∧ compute_scores (tool_of_scoring [scoring_q false]) values_q_no = (0, 1)
  ∧ compute_scores (tool_of_scoring [scoring_q false])
      {[ "q" := PStr "Unknown" ]} = (0, 0)
  ∧ compute_scores (tool_of_scoring [scoring_q true]) values_q_yes = (0, 1).
Proof. repeat split. Qed.

(** C8.  [compute_scores] returns a pair of non-negative integers, each at
    most the number of entries of [tool.scoring_rules]. *)
Theorem compute_scores_bounds tool values :
  0 ≤ (compute_scores tool values).1 ≤ Z.of_nat (length (tool_scoring_rules tool))
  ∧ 0 ≤ (compute_scores tool values).2
      ≤ Z.of_nat (length (tool_scoring_rules tool)).
Proof.
  unfold compute_scores.
  pose proof (score_loop_grows values (tool_scoring_rules tool) 0 0) as H.
  destruct (fold_left _ _ _) as [plus minus]. simpl. lia.
Qed.

(** C10.  The two counters of [compute_scores] add up to at most the number
    of entries of [tool.scoring_rules]: an iteration raises at most one of
    them, and by one. *)
Theorem compute_scores_sum_bound tool values :
  (compute_scores tool values).1 + (compute_scores tool values).2
    ≤ Z.of_nat (length (tool_scoring_rules tool))
  ∧ ∀ plus minus rule,
      score_step values (plus, minus) rule = (plus, minus)
      ∨ score_step values (plus, minus) rule = (plus + 1, minus)
      ∨ score_step values (plus, minus) rule = (plus, minus + 1).
Proof.
  split.
  - unfold compute_scores.
    pose proof (score_loop_grows values (tool_scoring_rules tool) 0 0) as H.
    destruct (fold_left _ _ _) as [plus minus]. simpl. lia.
  - intros plus minus rule.
    destruct (py_truthy (get (sr_input_id rule))) eqn:Hid.
    + rewrite score_step_polarity by done.
      destruct (rule_polarity_range values rule) as [-> | [-> | ->]];
        simpl; auto.
    + left. by apply score_step_skip.
Qed.

(** ** Strings: strip, split and join *)

Lemma lstrip_no_leading s : starts_with_space (lstrip s) = false.
Proof.
  induction s as [|c s IH]; simpl; [done|].
  destruct (is_space c) eqn:E; [done|]. simpl. by rewrite E.
Qed.

Lemma rstrip_no_trailing s : ends_with_space (rstrip s) = false.
Proof.
  induction s as [|c s IH]; simpl; [done|].
  destruct (rstrip s) as [|d r] eqn:E.
  - destruct (is_space c) eqn:Ec; [done|]. simpl. by rewrite Ec.
  - exact IH.
Qed.

Lemma rstrip_keeps_head s :
  starts_with_space s = false → starts_with_space (rstrip s) = false.
Proof.
  destruct s as [|c s]; simpl; [done|]. intros Hc.
  destruct (rstrip s); [by rewrite Hc|done].
Qed.

Lemma strip_stripped s : stripped (strip s) = true.
Proof.
  unfold stripped, strip.
  by rewrite rstrip_keeps_head, rstrip_no_trailing by apply lstrip_no_leading.
Qed.

Lemma lstrip_id s : starts_with_space s = false → lstrip s = s.
Proof. destruct s as [|c s]; simpl; [done|]. by intros ->. Qed.

Lemma rstrip_id s : ends_with_space s = false → rstrip s = s.
Proof.
  induction s as [|c s IH]; [done|].
  destruct s as [|d s].
  - simpl. by intros ->.
  - intros H. change (ends_with_space (String d s) = false) in H.
    change (rstrip (String c (String d s)))
      with (match rstrip (String d s) with
            | "" => if is_space c then "" else String c ""
            | r => String c r
            end).
    by rewrite IH.
Qed.

Lemma stripped_strip s : stripped s = true → strip s = s.
Proof.
  unfold stripped, strip.
  intros [H1 H2]%andb_prop.
  apply negb_true_iff in H1. apply negb_true_iff in H2.
  by rewrite lstrip_id, rstrip_id.
Qed.

Lemma strip_after_space s : strip (String " " s) = strip s.
Proof. reflexivity. Qed.

Lemma split_comma_free s : comma_free s = true → split_comma s = [s].
Proof.
  induction s as [|c s IH]; simpl; [done|].
  intros [Hc Hs]%andb_prop. apply negb_true_iff in Hc.
  by rewrite Hc, IH.
Qed.

Lemma split_comma_app s t :
  comma_free s = true →
  split_comma (s +:+ String "," t) = s :: split_comma t.
Proof.
  induction s as [|c s IH]; [done|].
  intros [Hc Hs]%andb_prop. apply negb_true_iff in Hc.
  change (String c s +:+ String "," t) with (String c (s +:+ String "," t)).
  simpl. by rewrite Hc, IH.
Qed.

Lemma split_comma_join x rest :
  Forall (λ s, comma_free s = true) (x :: rest) →
  split_comma (join ", " (x :: rest)) = x :: (String " " <$> rest).
Proof.
  revert x. induction rest as [|y rest IH]; intros x Hall.
  - apply split_comma_free. by inversion Hall.
  - inversion Hall as [|? ? Hx Hrest]; subst.
    change (join ", " (x :: y :: rest))
      with (x +:+ String "," (String " " (join ", " (y :: rest)))).
    rewrite split_comma_app by done.
    change (split_comma (String " " (join ", " (y :: rest))))
      with (match split_comma (join ", " (y :: rest)) with
            | t :: ts => String " " t :: ts
            | [] => [String " " ""]
            end).
    by rewrite IH.
Qed.

Lemma join_nonempty sep x rest : x ≠ "" → join sep (x :: rest) ≠ "".
Proof.
  destruct x as [|c x]; [done|]. intros _.
  destruct rest; simpl; [done|]. discriminate.
Qed.

(** ** Rows to model: rows without their key field *)

Lemma filter_length_le {A} (f : A → bool) (l : list A) :
  (length (List.filter f l) ≤ length l)%nat.
Proof. induction l as [|x l IH]; simpl; [lia|]. destruct (f x); simpl; lia. Qed.

Lemma text_cell_strip key row dflt :
  text_cell key row = true →
  is_Some (py_strip (row_get_or row key (PStr dflt))).
Proof.
  unfold text_cell, row_get_or.
  destruct (row !! key) as [[| | |s]|]; simpl; by eauto.
Qed.

Lemma text_key_strip key row :
  has_key key row = true → text_cell key row = true →
  is_Some (py_strip (row_get row key)).
Proof.
  unfold has_key, text_cell, row_get.
  destruct (row !! key) as [[| | |s]|]; simpl; by eauto.
Qed.

Lemma input_rows_to_tool_cons row rest :
  input_rows_to_tool (row :: rest) =
    if has_key "id" row then
      id ← py_strip (row_get row "id");
      label ← py_strip (row_get_or row "label" (PStr ""));
      inputs ← input_rows_to_tool rest;
      Some ({| in_id := Some (PStr id);
               in_label := Some (PStr label);
               in_type := Some (row_get_or row "type" (PStr "select"));
               in_options :=
                 normalize_options (row_get_or row "options_csv" (PStr ""))
            |} :: inputs)
    else input_rows_to_tool rest.
Proof. unfold has_key. simpl. by destruct (py_truthy _). Qed.

Lemma scoring_rows_to_tool_cons row rest :
  scoring_rows_to_tool (row :: rest) =
    if has_key "input_id" row then
      input_id ← py_strip (row_get row "input_id");
      rules ← scoring_rows_to_tool rest;
      Some ({| sr_input_id := Some (PStr input_id);
               sr_favor_values :=
                 normalize_options
                   (row_get_or row "favor_values_csv" (PStr ""));
               sr_against_values :=
                 normalize_options
                   (row_get_or row "against_values_csv" (PStr ""));
               sr_invert_favor :=
                 Some (PBool (py_truthy
                   (row_get_or row "invert_favor" (PBool false))))
            |} :: rules)
    else scoring_rows_to_tool rest.
Proof. unfold has_key. simpl. by destruct (py_truthy _). Qed.

Lemma rule_rows_to_tool_cons row rest :
  rule_rows_to_tool (row :: rest) =
    if has_key "name" row then
      conditions ← slot_conditions row (seq 0 3);
      rules ← rule_rows_to_tool rest;
      Some ({| rule_name := Some (row_get_or row "name" (PStr ""));
               rule_level := Some (row_get_or row "level" (PStr "info"));
               rule_message := Some (row_get_or row "message" (PStr ""));
               rule_conditions := conditions |} :: rules)
    else rule_rows_to_tool rest.
Proof. unfold has_key. simpl. by destruct (py_truthy _). Qed.

(** The three converters share the shape of their loop; [conv_cons] is the
    unfolding lemma of the one at hand. *)
Ltac conv_filter conv_cons :=
  let rows := fresh "rows" in
  let row := fresh "row" in
  let IH := fresh "IH" in
  intros rows; induction rows as [|row rows IH]; [done|];
  cbn [List.filter]; rewrite conv_cons;
  match goal with
  | |- context [has_key ?k row] =>
      destruct (has_key k row) eqn:?; [rewrite conv_cons|]
  end;
  [by repeat match goal with H : _ = true |- _ => rewrite H end; rewrite IH
  | exact IH].

Lemma input_rows_filter rows :
  input_rows_to_tool rows
    = input_rows_to_tool (List.filter (has_key "id") rows).
Proof. revert rows. conv_filter input_rows_to_tool_cons. Qed.

Lemma scoring_rows_filter rows :
  scoring_rows_to_tool rows
    = scoring_rows_to_tool (List.filter (has_key "input_id") rows).
Proof. revert rows. conv_filter scoring_rows_to_tool_cons. Qed.

Lemma rule_rows_filter rows :
  rule_rows_to_tool rows
    = rule_rows_to_tool (List.filter (has_key "name") rows).
Proof. revert rows. conv_filter rule_rows_to_tool_cons. Qed.

Lemma input_rows_length rows inputs :
  input_rows_to_tool rows = Some inputs →
  length inputs = length (List.filter (has_key "id") rows).
Proof.
  revert inputs. induction rows as [|row rows IH]; intros inputs.
  - by intros [= <-].
  - rewrite input_rows_to_tool_cons. cbn [List.filter].
    destruct (has_key "id" row); [|by apply IH].
    destruct (py_strip (row_get row "id")); [|done].
    destruct (py_strip (row_get_or row "label" (PStr ""))); [|done].
    destruct (input_rows_to_tool rows) as [tl|]; [|done].
    intros [= <-]. simpl. f_equal. by apply IH.
Qed.

Lemma scoring_rows_length rows rules :
  scoring_rows_to_tool rows = Some rules →
  length rules = length (List.filter (has_key "input_id") rows).
Proof.
  revert rules. induction rows as [|row rows IH]; intros rules.
  - by intros [= <-].
  - rewrite scoring_rows_to_tool_cons. cbn [List.filter].
    destruct (has_key "input_id" row); [|by apply IH].
    destruct (py_strip (row_get row "input_id")); [|done].
    destruct (scoring_rows_to_tool rows) as [tl|]; [|done].
    intros [= <-]. simpl. f_equal. by apply IH.
Qed.

Lemma rule_rows_length rows rules :
  rule_rows_to_tool rows = Some rules →
  length rules = length (List.filter (has_key "name") rows).
Proof.
  revert rules. induction rows as [|row rows IH]; intros rules.
  - by intros [= <-].
  - rewrite rule_rows_to_tool_cons. cbn [List.filter].
    destruct (has_key "name" row); [|by apply IH].
    destruct (slot_conditions row (seq 0 3)); [|done].
    destruct (rule_rows_to_tool rows) as [tl|]; [|done].
    intros [= <-]. simpl. f_equal. by apply IH.
Qed.

(** The converters return on rows whose stripped cells are strings. *)
Lemma input_rows_total rows :
  Forall (λ row, has_key "id" row = false ∨ input_row_texts row = true) rows →
  is_Some (input_rows_to_tool rows).
Proof.
  induction 1 as [|row rows Hrow _ IH]; [by eexists|].
  rewrite input_rows_to_tool_cons.
  destruct (has_key "id" row) eqn:Hk; [|done].
  destruct Hrow as [|[Hid Hlabel]%andb_prop]; [done|].
  destruct (text_key_strip "id" row Hk Hid) as [id ->].
  destruct (text_cell_strip "label" row "" Hlabel) as [label ->].
  destruct IH as [inputs ->]. by eexists.
Qed.

Lemma scoring_rows_total rows :
  Forall (λ row, has_key "input_id" row = false
                 ∨ scoring_row_texts row = true) rows →
  is_Some (scoring_rows_to_tool rows).
Proof.
  induction 1 as [|row rows Hrow _ IH]; [by eexists|].
  rewrite scoring_rows_to_tool_cons.
  destruct (has_key "input_id" row) eqn:Hk; [|done].
  destruct Hrow as [|Hid]; [done|].
  destruct (text_key_strip "input_id" row Hk Hid) as [id ->].
  destruct IH as [rules ->]. by eexists.
Qed.

Lemma slot_conditions_total row idxs :
  forallb (λ idx, text_cell (key_id idx) row) idxs = true →
  is_Some (slot_conditions row idxs).
Proof.
  induction idxs as [|idx idxs IH]; [by eexists|].
  cbn [forallb slot_conditions]. intros [Hidx Hrest]%andb_prop.
  destruct (text_cell_strip (key_id idx) row "" Hidx) as [id ->].
  destruct (IH Hrest) as [cs ->]. simpl.
  by destruct (_ && _); eexists.
Qed.

Lemma rule_rows_total rows :
  Forall (λ row, has_key "name" row = false ∨ rule_row_texts row = true) rows →
  is_Some (rule_rows_to_tool rows).
Proof.
  induction 1 as [|row rows Hrow _ IH]; [by eexists|].
  rewrite rule_rows_to_tool_cons.
  destruct (has_key "name" row) eqn:Hk; [|done].
  destruct Hrow as [|Htexts]; [done|].
  destruct (slot_conditions_total row (seq 0 3) Htexts) as [cs ->].
  destruct IH as [rules ->]. by eexists.
Qed.

(** ** Conditions read from a rule row *)

Lemma py_eq_false_ne a b : py_eq a b = false → a ≠ b.
Proof. intros H ->. by rewrite py_eq_refl in H. Qed.

Lemma slot_conditions_from_row row idxs conditions :
  slot_conditions row idxs = Some conditions →
  (length conditions ≤ length idxs)%nat ∧ Forall cond_from_row conditions.
Proof.
  revert conditions. induction idxs as [|idx idxs IH]; intros conditions.
  - intros [= <-]. by split.
  - cbn [slot_conditions].
    destruct (row_get_or row (key_id idx) (PStr "")) as [| | |s];
      simpl; try done.
    destruct (slot_conditions row idxs) as [cs|]; simpl; [|done].
    destruct (IH cs eq_refl) as [Hlen Hall].
    destruct (negb (String.eqb (strip s) "")) eqn:Hs; simpl.
    + destruct (py_ne _ (PStr "")) eqn:Hv; intros [= <-].
      * split; [simpl; lia|]. constructor; [|done].
        pose proof (strip_stripped s) as [H1 H2]%andb_prop.
        apply negb_true_iff in H1. apply negb_true_iff in H2.
        apply negb_true_iff in Hs. apply negb_true_iff in Hv.
        repeat split; simpl.
        -- exists (strip s). repeat split; try done.
           intros E. by rewrite E in Hs.
        -- eexists. repeat split; [by apply py_eq_false_ne|done].
      * split; [simpl; lia|done].
    + intros [= <-]. split; [simpl; lia|done].
Qed.

(** ** The transcoder, rows to model *)

(** C7.  Each rows-to-model converter passes over every row whose key field
    ("id", "input_id", "name") is missing or empty, without raising: the
    result on [rows] is the result on the rows that carry the key, the
    output has one entry per such row, so its length is at most the length
    of the input, and on rows whose text cells are strings the converter
    returns a list. *)
Theorem rows_without_key_excluded (rows : list (gmap string pyval)) :
  (input_rows_to_tool rows
     = input_rows_to_tool (List.filter (has_key "id") rows)
   ∧ (∀ inputs, input_rows_to_tool rows = Some inputs →
        length inputs = length (List.filter (has_key "id") rows)
        ∧ (length inputs ≤ length rows)%nat)
   ∧ (Forall (λ row, has_key "id" row = false
                     ∨ input_row_texts row = true) rows →
      is_Some (input_rows_to_tool rows)))
  ∧ (scoring_rows_to_tool rows
       = scoring_rows_to_tool (List.filter (has_key "input_id") rows)
     ∧ (∀ rules, scoring_rows_to_tool rows = Some rules →
          length rules = length (List.filter (has_key "input_id") rows)
          ∧ (length rules ≤ length rows)%nat)
     ∧ (Forall (λ row, has_key "input_id" row = false
                       ∨ scoring_row_texts row = true) rows →
        is_Some (scoring_rows_to_tool rows)))
  ∧ (rule_rows_to_tool rows
       = rule_rows_to_tool (List.filter (has_key "name") rows)
     ∧ (∀ rules, rule_rows_to_tool rows = Some rules →
          length rules = length (List.filter (has_key "name") rows)
          ∧ (length rules ≤ length rows)%nat)
     ∧ (Forall (λ row, has_key "name" row = false
                       ∨ rule_row_texts row = true) rows →
        is_Some (rule_rows_to_tool rows))).
Proof.
  split; [|split]; (split; [|split]).
  - apply input_rows_filter.
  - intros inputs H%input_rows_length. rewrite H.
    split; [done|apply filter_length_le].
  - apply input_rows_total.
  - apply scoring_rows_filter.
  - intros rules H%scoring_rows_length. rewrite H.
    split; [done|apply filter_length_le].
  - apply scoring_rows_total.
  - apply rule_rows_filter.
  - intros rules H%rule_rows_length. rewrite H.
    split; [done|apply filter_length_le].
  - apply rule_rows_total.
Qed.

(** Each row of a concrete list lacks its key or has text cells. *)
Ltac rows_are_text :=
  unfold input_rows_sample, scoring_rows_sample, rule_rows_sample;
  repeat (constructor;
          [first [ left; vm_compute; reflexivity
                 | right; vm_compute; reflexivity ] |]);
  constructor.

Lemma rows_without_key_excluded_witness :
  (∃ inputs, input_rows_to_tool input_rows_sample = Some inputs
             ∧ length inputs = 1%nat)
  ∧ (∃ rules, scoring_rows_to_tool scoring_rows_sample = Some rules
              ∧ length rules = 1%nat)
  ∧ (∃ rules, rule_rows_to_tool rule_rows_sample = Some rules
              ∧ length rules = 1%nat).
Proof.
  split; [|split].
  - destruct (proj2 (proj2 (proj1
      (rows_without_key_excluded input_rows_sample)))) as [inputs H]; [rows_are_text|].
    exists inputs. split; [exact H|].
    exact (proj1 (proj1 (proj2 (proj1
      (rows_without_key_excluded input_rows_sample))) inputs H)).
  - destruct (proj2 (proj2 (proj1 (proj2
      (rows_without_key_excluded scoring_rows_sample))))) as [rules H]; [rows_are_text|].
    exists rules. split; [exact H|].
    exact (proj1 (proj1 (proj2 (proj1 (proj2
      (rows_without_key_excluded scoring_rows_sample)))) rules H)).
  - destruct (proj2 (proj2 (proj2 (proj2
      (rows_without_key_excluded rule_rows_sample))))) as [rules H]; [rows_are_text|].
    exists rules. split; [exact H|].
    exact (proj1 (proj1 (proj2 (proj2 (proj2
      (rows_without_key_excluded rule_rows_sample)))) rules H)).
Defined.

(** C9.  Every rule produced by [rule_rows_to_tool] has at most 3
    conditions, and each of them has op "equals", a non-empty input id
    without leading or trailing whitespace, and a value different from the
    empty string. *)
Theorem rule_rows_conditions (rows : list (gmap string pyval)) rules :
  rule_rows_to_tool rows = Some rules →
  Forall (λ r, (length (rule_conditions r) ≤ 3)%nat
               ∧ Forall cond_from_row (rule_conditions r)) rules.
Proof.
  revert rules. induction rows as [|row rows IH]; intros rules.
  - intros [= <-]. constructor.
  - rewrite rule_rows_to_tool_cons.
    destruct (has_key "name" row); [|by apply IH].
    destruct (slot_conditions row (seq 0 3)) as [cs|] eqn:Hcs; [|done].
    destruct (rule_rows_to_tool rows) as [tl|]; [|done].
    intros [= <-]. constructor; [|by apply IH].
    by apply slot_conditions_from_row in Hcs.
Qed.

Lemma rule_rows_conditions_witness :
  rule_rows_to_tool rule_rows_sample
    = Some [rule_of "R" "success" "Go" [cond_equals "q" (PStr "Yes")]]
  ∧ Forall (λ r, (length (rule_conditions r) ≤ 3)%nat
                 ∧ Forall cond_from_row (rule_conditions r))
      [rule_of "R" "success" "Go" [cond_equals "q" (PStr "Yes")]].
Proof.
  assert (H : rule_rows_to_tool rule_rows_sample
    = Some [rule_of "R" "success" "Go" [cond_equals "q" (PStr "Yes")]])
    by (vm_compute; reflexivity).
  split; [exact H|]. exact (rule_rows_conditions rule_rows_sample _ H).
Defined.

(** ** The round trip of comma-separated lists *)

Lemma csv_items_strings l :
  forallb csv_item l = true →
  ∃ strs, l = PStr <$> strs
    ∧ mapM as_str l = Some strs
    ∧ Forall (λ s, s ≠ "" ∧ strip s = s ∧ comma_free s = true) strs.
Proof.
  induction l as [|v l IH]; simpl.
  - intros _. by exists [].
  - intros [Hv Hl]%andb_prop. destruct (IH Hl) as (strs & -> & Hm & Hall).
    destruct v as [| | |s]; try done. simpl in Hv.
    apply andb_prop in Hv as [[Hne Hst]%andb_prop Hcf].
    exists (s :: strs). split; [done|]. split.
    + simpl. by rewrite Hm.
    + constructor; [|done]. split; [|split; [by apply stripped_strip|done]].
      intros ->. done.
Qed.

Lemma omap_strip_after_space strs :
  Forall (λ s, s ≠ "" ∧ strip s = s ∧ comma_free s = true) strs →
  omap (λ o, if String.eqb (strip o) "" then None else Some (PStr (strip o)))
       (String " " <$> strs) = PStr <$> strs.
Proof.
  induction 1 as [|s strs (Hne & Hst & _) _ IH]; [done|].
  cbn [fmap list_fmap omap list_omap]. rewrite strip_after_space, Hst.
  apply String.eqb_neq in Hne. rewrite Hne. simpl. by rewrite IH.
Qed.

Lemma normalize_options_join strs :
  Forall (λ s, s ≠ "" ∧ strip s = s ∧ comma_free s = true) strs →
  normalize_options (PStr (join ", " strs)) = PStr <$> strs.
Proof.
  intros Hall. destruct strs as [|x rest]; [done|].
  inversion Hall as [|? ? (Hne & Hst & Hcf) Hrest]; subst.
  unfold normalize_options. cbn [py_truthy py_str].
  pose proof (join_nonempty ", " x rest Hne) as Hj.
  apply String.eqb_neq in Hj. rewrite Hj. cbn [negb].
  rewrite split_comma_join.
  - cbn [omap list_omap]. rewrite Hst.
    apply String.eqb_neq in Hne. rewrite Hne.
    change (PStr <$> x :: rest) with (PStr x :: (PStr <$> rest)).
    f_equal. by apply omap_strip_after_space.
  - eapply Forall_impl; [exact Hall|]. by intros s (_ & _ & ?).
Qed.

Lemma csv_roundtrip l :
  forallb csv_item l = true →
  ∃ csv, py_join ", " l = Some csv ∧ normalize_options (PStr csv) = l.
Proof.
  intros (strs & -> & Hm & Hall)%csv_items_strings.
  exists (join ", " strs). split.
  - unfold py_join. by rewrite Hm.
  - by apply normalize_options_join.
Qed.

(** ** The round trip of inputs and scoring rules *)

Lemma stripped_id_inv f :
  stripped_id f = true →
  ∃ s, f = Some (PStr s) ∧ py_truthy (PStr s) = true ∧ strip s = s.
Proof.
  destruct f as [[| | |s]|]; try done. simpl.
  intros [Hne Hst]%andb_prop. exists s. by rewrite stripped_strip.
Qed.

Lemma input_row_roundtrip i :
  input_roundtrips i = true →
  ∃ row, input_row i = Some row
    ∧ ∀ rest, input_rows_to_tool (row :: rest)
              = (i ::.) <$> input_rows_to_tool rest.
Proof.
  destruct i as [id label type options]. unfold input_roundtrips. simpl.
  intros [[[Hid Hlabel]%andb_prop Htype]%andb_prop Hopts]%andb_prop.
  apply stripped_id_inv in Hid as (s & -> & Hs & Hst).
  destruct label as [[| | |l]|]; try done. simpl in Hlabel.
  apply stripped_strip in Hlabel.
  destruct type as [t|]; [|done].
  apply csv_roundtrip in Hopts as (csv & Hjoin & Hnorm).
  unfold input_row. simpl. rewrite Hjoin. simpl.
  eexists. split; [done|]. intros rest.
  change (row_get _ "id") with (PStr s). rewrite Hs. cbn [negb].
  change (row_get_or _ "label" _) with (PStr l).
  change (row_get_or _ "type" _) with t.
  change (row_get_or _ "options_csv" _) with (PStr csv).
  simpl. rewrite Hst, Hlabel, Hnorm.
  by destruct (input_rows_to_tool rest).
Qed.

Lemma scoring_row_roundtrip r :
  scoring_roundtrips r = true →
  ∃ row, scoring_row r = Some row
    ∧ ∀ rest, scoring_rows_to_tool (row :: rest)
              = (r ::.) <$> scoring_rows_to_tool rest.
Proof.
  destruct r as [id favor against invert]. unfold scoring_roundtrips. simpl.
  intros [[[Hid Hfavor]%andb_prop Hagainst]%andb_prop Hinv]%andb_prop.
  apply stripped_id_inv in Hid as (s & -> & Hs & Hst).
  destruct invert as [[|b| |]|]; try done.
  apply csv_roundtrip in Hfavor as (fcsv & Hfj & Hfn).
  apply csv_roundtrip in Hagainst as (acsv & Haj & Han).
  unfold scoring_row. simpl. rewrite Hfj, Haj. simpl.
  eexists. split; [done|]. intros rest.
  change (row_get _ "input_id") with (PStr s). rewrite Hs. cbn [negb].
  change (row_get_or _ "favor_values_csv" _) with (PStr fcsv).
  change (row_get_or _ "against_values_csv" _) with (PStr acsv).
  change (row_get_or _ "invert_favor" _) with (PBool b).
  simpl. rewrite Hst, Hfn, Han.
  by destruct (scoring_rows_to_tool rest).
Qed.

Lemma inputs_roundtrip inputs :
  forallb input_roundtrips inputs = true →
  ∃ rows, mapM input_row inputs = Some rows
    ∧ input_rows_to_tool rows = Some inputs.
Proof.
  induction inputs as [|i inputs IH]; simpl.
  - intros _. by exists [].
  - intros [Hi Hrest]%andb_prop.
    destruct (IH Hrest) as (rows & Hm & Hback).
    destruct (input_row_roundtrip i Hi) as (row & Hrow & Hcons).
    exists (row :: rows). rewrite Hrow, Hm. split; [done|].
    by rewrite Hcons, Hback.
Qed.

Lemma scoring_roundtrip rules :
  forallb scoring_roundtrips rules = true →
  ∃ rows, mapM scoring_row rules = Some rows
    ∧ scoring_rows_to_tool rows = Some rules.
Proof.
  induction rules as [|r rules IH]; simpl.
  - intros _. by exists [].
  - intros [Hr Hrest]%andb_prop.
    destruct (IH Hrest) as (rows & Hm & Hback).
    destruct (scoring_row_roundtrip r Hr) as (row & Hrow & Hcons).
    exists (row :: rows). rewrite Hrow, Hm. split; [done|].
    by rewrite Hcons, Hback.
Qed.

(** ** The round trip of recommendation rules *)

(** The cells of the row [tool_to_rule_rows] builds for a rule: the three
    outcome fields, and for each of the three slots the id and value of the
    condition at that index, or empty strings past the last condition. *)
Lemma rule_row_cells r :
  rule_row r !! "name" = Some (get_or (PStr "") (rule_name r))
  ∧ rule_row r !! "level" = Some (get_or (PStr "info") (rule_level r))
  ∧ rule_row r !! "message" = Some (get_or (PStr "") (rule_message r))
  ∧ ∀ idx, (idx < 3)%nat →
      rule_row r !! key_id idx =
        Some match rule_conditions r !! idx with
             | Some c => get_or (PStr "") (cond_input_id c)
             | None => PStr ""
             end
      ∧ rule_row r !! key_val idx =
          Some match rule_conditions r !! idx with
               | Some c => get_or (PStr "") (cond_value c)
               | None => PStr ""
               end.
Proof.
  destruct r as [name level message cs].
  destruct cs as [|c1 [|c2 [|c3 cs]]];
    (split; [reflexivity|]; split; [reflexivity|]; split; [reflexivity|];
     intros [|[|[|idx]]] Hidx; [split; reflexivity.. | lia]).
Qed.

Lemma cond_roundtrips_inv c :
  cond_roundtrips c = true →
  ∃ s v, c = {| cond_input_id := Some (PStr s);
                cond_op := Some (PStr "equals");
                cond_value := Some v |}
    ∧ strip s = s ∧ String.eqb s "" = false ∧ py_ne v (PStr "") = true.
Proof.
  destruct c as [id op value]. unfold cond_roundtrips. simpl.
  intros [[Hid Hop]%andb_prop Hv]%andb_prop.
  apply stripped_id_inv in Hid as (s & -> & Hs & Hst).
  apply bool_decide_eq_true in Hop as ->.
  destruct value as [v|]; [|done].
  exists s, v. repeat split; try done.
  simpl in Hs. by apply negb_true_iff in Hs.
Qed.

Lemma slot_conditions_seq (row : gmap string pyval) cs k n :
  (∀ idx, (k ≤ idx < k + n)%nat →
     row_get_or row (key_id idx) (PStr "") =
       match cs !! idx with
       | Some c => get_or (PStr "") (cond_input_id c)
       | None => PStr ""
       end
     ∧ row_get_or row (key_val idx) (PStr "") =
         match cs !! idx with
         | Some c => get_or (PStr "") (cond_value c)
         | None => PStr ""
         end) →
  forallb cond_roundtrips cs = true →
  slot_conditions row (seq k n) = Some (take n (drop k cs)).
Proof.
  intros Hcells Hcs. revert k Hcells.
  induction n as [|n IH]; intros k Hcells.
  - by rewrite take_0.
  - cbn [seq slot_conditions].
    destruct (Hcells k ltac:(lia)) as [-> ->].
    rewrite (IH (S k)) by (intros idx ?; apply Hcells; lia).
    destruct (cs !! k) as [c|] eqn:Hk.
    + assert (Hc : cond_roundtrips c = true).
      { rewrite forallb_forall in Hcs. apply Hcs, list_elem_of_In.
        by eapply list_elem_of_lookup_2. }
      apply cond_roundtrips_inv in Hc as (s & v & -> & Hst & Hne & Hv).
      simpl. rewrite Hst, Hne, Hv. simpl.
      by rewrite (drop_S cs _ k Hk).
    + simpl. apply lookup_ge_None in Hk.
      by rewrite !drop_ge, !take_nil by lia.
Qed.

Lemma rule_row_roundtrip r rest :
  rule_roundtrips r = true →
  rule_rows_to_tool (rule_row r :: rest) = (r ::.) <$> rule_rows_to_tool rest.
Proof.
  unfold rule_roundtrips.
  intros [[[[Hname Hlevel]%andb_prop Hmsg]%andb_prop
            Hlen%Nat.leb_le]%andb_prop Hcs]%andb_prop.
  destruct (rule_row_cells r) as (Hn & Hl & Hm & Hslots).
  rewrite rule_rows_to_tool_cons.
  unfold has_key, row_get, row_get_or. rewrite Hn, Hl, Hm.
  rewrite (slot_conditions_seq (rule_row r) (rule_conditions r) 0 3).
  - destruct r as [[name|] [level|] [message|] cs]; try done.
    simpl in *. rewrite Hname. rewrite drop_0, take_ge by done.
    simpl. by destruct (rule_rows_to_tool rest).
  - intros idx Hidx. unfold row_get_or.
    destruct (Hslots idx ltac:(lia)) as [-> ->]. done.
  - done.
Qed.

Lemma rules_roundtrip rules :
  forallb rule_roundtrips rules = true →
  rule_rows_to_tool (rule_row <$> rules) = Some rules.
Proof.
  induction rules as [|r rules IH]; [done|].
  cbn [forallb]. intros [Hr Hrest]%andb_prop.
  change (rule_row <$> r :: rules) with (rule_row r :: (rule_row <$> rules)).
  by rewrite rule_row_roundtrip, IH.
Qed.

(** ** The round trip model, rows, model *)

(** C3 (amended).  For a tool in which every schema field is present, each
    rule has a non-empty name and at most 3 conditions, every input id,
    scoring input id and condition input id is a non-empty string without
    leading or trailing whitespace, every label is a string without leading
    or trailing whitespace, every condition has op "equals" and a value
    other than the empty string, [invert_favor] is a boolean, and every
    option, favor value and against value is a non-empty string without
    comma and without leading or trailing whitespace, converting inputs,
    scoring rules and rules to rows and back reproduces each list as it
    was, in order; the condition at index [idx] of a rule sits in slot
    [idx + 1] of its row. *)
Theorem transcoder_roundtrip tool :
  tool_roundtrips tool = true →
  tool_to_input_rows tool ≫= input_rows_to_tool = Some (tool_inputs tool)
  ∧ tool_to_scoring_rows tool ≫= scoring_rows_to_tool
      = Some (tool_scoring_rules tool)
  ∧ rule_rows_to_tool (tool_to_rule_rows tool) = Some (tool_rules tool)
  ∧ (∀ r idx c, r ∈ tool_rules tool → rule_conditions r !! idx = Some c →
       rule_row r !! key_id idx = cond_input_id c
       ∧ rule_row r !! key_val idx = cond_value c).
Proof.
  unfold tool_roundtrips.
  intros [[Hin Hsc]%andb_prop Hru]%andb_prop.
  split; [|split; [|split]].
  - destruct (inputs_roundtrip _ Hin) as (rows & Hrows & Hback).
    unfold tool_to_input_rows. by rewrite Hrows.
  - destruct (scoring_roundtrip _ Hsc) as (rows & Hrows & Hback).
    unfold tool_to_scoring_rows. by rewrite Hrows.
  - by apply rules_roundtrip.
  - intros r idx c Hr Hc.
    rewrite forallb_forall in Hru.
    specialize (Hru r (proj1 (list_elem_of_In _ _) Hr)).
    unfold rule_roundtrips in Hru.
    apply andb_prop in Hru as [[_ Hlen%Nat.leb_le]%andb_prop Hcs].
    assert (Hidx : (idx < 3)%nat).
    { apply lookup_lt_Some in Hc. lia. }
    destruct (rule_row_cells r) as (_ & _ & _ & Hslots).
    destruct (Hslots idx Hidx) as [-> ->]. rewrite Hc.
    rewrite forallb_forall in Hcs.
    assert (Hcr : cond_roundtrips c = true).
    { apply Hcs, list_elem_of_In. by eapply list_elem_of_lookup_2. }
    by apply cond_roundtrips_inv in Hcr as (s & v & -> & _).
Qed.

Lemma transcoder_roundtrip_witness :
  tool_roundtrips tool_full = true
  ∧ tool_to_input_rows tool_full ≫= input_rows_to_tool
      = Some (tool_inputs tool_full)
  ∧ tool_to_scoring_rows tool_full ≫= scoring_rows_to_tool
      = Some (tool_scoring_rules tool_full)
  ∧ rule_rows_to_tool (tool_to_rule_rows tool_full)
      = Some (tool_rules tool_full).
Proof.
  assert (H : tool_roundtrips tool_full = true) by (vm_compute; reflexivity).
  split; [exact H|].
  pose proof (transcoder_roundtrip tool_full H) as (H1 & H2 & H3 & _).
  by repeat split.
Defined.

(** C3, as stated, fails: the tool below has at most 3 conditions per rule,
    non-empty key fields and condition fields and no comma anywhere, yet its
    input id " a" comes back as "a", because identifiers are stripped on the
    way back. *)
Lemma roundtrip_padded_id_counterexample :
  tool_csv_safe tool_padded = true
  ∧ tool_to_input_rows tool_padded ≫= input_rows_to_tool
      = Some [ {| in_id := Some (PStr "a");
                  in_label := Some (PStr "A");
                  in_type := Some (PStr "select");
                  in_options := [PStr "Yes"; PStr "No"] |} ]
  ∧ tool_to_input_rows tool_padded ≫= input_rows_to_tool
      ≠ Some (tool_inputs tool_padded).
Proof. repeat split; vm_compute; congruence. Qed.

(** * Further properties of the engine *)

Lemma forallb_agree {A} (f g : A → bool) (l : list A) :
  (∀ x, x ∈ l → f x = g x) → forallb f l = forallb g l.
Proof.
  induction l as [|x l IH]; [done|]. intros H. simpl.
  rewrite (H x) by apply list_elem_of_here.
  rewrite IH; [done|]. intros y Hy. apply H. by apply list_elem_of_further.
Qed.

Lemma forallb_Permutation {A} (f : A → bool) (l l' : list A) :
  l ≡ₚ l' → forallb f l = forallb f l'.
Proof.
  induction 1 as [|x l l' _ IH|x y l|l l' l'' _ IH1 _ IH2]; simpl.
  - done.
  - by rewrite IH.
  - by destruct (f x), (f y).
  - by rewrite IH1.
Qed.

Section scan_more.
  Context (values : gmap string pyval).

Lemma first_match_app rules1 rules2 :
  first_match values (rules1 ++ rules2) =
    match first_match values rules1 with
    | Some r => Some r
    | None => first_match values rules2
    end.
Proof.
  induction rules1 as [|r rules1 IH]; [done|].
  rewrite <- app_comm_cons, !first_match_cons.
  by destruct (rule_matches values r).
Qed.

Lemma first_match_existsb rules :
  existsb (rule_matches values) rules
    = bool_decide (is_Some (first_match values rules)).
Proof.
  induction rules as [|r rules IH]; [done|].
  cbn [existsb]. rewrite first_match_cons.
  by destruct (rule_matches values r).
Qed.

Lemma rule_matches_keys r :
  rule_matches values r =
    match rule_conditions r with
    | [] => false
    | _ => forallb (λ k, py_eq (values_get values k.1) k.2)
             (cond_key <$> rule_conditions r)
    end.
Proof.
  unfold rule_matches. destruct (rule_conditions r) as [|c cs]; [done|].
  generalize (c :: cs). intros l.
  induction l as [|c' l IH]; [done|].
  cbn [forallb fmap list_fmap]. by rewrite IH.
Qed.

Lemma same_reading_matches r r' :
  same_reading r r' → rule_matches values r = rule_matches values r'.
Proof.
  intros (_ & _ & Hperm). rewrite !rule_matches_keys.
  pose proof (Permutation_length Hperm) as Hlen.
  rewrite !length_fmap in Hlen.
  destruct (rule_conditions r) as [|c cs], (rule_conditions r') as [|c' cs'];
    try done.
  by apply forallb_Permutation.
Qed.

Lemma same_reading_first_match rules rules' :
  Forall2 same_reading rules rules' →
  rule_outcome <$> first_match values rules
    = rule_outcome <$> first_match values rules'.
Proof.
  induction 1 as [|r r' rules rules' Hr _ IH]; [done|].
  rewrite !first_match_cons, <- (same_reading_matches r r' Hr).
  destruct (rule_matches values r); [|done].
  destruct Hr as (Hl & Hm & _). simpl. unfold rule_outcome.
  by rewrite Hl, Hm.
Qed.

End scan_more.

Lemma evaluate_rules_outcome tool values :
  evaluate_rules tool values =
    default (fallback_outcome tool)
      (rule_outcome <$> first_match values (tool_rules tool)).
Proof.
  unfold evaluate_rules, fallback_outcome, rule_outcome.
  destruct (first_match values (tool_rules tool)); [done|].
  by destruct (tool_fallback tool).
Qed.

Lemma first_match_frame values values' rules :
  (∀ r c, r ∈ rules → c ∈ rule_conditions r →
     values_get values (get (cond_input_id c))
       = values_get values' (get (cond_input_id c))) →
  first_match values rules = first_match values' rules.
Proof.
  induction rules as [|r rules IH]; [done|]. intros Hagree.
  rewrite !first_match_cons.
  assert (Hr : rule_matches values r = rule_matches values' r).
  { unfold rule_matches. destruct (rule_conditions r) as [|c cs] eqn:E; [done|].
    apply forallb_agree. intros c' Hc'. unfold cond_holds.
    rewrite (Hagree r c'); [done|apply list_elem_of_here|by rewrite E]. }
  rewrite Hr, IH; [done|].
  intros r' c Hr' Hc.
  apply (Hagree r' c); [by apply list_elem_of_further|done].
Qed.

(** X1.  Scanning a concatenated rule list: when some rule of the first part
    matches, the result is that of the first part alone, whatever the second
    part holds; otherwise it is the result of the second part alone. *)
Theorem evaluate_rules_app tool values rules1 rules2 :
  evaluate_rules (with_rules tool (rules1 ++ rules2)) values =
    if existsb (rule_matches values) rules1
    then evaluate_rules (with_rules tool rules1) values
    else evaluate_rules (with_rules tool rules2) values.
Proof.
  rewrite !evaluate_rules_outcome. simpl.
  rewrite first_match_app, first_match_existsb.
  by destruct (first_match values rules1) as [r|].
Qed.

(** X2.  [evaluate_rules] reads [values] only at the input ids its
    conditions name: two mappings that give the same [values.get(input_id)]
    for every condition of every rule give the same result. *)
Theorem evaluate_rules_frame tool values values' :
  (∀ r c, r ∈ tool_rules tool → c ∈ rule_conditions r →
     values_get values (get (cond_input_id c))
       = values_get values' (get (cond_input_id c))) →
  evaluate_rules tool values = evaluate_rules tool values'.
Proof.
  intros Hagree. rewrite !evaluate_rules_outcome.
  by rewrite (first_match_frame values values' _ Hagree).
Qed.

Lemma evaluate_rules_frame_witness :
  evaluate_rules tool_three_rules values_q_yes
    = evaluate_rules tool_three_rules (<["other" := PNum 7]> values_q_yes).
Proof.
  apply (evaluate_rules_frame tool_three_rules values_q_yes
           (<["other" := PNum 7]> values_q_yes)).
  assert (H : Forall (λ r, Forall (λ c,
                values_get values_q_yes (get (cond_input_id c))
                = values_get (<["other" := PNum 7]> values_q_yes)
                    (get (cond_input_id c))) (rule_conditions r))
              (tool_rules tool_three_rules)).
  { unfold tool_three_rules, tool_of_rules, rule_empty, rule_q_yes,
      rule_q_yes_n_1, rule_of. simpl.
    repeat (constructor; try (vm_compute; reflexivity)). }
  intros r c Hr Hc.
  eapply Forall_forall in H; [|exact Hr].
  eapply Forall_forall in H; [|exact Hc]. exact H.
Defined.

(** X3.  [evaluate_rules] reads of a rule only its level, its message and
    the (input id, value) pairs of its conditions, as a conjunction: the
    rule's name, the conditions' [op] and the order of the conditions have
    no effect on the result. *)
Theorem evaluate_rules_reading tool values rules' :
  Forall2 same_reading (tool_rules tool) rules' →
  evaluate_rules (with_rules tool rules') values = evaluate_rules tool values.
Proof.
  intros H. rewrite !evaluate_rules_outcome. simpl.
  by rewrite (same_reading_first_match values _ _ H).
Qed.

Lemma evaluate_rules_reading_witness :
  evaluate_rules (with_rules tool_three_rules
                    [rule_empty; rule_q_yes; rule_n_1_q_yes]) values_q_yes_n_1
    = evaluate_rules tool_three_rules values_q_yes_n_1.
Proof.
  apply (evaluate_rules_reading tool_three_rules values_q_yes_n_1).
  simpl. repeat constructor.
Defined.

(** ** Further properties of scoring *)

Lemma filter_length_Permutation {A} (f : A → bool) (l l' : list A) :
  l ≡ₚ l' → length (List.filter f l) = length (List.filter f l').
Proof.
  induction 1 as [|x l l' _ IH|x y l|l l' l'' _ IH1 _ IH2]; simpl.
  - done.
  - destruct (f x); simpl; by rewrite IH.
  - by destruct (f x), (f y).
  - by rewrite IH1.
Qed.

Section score_more.
  Context (values : gmap string pyval).

Lemma score_step_counts plus minus rule :
  score_step values (plus, minus) rule =
    (plus + (if counts_favor values rule then 1 else 0),
     minus + (if counts_against values rule then 1 else 0)).
Proof.
  unfold counts_favor, counts_against.
  destruct (py_truthy (get (sr_input_id rule))) eqn:Hid.
  - rewrite score_step_polarity by done. simpl.
    destruct (rule_polarity_range values rule) as [-> | [-> | ->]];
      simpl; f_equal; lia.
  - rewrite score_step_skip by done. simpl. f_equal; lia.
Qed.

Lemma score_loop_counts rules plus minus :
  fold_left (score_step values) rules (plus, minus) =
    (plus + Z.of_nat (length (List.filter (counts_favor values) rules)),
     minus + Z.of_nat (length (List.filter (counts_against values) rules))).
Proof.
  revert plus minus. induction rules as [|rule rules IH]; intros plus minus.
  - simpl. f_equal; lia.
  - cbn [fold_left List.filter]. rewrite score_step_counts, IH.
    destruct (counts_favor values rule), (counts_against values rule);
      simpl; f_equal; lia.
Qed.

Lemma rule_polarity_flip rule :
  rule_polarity values (flip_invert rule) = - rule_polarity values rule.
Proof.
  unfold rule_polarity, flip_invert, polarity. simpl.
  destruct (py_truthy (get_or (PBool false) (sr_invert_favor rule)));
    simpl; lia.
Qed.

Lemma counts_favor_flip rule :
  counts_favor values (flip_invert rule) = counts_against values rule.
Proof.
  unfold counts_favor, counts_against. rewrite rule_polarity_flip. simpl.
  destruct (rule_polarity_range values rule) as [-> | [-> | ->]]; done.
Qed.

Lemma counts_against_flip rule :
  counts_against values (flip_invert rule) = counts_favor values rule.
Proof.
  unfold counts_favor, counts_against. rewrite rule_polarity_flip. simpl.
  destruct (rule_polarity_range values rule) as [-> | [-> | ->]]; done.
Qed.

Lemma filter_flip (f g : ScoringRule → bool) rules :
  (∀ rule, f (flip_invert rule) = g rule) →
  length (List.filter f (flip_invert <$> rules))
    = length (List.filter g rules).
Proof.
  intros H. induction rules as [|rule rules IH]; [done|].
  cbn [fmap list_fmap List.filter]. rewrite H.
  destruct (g rule); simpl; by rewrite IH.
Qed.

End score_more.

Lemma compute_scores_count tool values :
  compute_scores tool values =
    (Z.of_nat (length (List.filter (counts_favor values)
                         (tool_scoring_rules tool))),
     Z.of_nat (length (List.filter (counts_against values)
                         (tool_scoring_rules tool)))).
Proof. unfold compute_scores. by rewrite score_loop_counts. Qed.

(** X4.  The counters are exact counts: [favor_count] is the number of
    scoring rules with a non-empty input id whose polarity under [values]
    is +1, and [against_count] the number of those whose polarity is -1. *)
Theorem compute_scores_counts tool values :
  compute_scores tool values =
    (Z.of_nat (length (List.filter (counts_favor values)
                         (tool_scoring_rules tool))),
     Z.of_nat (length (List.filter (counts_against values)
                         (tool_scoring_rules tool)))).
Proof. apply compute_scores_count. Qed.

(** X5.  Scores add up over a concatenation of scoring rules, and do not
    depend on the order of the scoring rules. *)
Theorem compute_scores_additive tool values :
  (∀ rules1 rules2,
     compute_scores (with_scoring_rules tool (rules1 ++ rules2)) values =
       pair_add (compute_scores (with_scoring_rules tool rules1) values)
                (compute_scores (with_scoring_rules tool rules2) values))
  ∧ (∀ rules', tool_scoring_rules tool ≡ₚ rules' →
       compute_scores (with_scoring_rules tool rules') values
         = compute_scores tool values).
Proof.
  split.
  - intros rules1 rules2. rewrite !compute_scores_count. simpl.
    rewrite !List.filter_app, !length_app. unfold pair_add. simpl.
    f_equal; lia.
  - intros rules' Hperm. rewrite !compute_scores_count. simpl.
    by rewrite !(filter_length_Permutation _ _ _ Hperm).
Qed.

Lemma compute_scores_additive_witness :
  compute_scores (with_scoring_rules
      (tool_of_scoring [scoring_q false; scoring_q true; scoring_ghost])
      [scoring_ghost; scoring_q true; scoring_q false]) values_q_yes
    = compute_scores
        (tool_of_scoring [scoring_q false; scoring_q true; scoring_ghost])
        values_q_yes.
Proof.
  apply (proj2 (compute_scores_additive
    (tool_of_scoring [scoring_q false; scoring_q true; scoring_ghost])
    values_q_yes)).
  simpl. etrans; [apply perm_swap|]. etrans; [apply perm_skip, perm_swap|].
  apply perm_swap.
Defined.

(** X6.  Negating [invert_favor] in every scoring rule exchanges the two
    counters. *)
Theorem compute_scores_flip tool values :
  compute_scores
      (with_scoring_rules tool (flip_invert <$> tool_scoring_rules tool))
      values
    = pair_swap (compute_scores tool values).
Proof.
  rewrite !compute_scores_count. simpl. unfold pair_swap. simpl.
  rewrite (filter_flip _ _ _ (counts_favor_flip values)).
  by rewrite (filter_flip _ _ _ (counts_against_flip values)).
Qed.

(** X7.  [compute_scores] reads [values] only at the input ids of the
    scoring rules: two mappings that give the same [values.get(input_id)]
    for every scoring rule give the same counters. *)
Theorem compute_scores_frame tool values values' :
  (∀ rule, rule ∈ tool_scoring_rules tool →
     values_get values (get (sr_input_id rule))
       = values_get values' (get (sr_input_id rule))) →
  compute_scores tool values = compute_scores tool values'.
Proof.
  unfold compute_scores. generalize (0, 0).
  induction (tool_scoring_rules tool) as [|rule rules IH]; intros acc Hagree;
    [done|].
  cbn [fold_left].
  assert (Hstep : score_step values acc rule = score_step values' acc rule).
  { unfold score_step.
    by rewrite (Hagree rule) by apply list_elem_of_here. }
  rewrite Hstep. apply IH.
  intros rule' Hin. apply Hagree. by apply list_elem_of_further.
Qed.

Lemma compute_scores_frame_witness :
  compute_scores (tool_of_scoring [scoring_q false; scoring_ghost])
      values_q_yes
    = compute_scores (tool_of_scoring [scoring_q false; scoring_ghost])
        (<["other" := PStr "Yes"]> values_q_yes).
Proof.
  apply (compute_scores_frame
           (tool_of_scoring [scoring_q false; scoring_ghost]) values_q_yes
           (<["other" := PStr "Yes"]> values_q_yes)).
  assert (H : Forall (λ rule,
                values_get values_q_yes (get (sr_input_id rule))
                = values_get (<["other" := PStr "Yes"]> values_q_yes)
                    (get (sr_input_id rule)))
              (tool_scoring_rules
                 (tool_of_scoring [scoring_q false; scoring_ghost]))).
  { simpl. repeat (constructor; try (vm_compute; reflexivity)). }
  intros rule Hin. eapply Forall_forall in H; [|exact Hin]. exact H.
Defined.

(** * Further properties of the transcoder *)

(** ** Comma-separated lists *)

Lemma lstrip_comma_free s : comma_free s = true → comma_free (lstrip s) = true.
Proof.
  induction s as [|c s IH]; [done|]. intros H.
  pose proof H as [_ Hs]%andb_prop. simpl.
  destruct (is_space c); [by apply IH|done].
Qed.

Lemma rstrip_comma_free s : comma_free s = true → comma_free (rstrip s) = true.
Proof.
  induction s as [|c s IH]; [done|]. intros [Hc Hs]%andb_prop. simpl.
  specialize (IH Hs). destruct (rstrip s) as [|d r].
  - destruct (is_space c); [done|]. simpl. by rewrite Hc.
  - change (comma_free (String c (String d r)))
      with (negb (Ascii.eqb c ",") && comma_free (String d r)).
    by rewrite Hc, IH.
Qed.

Lemma strip_comma_free s : comma_free s = true → comma_free (strip s) = true.
Proof. intros H. by apply rstrip_comma_free, lstrip_comma_free. Qed.

Lemma split_comma_tokens s : Forall (λ t, comma_free t = true) (split_comma s).
Proof.
  induction s as [|c s IH]; simpl.
  - by repeat constructor.
  - destruct (Ascii.eqb c ",") eqn:Hc.
    + by constructor.
    + destruct (split_comma s) as [|t ts].
      * repeat constructor. simpl. by rewrite Hc.
      * inversion IH as [|? ? Ht Hts]; subst.
        constructor; [|done]. simpl. by rewrite Hc, Ht.
Qed.

Lemma omap_strip_items tokens :
  Forall (λ t, comma_free t = true) tokens →
  forallb csv_item
    (omap (λ o, if String.eqb (strip o) "" then None
                else Some (PStr (strip o))) tokens) = true.
Proof.
  induction 1 as [|t tokens Ht _ IH]; [done|].
  cbn [omap list_omap]. destruct (String.eqb (strip t) "") eqn:E; [done|].
  cbn [forallb csv_item]. rewrite IH. unfold nonempty.
  by rewrite E, strip_stripped, strip_comma_free.
Qed.

(** X8.  Whatever cell it is given, [normalize_options] returns only
    non-empty strings that contain no comma and carry no leading or trailing
    whitespace. *)
Theorem normalize_options_items (options_csv : pyval) :
  Forall (λ v, ∃ s, v = PStr s ∧ s ≠ "" ∧ comma_free s = true
                    ∧ starts_with_space s = false
                    ∧ ends_with_space s = false)
    (normalize_options options_csv).
Proof.
  assert (H : forallb csv_item (normalize_options options_csv) = true).
  { unfold normalize_options.
    destruct (py_truthy options_csv); [|done].
    apply omap_strip_items, split_comma_tokens. }
  rewrite forallb_forall in H. apply Forall_forall. intros v Hv.
  specialize (H v (proj1 (list_elem_of_In _ _) Hv)).
  destruct v as [| | |s]; try done. simpl in H.
  apply andb_prop in H as [[Hne Hst]%andb_prop Hcf].
  unfold stripped in Hst. apply andb_prop in Hst as [H1 H2].
  apply negb_true_iff in H1. apply negb_true_iff in H2.
  exists s. repeat split; try done. intros ->. done.
Qed.

Lemma normalize_options_csv_items v :
  forallb csv_item (normalize_options v) = true.
Proof.
  unfold normalize_options. destruct (py_truthy v); [|done].
  apply omap_strip_items, split_comma_tokens.
Qed.

(** X9.  A list read by [normalize_options] is a fixed point of the
    encoding: joining it with ", " succeeds and reading the joined text
    gives the same list again. *)
Theorem normalize_options_stable (options_csv : pyval) :
  ∃ csv, py_join ", " (normalize_options options_csv) = Some csv
         ∧ normalize_options (PStr csv) = normalize_options options_csv.
Proof. apply csv_roundtrip, normalize_options_csv_items. Qed.

(** ** Rows to model over a concatenation *)

Lemma input_rows_app rows1 rows2 :
  input_rows_to_tool (rows1 ++ rows2) =
    inputs1 ← input_rows_to_tool rows1;
    inputs2 ← input_rows_to_tool rows2;
    Some (inputs1 ++ inputs2).
Proof.
  induction rows1 as [|row rows1 IH].
  - simpl. by destruct (input_rows_to_tool rows2).
  - rewrite <- app_comm_cons, !input_rows_to_tool_cons.
    destruct (has_key "id" row); [|done]. rewrite IH.
    destruct (py_strip (row_get row "id")); [|done].
    destruct (py_strip (row_get_or row "label" (PStr ""))); [|done].
    destruct (input_rows_to_tool rows1); [|done].
    simpl. by destruct (input_rows_to_tool rows2).
Qed.

Lemma scoring_rows_app rows1 rows2 :
  scoring_rows_to_tool (rows1 ++ rows2) =
    rules1 ← scoring_rows_to_tool rows1;
    rules2 ← scoring_rows_to_tool rows2;
    Some (rules1 ++ rules2).
Proof.
  induction rows1 as [|row rows1 IH].
  - simpl. by destruct (scoring_rows_to_tool rows2).
  - rewrite <- app_comm_cons, !scoring_rows_to_tool_cons.
    destruct (has_key "input_id" row); [|done]. rewrite IH.
    destruct (py_strip (row_get row "input_id")); [|done].
    destruct (scoring_rows_to_tool rows1); [|done].
    simpl. by destruct (scoring_rows_to_tool rows2).
Qed.

Lemma rule_rows_app rows1 rows2 :
  rule_rows_to_tool (rows1 ++ rows2) =
    rules1 ← rule_rows_to_tool rows1;
    rules2 ← rule_rows_to_tool rows2;
    Some (rules1 ++ rules2).
Proof.
  induction rows1 as [|row rows1 IH].
  - simpl. by destruct (rule_rows_to_tool rows2).
  - rewrite <- app_comm_cons, !rule_rows_to_tool_cons.
    destruct (has_key "name" row); [|done]. rewrite IH.
    destruct (slot_conditions row (seq 0 3)); [|done].
    destruct (rule_rows_to_tool rows1); [|done].
    simpl. by destruct (rule_rows_to_tool rows2).
Qed.

(** X10.  The rows-to-model converters work row by row and keep the order
    of the rows: the result on a concatenation is the concatenation of the
    results, and it raises exactly when one of the parts does. *)
Theorem rows_to_tool_app (rows1 rows2 : list (gmap string pyval)) :
  input_rows_to_tool (rows1 ++ rows2) =
    (inputs1 ← input_rows_to_tool rows1;
     inputs2 ← input_rows_to_tool rows2;
     Some (inputs1 ++ inputs2))
  ∧ scoring_rows_to_tool (rows1 ++ rows2) =
      (rules1 ← scoring_rows_to_tool rows1;
       rules2 ← scoring_rows_to_tool rows2;
       Some (rules1 ++ rules2))
  ∧ rule_rows_to_tool (rows1 ++ rows2) =
      (rules1 ← rule_rows_to_tool rows1;
       rules2 ← rule_rows_to_tool rows2;
       Some (rules1 ++ rules2)).
Proof.
  split; [apply input_rows_app|].
  split; [apply scoring_rows_app|apply rule_rows_app].
Qed.

(** ** When the rows-to-model converters raise *)

Lemma strip_key_text key (row : gmap string pyval) :
  has_key key row = true → is_Some (py_strip (row_get row key)) →
  text_cell key row = true.
Proof.
  unfold has_key, text_cell, row_get.
  destruct (row !! key) as [[| | |s]|]; simpl; try done; by intros _ [? ?].
Qed.

Lemma strip_cell_text key (row : gmap string pyval) dflt :
  is_Some (py_strip (row_get_or row key (PStr dflt))) →
  text_cell key row = true.
Proof.
  unfold text_cell, row_get_or.
  destruct (row !! key) as [[| | |s]|]; simpl; try done; by intros [? ?].
Qed.

Lemma slot_conditions_texts (row : gmap string pyval) idxs :
  is_Some (slot_conditions row idxs) →
  forallb (λ idx, text_cell (key_id idx) row) idxs = true.
Proof.
  induction idxs as [|idx idxs IH]; [done|].
  cbn [slot_conditions forallb].
  destruct (py_strip (row_get_or row (key_id idx) (PStr ""))) as [s|] eqn:E;
    [|by intros [? ?]].
  rewrite (strip_cell_text (key_id idx) row "") by (rewrite E; by eexists).
  simpl. destruct (slot_conditions row idxs); [|by intros [? ?]].
  intros _. apply IH. by eexists.
Qed.

Lemma input_rows_texts rows :
  is_Some (input_rows_to_tool rows) →
  Forall (λ row, has_key "id" row = false ∨ input_row_texts row = true) rows.
Proof.
  induction rows as [|row rows IH]; [constructor|].
  rewrite input_rows_to_tool_cons.
  destruct (has_key "id" row) eqn:Hk.
  - destruct (py_strip (row_get row "id")) as [id|] eqn:Hid;
      [|by intros [? ?]].
    destruct (py_strip (row_get_or row "label" (PStr ""))) as [l|] eqn:Hl;
      [|by intros [? ?]].
    destruct (input_rows_to_tool rows); [|by intros [? ?]].
    intros _. constructor; [|apply IH; by eexists].
    right. unfold input_row_texts.
    rewrite (strip_key_text "id" row Hk) by (rewrite Hid; by eexists).
    by rewrite (strip_cell_text "label" row "") by (rewrite Hl; by eexists).
  - intros H. constructor; [by left|by apply IH].
Qed.

Lemma scoring_rows_texts rows :
  is_Some (scoring_rows_to_tool rows) →
  Forall (λ row, has_key "input_id" row = false
                 ∨ scoring_row_texts row = true) rows.
Proof.
  induction rows as [|row rows IH]; [constructor|].
  rewrite scoring_rows_to_tool_cons.
  destruct (has_key "input_id" row) eqn:Hk.
  - destruct (py_strip (row_get row "input_id")) as [id|] eqn:Hid;
      [|by intros [? ?]].
    destruct (scoring_rows_to_tool rows); [|by intros [? ?]].
    intros _. constructor; [|apply IH; by eexists].
    right. unfold scoring_row_texts.
    by rewrite (strip_key_text "input_id" row Hk) by (rewrite Hid; by eexists).
  - intros H. constructor; [by left|by apply IH].
Qed.

Lemma rule_rows_texts rows :
  is_Some (rule_rows_to_tool rows) →
  Forall (λ row, has_key "name" row = false ∨ rule_row_texts row = true) rows.
Proof.
  induction rows as [|row rows IH]; [constructor|].
  rewrite rule_rows_to_tool_cons.
  destruct (has_key "name" row) eqn:Hk.
  - destruct (slot_conditions row (seq 0 3)) as [cs|] eqn:Hcs;
      [|by intros [? ?]].
    destruct (rule_rows_to_tool rows); [|by intros [? ?]].
    intros _. constructor; [|apply IH; by eexists].
    right. apply slot_conditions_texts. rewrite Hcs. by eexists.
  - intros H. constructor; [by left|by apply IH].
Qed.

(** X11.  The rows-to-model converters raise exactly on a cell they cannot
    strip: [input_rows_to_tool] returns iff every row with a truthy "id"
    has a string "id" and an absent or string "label";
    [scoring_rows_to_tool] iff every row with a truthy "input_id" has a
    string "input_id"; [rule_rows_to_tool] iff every row with a truthy
    "name" has absent or string cells in its three "input_id_N" slots.  A
    [None] in such a cell makes the converter raise. *)
Theorem rows_to_tool_returns_iff (rows : list (gmap string pyval)) :
  (is_Some (input_rows_to_tool rows) ↔
     Forall (λ row, has_key "id" row = false
                    ∨ input_row_texts row = true) rows)
  ∧ (is_Some (scoring_rows_to_tool rows) ↔
       Forall (λ row, has_key "input_id" row = false
                      ∨ scoring_row_texts row = true) rows)
  ∧ (is_Some (rule_rows_to_tool rows) ↔
       Forall (λ row, has_key "name" row = false
                      ∨ rule_row_texts row = true) rows).
Proof.
  split; [|split]; split.
  - apply input_rows_texts.
  - apply input_rows_total.
  - apply scoring_rows_texts.
  - apply scoring_rows_total.
  - apply rule_rows_texts.
  - apply rule_rows_total.
Qed.

Lemma rows_to_tool_returns_iff_witness :
  input_rows_to_tool [ {[ "id" := PStr "q"; "label" := PNone ]} ] = None
  ∧ rule_rows_to_tool
      [ {[ "name" := PStr "R"; "input_id_1" := PStr "q";
           "value_1" := PStr "Yes"; "input_id_2" := PNone ]} ] = None
  ∧ is_Some (input_rows_to_tool input_rows_sample).
Proof.
  split; [reflexivity|]. split; [reflexivity|].
  apply (proj2 (proj1 (rows_to_tool_returns_iff input_rows_sample))).
  rows_are_text.
Defined.

(** ** Identifiers made of whitespace *)

(** X12.  A row whose "id" is a non-empty string of whitespace is not
    dropped by [input_rows_to_tool]: it yields an input whose id is the
    empty string.  Converting that input to a row and back drops it. *)
Theorem input_rows_blank_id (row : gmap string pyval) s label :
  row !! "id" = Some (PStr s) → s ≠ "" → strip s = "" →
  py_strip (row_get_or row "label" (PStr "")) = Some label →
  ∃ i, input_rows_to_tool [row] = Some [i]
       ∧ in_id i = Some (PStr "")
       ∧ mapM input_row [i] ≫= input_rows_to_tool = Some [].
Proof.
  intros Hid Hne Hblank Hlabel.
  eexists. split; [|split].
  - rewrite input_rows_to_tool_cons. unfold has_key, row_get.
    rewrite Hid. simpl. apply String.eqb_neq in Hne. rewrite Hne. simpl.
    rewrite Hblank, Hlabel. simpl. reflexivity.
  - reflexivity.
  - destruct (csv_roundtrip _ (normalize_options_csv_items
                (row_get_or row "options_csv" (PStr "")))) as (csv & Hj & _).
    simpl. unfold input_row. simpl. rewrite Hj. simpl. reflexivity.
Qed.

Lemma input_rows_blank_id_witness :
  ∃ i, input_rows_to_tool [input_row_blank_id] = Some [i]
       ∧ in_id i = Some (PStr "")
       ∧ mapM input_row [i] ≫= input_rows_to_tool = Some [].
Proof.
  apply (input_rows_blank_id input_row_blank_id "  " "Blank");
    [reflexivity|discriminate|reflexivity|reflexivity].
Defined.

(** ** Models read from rows are fixed points of the round trip *)

Lemma py_strip_inv v id :
  py_strip v = Some id → ∃ s, v = PStr s ∧ id = strip s.
Proof. destruct v as [| | |s]; try done. intros [= <-]. by exists s. Qed.

Lemma stripped_id_strip s :
  strip s ≠ "" → stripped_id (Some (PStr (strip s))) = true.
Proof.
  intros Hne. simpl. rewrite strip_stripped. unfold nonempty.
  apply String.eqb_neq in Hne. by rewrite Hne.
Qed.

Lemma input_rows_normal rows inputs :
  input_rows_to_tool rows = Some inputs →
  Forall (λ i, in_id i = Some (PStr "") ∨ input_roundtrips i = true) inputs.
Proof.
  revert inputs. induction rows as [|row rows IH]; intros inputs.
  - intros [= <-]. constructor.
  - rewrite input_rows_to_tool_cons.
    destruct (has_key "id" row); [|by apply IH].
    destruct (py_strip (row_get row "id")) as [id|] eqn:Hid; [|done].
    destruct (py_strip (row_get_or row "label" (PStr ""))) as [l|] eqn:Hl;
      [|done].
    destruct (input_rows_to_tool rows) as [tl|]; [|done].
    intros [= <-]. constructor; [|by apply IH].
    apply py_strip_inv in Hid as (s & _ & ->).
    apply py_strip_inv in Hl as (t & _ & ->).
    destruct (decide (strip s = "")) as [->|Hne]; [by left|right].
    unfold input_roundtrips. cbn [in_id in_label in_type in_options].
    rewrite stripped_id_strip, normalize_options_csv_items by done.
    simpl. by rewrite strip_stripped.
Qed.

Lemma scoring_rows_normal rows rules :
  scoring_rows_to_tool rows = Some rules →
  Forall (λ r, sr_input_id r = Some (PStr "")
               ∨ scoring_roundtrips r = true) rules.
Proof.
  revert rules. induction rows as [|row rows IH]; intros rules.
  - intros [= <-]. constructor.
  - rewrite scoring_rows_to_tool_cons.
    destruct (has_key "input_id" row); [|by apply IH].
    destruct (py_strip (row_get row "input_id")) as [id|] eqn:Hid; [|done].
    destruct (scoring_rows_to_tool rows) as [tl|]; [|done].
    intros [= <-]. constructor; [|by apply IH].
    apply py_strip_inv in Hid as (s & _ & ->).
    destruct (decide (strip s = "")) as [->|Hne]; [by left|right].
    unfold scoring_roundtrips.
    cbn [sr_input_id sr_favor_values sr_against_values sr_invert_favor].
    by rewrite stripped_id_strip, !normalize_options_csv_items by done.
Qed.

Lemma normal_roundtrips {A} (id : A → option pyval) (ok : A → bool) l :
  Forall (λ x, id x = Some (PStr "") ∨ ok x = true) l →
  Forall (λ x, id x ≠ Some (PStr "")) l →
  forallb ok l = true.
Proof.
  induction 1 as [|x l Hx _ IH]; [done|].
  intros Hne. inversion Hne as [|? ? Hx' Hl]; subst.
  simpl. destruct Hx as [Hx | Hx]; [done|]. rewrite Hx. by apply IH.
Qed.

(** X13.  Inputs and scoring rules read from rows survive the round trip
    unchanged, provided none of them has the empty id: encoding the result
    of [input_rows_to_tool] (of [scoring_rows_to_tool]) as rows and reading
    the rows back gives the same list. *)
Theorem rows_to_tool_fixed_point (rows : list (gmap string pyval)) :
  (∀ inputs, input_rows_to_tool rows = Some inputs →
     Forall (λ i, in_id i ≠ Some (PStr "")) inputs →
     mapM input_row inputs ≫= input_rows_to_tool = Some inputs)
  ∧ (∀ rules, scoring_rows_to_tool rows = Some rules →
       Forall (λ r, sr_input_id r ≠ Some (PStr "")) rules →
       mapM scoring_row rules ≫= scoring_rows_to_tool = Some rules).
Proof.
  split.
  - intros inputs Hconv Hne.
    pose proof (normal_roundtrips _ _ _ (input_rows_normal _ _ Hconv) Hne) as H.
    destruct (inputs_roundtrip inputs H) as (rows' & -> & Hback). done.
  - intros rules Hconv Hne.
    pose proof (normal_roundtrips _ _ _ (scoring_rows_normal _ _ Hconv) Hne)
      as H.
    destruct (scoring_roundtrip rules H) as (rows' & -> & Hback). done.
Qed.

Lemma rows_to_tool_fixed_point_witness :
  ∃ inputs, input_rows_to_tool input_rows_sample = Some inputs
    ∧ mapM input_row inputs ≫= input_rows_to_tool = Some inputs.
Proof.
  exists [ {| in_id := Some (PStr "q"); in_label := Some (PStr "Question");
              in_type := Some (PStr "select");
              in_options := [PStr "Yes"; PStr "No"] |} ].
  assert (H : input_rows_to_tool input_rows_sample
    = Some [ {| in_id := Some (PStr "q"); in_label := Some (PStr "Question");
                in_type := Some (PStr "select");
                in_options := [PStr "Yes"; PStr "No"] |} ])
    by (vm_compute; reflexivity).
  split; [exact H|].
  apply (proj1 (rows_to_tool_fixed_point input_rows_sample) _ H).
  repeat constructor. discriminate.
Defined.

Lemma cond_from_row_roundtrips c : cond_from_row c → cond_roundtrips c = true.
Proof.
  intros (Hop & (s & Hid & Hne & Hs1 & Hs2) & (v & Hv & _ & Hpy)).
  unfold cond_roundtrips. rewrite Hid, Hop, Hv.
  rewrite bool_decide_eq_true_2 by done. simpl.
  unfold nonempty, stripped, py_ne.
  apply String.eqb_neq in Hne. by rewrite Hne, Hs1, Hs2, Hpy.
Qed.

Lemma rule_rows_normal rows rules :
  rule_rows_to_tool rows = Some rules →
  forallb rule_roundtrips rules = true.
Proof.
  revert rules. induction rows as [|row rows IH]; intros rules.
  - by intros [= <-].
  - rewrite rule_rows_to_tool_cons.
    destruct (has_key "name" row) eqn:Hk; [|by apply IH].
    destruct (slot_conditions row (seq 0 3)) as [cs|] eqn:Hcs; [|done].
    destruct (rule_rows_to_tool rows) as [tl|]; [|done].
    intros [= <-]. cbn [forallb]. rewrite (IH tl eq_refl), andb_true_r.
    apply slot_conditions_from_row in Hcs as [Hlen Hall].
    change (length (seq 0 3)) with 3%nat in Hlen.
    unfold rule_roundtrips.
    cbn [rule_name rule_level rule_message rule_conditions present].
    assert (Hname : py_truthy (row_get_or row "name" (PStr "")) = true).
    { unfold has_key, row_get in Hk. unfold row_get_or.
      by destruct (row !! "name"). }
    rewrite Hname. simpl.
    rewrite (proj2 (Nat.leb_le _ _) Hlen). simpl.
    apply forallb_forall. intros c Hc. apply cond_from_row_roundtrips.
    rewrite Forall_forall in Hall. by apply Hall, list_elem_of_In.
Qed.

(** X14.  Rules read from rows survive the round trip unchanged: encoding
    the result of [rule_rows_to_tool] with [tool_to_rule_rows] and reading
    the rows back gives the same rules, for every list of rows the
    converter accepts. *)
Theorem rule_rows_fixed_point (rows : list (gmap string pyval)) rules tool :
  rule_rows_to_tool rows = Some rules →
  rule_rows_to_tool (tool_to_rule_rows (with_rules tool rules)) = Some rules.
Proof.
  intros H%rule_rows_normal. unfold tool_to_rule_rows. simpl.
  by apply rules_roundtrip.
Qed.

Lemma rule_rows_fixed_point_witness :
  rule_rows_to_tool rule_rows_sample
    = Some [rule_of "R" "success" "Go" [cond_equals "q" (PStr "Yes")]]
  ∧ rule_rows_to_tool (tool_to_rule_rows (with_rules DEFAULT_TOOL
        [rule_of "R" "success" "Go" [cond_equals "q" (PStr "Yes")]]))
    = Some [rule_of "R" "success" "Go" [cond_equals "q" (PStr "Yes")]].
Proof.
  assert (H : rule_rows_to_tool rule_rows_sample
    = Some [rule_of "R" "success" "Go" [cond_equals "q" (PStr "Yes")]])
    by (vm_compute; reflexivity).
  split; [exact H|].
  exact (rule_rows_fixed_point rule_rows_sample _ DEFAULT_TOOL H).
Defined.

(** ** More than three conditions *)

Lemma rule_row_truncates r rest :
  rule_encodable r = true →
  rule_rows_to_tool (rule_row r :: rest)
    = (truncate_rule r ::.) <$> rule_rows_to_tool rest.
Proof.
  unfold rule_encodable.
  intros [[[Hname Hlevel]%andb_prop Hmsg]%andb_prop Hcs]%andb_prop.
  destruct (rule_row_cells r) as (Hn & Hl & Hm & Hslots).
  rewrite rule_rows_to_tool_cons.
  unfold has_key, row_get, row_get_or. rewrite Hn, Hl, Hm.
  rewrite (slot_conditions_seq (rule_row r) (rule_conditions r) 0 3).
  - destruct r as [[name|] [level|] [message|] cs]; try done.
    simpl in *. rewrite Hname. simpl.
    by destruct (rule_rows_to_tool rest).
  - intros idx Hidx. unfold row_get_or.
    destruct (Hslots idx ltac:(lia)) as [-> ->]. done.
  - done.
Qed.

(** X15.  A rule row has three condition slots: for rules whose fields a
    row can carry, the round trip through [tool_to_rule_rows] and
    [rule_rows_to_tool] gives back each rule with its first three
    conditions, in order, and silently drops any further condition. *)
Theorem rule_rows_truncate tool :
  forallb rule_encodable (tool_rules tool) = true →
  rule_rows_to_tool (tool_to_rule_rows tool)
    = Some (truncate_rule <$> tool_rules tool).
Proof.
  unfold tool_to_rule_rows.
  induction (tool_rules tool) as [|r rules IH]; [done|].
  cbn [forallb]. intros [Hr Hrest]%andb_prop.
  change (rule_row <$> r :: rules) with (rule_row r :: (rule_row <$> rules)).
  by rewrite rule_row_truncates, IH.
Qed.

Lemma rule_rows_truncate_witness :
  rule_rows_to_tool (tool_to_rule_rows
      (tool_of_rules [rule_four_conditions; rule_q_yes] None))
    = Some [ rule_of "four" "info" "Four"
               [cond_equals "a" (PStr "1"); cond_equals "b" (PStr "2");
                cond_equals "c" (PStr "3")];
             rule_q_yes ].
Proof.
  apply (rule_rows_truncate
           (tool_of_rules [rule_four_conditions; rule_q_yes] None)).
  vm_compute. reflexivity.
Defined.

(** ** Scoring on the rules the Builder reads *)





(** ** Model to rows *)

(** X16.  Every row built by [tool_to_rule_rows] has the same nine columns,
    however many conditions the rule has. *)
Theorem rule_row_columns tool :
  Forall (λ row : gmap string pyval, dom row = rule_row_keys)
    (tool_to_rule_rows tool)
  ∧ length (tool_to_rule_rows tool) = length (tool_rules tool).
Proof.
  unfold tool_to_rule_rows. split; [|apply length_fmap].
  apply Forall_fmap, Forall_forall. intros r _. simpl.
  unfold rule_row, rule_row_keys. cbn [seq fold_left]. unfold fill_slot.
  change (key_id 0) with "input_id_1". change (key_val 0) with "value_1".
  change (key_id 1) with "input_id_2". change (key_val 1) with "value_2".
  change (key_id 2) with "input_id_3". change (key_val 2) with "value_3".
  destruct (rule_conditions r !! 0%nat), (rule_conditions r !! 1%nat),
    (rule_conditions r !! 2%nat);
    rewrite !dom_insert_L, dom_singleton_L; set_solver.
Qed.

Lemma py_join_is_Some sep l :
  is_Some (py_join sep l) ↔ forallb is_str l = true.
Proof.
  unfold py_join. rewrite fmap_is_Some, mapM_is_Some.
  rewrite forallb_forall, Forall_forall.
  split; intros H v Hv.
  - apply list_elem_of_In in Hv. destruct (H v Hv) as [s Hs].
    by destruct v.
  - apply list_elem_of_In in Hv. specialize (H v Hv).
    destruct v; try done. by eexists.
Qed.

(** X17.  [tool_to_input_rows] and [tool_to_scoring_rows] raise exactly
    when a list they join holds something that is not a string: the first
    returns iff every option of every input is a string, the second iff
    every favor value and every against value of every scoring rule is;
    when they return there is one row per item. *)
Theorem tool_to_rows_returns_iff tool :
  (is_Some (tool_to_input_rows tool) ↔
     Forall (λ i, forallb is_str (in_options i) = true) (tool_inputs tool))
  ∧ (is_Some (tool_to_scoring_rows tool) ↔
       Forall (λ r, forallb is_str (sr_favor_values r) = true
                    ∧ forallb is_str (sr_against_values r) = true)
         (tool_scoring_rules tool))
  ∧ (∀ rows, tool_to_input_rows tool = Some rows →
       length rows = length (tool_inputs tool))
  ∧ (∀ rows, tool_to_scoring_rows tool = Some rows →
       length rows = length (tool_scoring_rules tool)).
Proof.
  unfold tool_to_input_rows, tool_to_scoring_rows.
  split; [|split; [|split]].
  - rewrite mapM_is_Some. apply Forall_iff. intros i. simpl.
    rewrite <- (py_join_is_Some ", "). unfold input_row.
    destruct (py_join ", " (in_options i)); simpl; split;
      intros [? ?]; first [done | by eexists].
  - rewrite mapM_is_Some. apply Forall_iff. intros r. simpl.
    rewrite <- !(py_join_is_Some ", "). unfold scoring_row.
    destruct (py_join ", " (sr_favor_values r)),
      (py_join ", " (sr_against_values r)); simpl; split;
      first [ by intros [? ?]
            | by intros [[? ?] [? ?]]
            | intros _; by eexists
            | intros _; split; by eexists ].
  - intros rows H. symmetry. by eapply length_mapM.
  - intros rows H. symmetry. by eapply length_mapM.
Qed.

Lemma tool_to_rows_returns_iff_witness :
  is_Some (tool_to_input_rows tool_full)
  ∧ tool_to_scoring_rows (tool_of_scoring [scoring_none_listed]) = None.
Proof.
  split; [|reflexivity].
  apply (proj2 (proj1 (tool_to_rows_returns_iff tool_full))).
  simpl. by repeat constructor.
Defined.

(** * The application around the engine *)

(** ** Positions in lists *)

Lemma py_index_Some v l i :
  py_index v l = Some i ↔
  ∃ x, l !! i = Some x ∧ py_eq x v = true
       ∧ ∀ j y, (j < i)%nat → l !! j = Some y → py_eq y v = false.
Proof.
  revert i. induction l as [|x l IH]; intros i; simpl.
  - split; [done|]. by intros (? & ? & _).
  - destruct (py_eq x v) eqn:E.
    + split.
      * intros [= <-]. exists x. repeat split; try done. intros j y Hj. lia.
      * intros (x' & Hx' & Hv & Hfirst). destruct i as [|i]; [done|].
        specialize (Hfirst 0%nat x ltac:(lia) eq_refl). congruence.
    + rewrite fmap_Some. split.
      * intros (k & Hk & ->). apply IH in Hk as (x' & Hx' & Hv & Hfirst).
        exists x'. repeat split; try done.
        intros [|j] y Hj; simpl; [by intros [= <-]|].
        apply Hfirst. lia.
      * intros (x' & Hx' & Hv & Hfirst).
        destruct i as [|i]; [simpl in Hx'; congruence|].
        exists i. split; [|done]. apply IH. exists x'.
        repeat split; try done.
        intros j y Hj Hy. apply (Hfirst (S j) y); [lia|done].
Qed.

Lemma py_index_in v l : py_in v l = true → is_Some (py_index v l).
Proof.
  unfold py_in. induction l as [|x l IH]; simpl; [done|].
  rewrite (py_eq_sym v x). destruct (py_eq x v); simpl; [by eexists|].
  intros [i ->]%IH. by eexists.
Qed.

(** ** The preview of a select input *)

(** X18.  For every input and every stored value, the list of options shown
    by the preview is not empty and the position handed to the selectbox
    exists and is a valid position of that list: the first position whose
    option equals the stored value, and 0 when no option does. *)
Theorem select_index_valid (item : InputField) (dflt : pyval) :
  select_options item ≠ []
  ∧ ∃ i, select_index (select_options item) dflt = Some i
      ∧ (i < length (select_options item))%nat
      ∧ (py_in dflt (select_options item) = false → i = 0%nat)
      ∧ (py_in dflt (select_options item) = true →
           ∃ option, select_options item !! i = Some option
             ∧ py_eq option dflt = true
             ∧ ∀ j y, (j < i)%nat → select_options item !! j = Some y →
                 py_eq y dflt = false).
Proof.
  assert (Hne : select_options item ≠ []).
  { unfold select_options. by destruct (in_options item). }
  split; [done|]. unfold select_index.
  destruct (py_in dflt (select_options item)) eqn:Hin.
  - destruct (py_index_in _ _ Hin) as [i Hi]. exists i.
    pose proof (proj1 (py_index_Some _ _ _) Hi) as (x & Hx & Hv & Hfirst).
    repeat split; try done.
    + by eapply lookup_lt_Some.
    + intros _. by exists x.
  - exists 0%nat. repeat split; try done.
    destruct (select_options item); [done|simpl; lia].
Qed.

Lemma select_index_valid_witness :
  select_options (mkInput (Some (PStr "q")) None None []) ≠ []
  ∧ ∃ i, select_index (select_options (mkInput (Some (PStr "q")) None None []))
           (PStr "Yes") = Some i
      ∧ (i < length (select_options (mkInput (Some (PStr "q")) None None [])))%nat
      ∧ (py_in (PStr "Yes")
           (select_options (mkInput (Some (PStr "q")) None None [])) = false →
         i = 0%nat)
      ∧ (py_in (PStr "Yes")
           (select_options (mkInput (Some (PStr "q")) None None [])) = true →
           ∃ option,
             select_options (mkInput (Some (PStr "q")) None None []) !! i
               = Some option
             ∧ py_eq option (PStr "Yes") = true
             ∧ ∀ j y, (j < i)%nat →
                 select_options (mkInput (Some (PStr "q")) None None []) !! j
                   = Some y →
                 py_eq y (PStr "Yes") = false).
Proof.
  exact (select_index_valid (mkInput (Some (PStr "q")) None None [])
           (PStr "Yes")).
Defined.

(** ** The tool selector of the sidebar *)

Lemma tool_labels_lookup tool_items labels j id tool :
  tool_labels tool_items = Some labels →
  tool_items !! j = Some (id, tool) →
  labels !! j = Some (get (tool_name tool)) ∧ is_Some (tool_name tool).
Proof.
  unfold tool_labels. intros Hl%mapM_Some_1 Hj.
  destruct (Forall2_lookup_l _ _ _ _ _ Hl Hj) as (label & Hlabel & Hname).
  simpl in Hname. rewrite Hlabel, Hname. by eauto.
Qed.

Lemma py_in_lookup v x l i :
  l !! i = Some x → py_eq x v = true → py_in v l = true.
Proof.
  intros Hx Hv. unfold py_in. apply existsb_exists. exists x.
  split; [|by rewrite py_eq_sym].
  apply list_elem_of_In. by eapply list_elem_of_lookup_2.
Qed.

Lemma select_tool_first
    (tool_items : list (string * ToolDefinition)) choice id tool :
  NoDup (dict_keys tool_items) →
  Forall (λ item, is_Some (tool_name item.2)) tool_items →
  tool_items !! choice = Some (id, tool) →
  ∃ first id' tool',
    select_tool tool_items choice = Some id'
    ∧ (first ≤ choice)%nat
    ∧ tool_items !! first = Some (id', tool')
    ∧ py_eq (get (tool_name tool')) (get (tool_name tool)) = true
    ∧ (∀ j id_j tool_j, (j < first)%nat →
         tool_items !! j = Some (id_j, tool_j) →
         py_eq (get (tool_name tool_j)) (get (tool_name tool)) = false)
    ∧ (id' = id ↔ first = choice).
Proof.
  intros Hnodup Hnames Hchoice.
  destruct (mapM_is_Some_2 (λ item : string * ToolDefinition,
              tool_name item.2) tool_items Hnames) as [labels Hlabels].
  fold (tool_labels tool_items) in Hlabels.
  destruct (tool_labels_lookup _ _ _ _ _ Hlabels Hchoice) as [Hlabel _].
  assert (Hin : py_in (get (tool_name tool)) labels = true)
    by (eapply py_in_lookup; [exact Hlabel|apply py_eq_refl]).
  destruct (py_index_in _ _ Hin) as [first Hfirst].
  pose proof (proj1 (py_index_Some _ _ _) Hfirst) as (x & Hx & Hv & Hmin).
  assert (Hle : (first ≤ choice)%nat).
  { destruct (decide (first ≤ choice)%nat) as [|Hgt]; [done|].
    specialize (Hmin choice _ ltac:(lia) Hlabel).
    by rewrite py_eq_refl in Hmin. }
  assert (Hlen : (first < length tool_items)%nat).
  { apply lookup_lt_Some in Hchoice. lia. }
  destruct (lookup_lt_is_Some_2 _ _ Hlen) as [[id' tool'] Hitem].
  destruct (tool_labels_lookup _ _ _ _ _ Hlabels Hitem) as [Hlabel' _].
  assert (x = get (tool_name tool')) as -> by congruence.
  exists first, id', tool'. split; [|split; [done|split; [done|split; [done|split]]]].
  - unfold select_tool. rewrite Hlabels. simpl. rewrite Hlabel. simpl.
    rewrite Hfirst. simpl. unfold dict_keys.
    by rewrite list_lookup_fmap, Hitem.
  - intros j id_j tool_j Hj Hitem_j.
    destruct (tool_labels_lookup _ _ _ _ _ Hlabels Hitem_j) as [Hlabel_j _].
    by apply (Hmin j).
  - split.
    + intros ->. eapply NoDup_lookup; [exact Hnodup| |];
        unfold dict_keys; rewrite list_lookup_fmap.
      * by rewrite Hitem.
      * by rewrite Hchoice.
    + intros ->. congruence.
Qed.

(** X19.  The tool selector resolves the chosen label, not the chosen
    position: picking the tool at position [choice] selects the first tool
    whose name equals the name of that tool.  The picked tool itself is
    selected iff no earlier tool has an equal name; a tool that shares its
    name with an earlier one cannot be selected. *)
Theorem select_tool_first_name
    (tool_items : list (string * ToolDefinition)) choice id tool :
  NoDup (dict_keys tool_items) →
  Forall (λ item, is_Some (tool_name item.2)) tool_items →
  tool_items !! choice = Some (id, tool) →
  ∃ first id' tool',
    select_tool tool_items choice = Some id'
    ∧ (first ≤ choice)%nat
    ∧ tool_items !! first = Some (id', tool')
    ∧ py_eq (get (tool_name tool')) (get (tool_name tool)) = true
    ∧ (∀ j id_j tool_j, (j < first)%nat →
         tool_items !! j = Some (id_j, tool_j) →
         py_eq (get (tool_name tool_j)) (get (tool_name tool)) = false)
    ∧ (id' = id ↔ first = choice).
Proof. apply select_tool_first. Qed.

Lemma select_tool_first_name_witness :
  ∃ first id' tool',
    select_tool two_new_tools 1 = Some id'
    ∧ (first ≤ 1)%nat
    ∧ two_new_tools !! first = Some (id', tool')
    ∧ py_eq (get (tool_name tool')) (get (tool_name DEFAULT_TOOL)) = true
    ∧ (∀ j id_j tool_j, (j < first)%nat →
         two_new_tools !! j = Some (id_j, tool_j) →
         py_eq (get (tool_name tool_j)) (get (tool_name DEFAULT_TOOL)) = false)
    ∧ (id' = "tool_b" ↔ first = 1%nat).
Proof.
  apply (select_tool_first_name two_new_tools 1 "tool_b" DEFAULT_TOOL).
  - unfold two_new_tools, dict_keys. simpl. compute_done.
  - repeat constructor; by eexists.
  - reflexivity.
Defined.

Example select_tool_same_name : select_tool two_new_tools 1 = Some "tool_a".
Proof. reflexivity. Qed.

(** ** Dictionaries in insertion order *)

Section pydict_facts.
  Context {V : Type}.
  Implicit Types (d : list (string * V)) (k : string) (v : V).

Lemma dict_keys_cons k v d : dict_keys ((k, v) :: d) = k :: dict_keys d.
Proof. reflexivity. Qed.

Lemma eqb_ne (k k' : string) : k ≠ k' → String.eqb k k' = false.
Proof. apply String.eqb_neq. Qed.

Lemma dict_get_set_eq d k v : dict_get (dict_set d k v) k = Some v.
Proof.
  induction d as [|[k' v'] d IH]; cbn [dict_set dict_get].
  - by rewrite String.eqb_refl.
  - destruct (String.eqb k' k) eqn:E; cbn [dict_get].
    + by rewrite String.eqb_refl.
    + by rewrite E.
Qed.

Lemma dict_get_set_ne d k k' v :
  k ≠ k' → dict_get (dict_set d k v) k' = dict_get d k'.
Proof.
  intros Hne. induction d as [|[k0 v0] d IH]; cbn [dict_set dict_get].
  - by rewrite eqb_ne.
  - destruct (String.eqb k0 k) eqn:E; cbn [dict_get].
    + apply String.eqb_eq in E as ->. by rewrite eqb_ne.
    + by rewrite IH.
Qed.

Lemma dict_get_None d k : dict_get d k = None ↔ k ∉ dict_keys d.
Proof.
  induction d as [|[k' v'] d IH]; cbn [dict_get].
  - split; [intros _; apply not_elem_of_nil|done].
  - rewrite dict_keys_cons, not_elem_of_cons.
    destruct (String.eqb k' k) eqn:E.
    + apply String.eqb_eq in E as ->. split; [done|]. by intros [? _].
    + apply String.eqb_neq in E. rewrite IH.
      split; [intros ?; split; [congruence|done]|by intros [_ ?]].
Qed.

Lemma dict_get_Some_key d k v : dict_get d k = Some v → k ∈ dict_keys d.
Proof.
  intros H. destruct (decide (k ∈ dict_keys d)) as [|Hn]; [done|].
  apply dict_get_None in Hn. congruence.
Qed.

Lemma dict_get_is_Some d k : k ∈ dict_keys d → is_Some (dict_get d k).
Proof.
  intros Hin. destruct (dict_get d k) eqn:E; [by eexists|].
  by apply dict_get_None in E.
Qed.

Lemma dict_set_fresh d k v :
  k ∉ dict_keys d → dict_set d k v = d ++ [(k, v)].
Proof.
  induction d as [|[k' v'] d IH]; cbn [dict_set]; [done|].
  rewrite dict_keys_cons, not_elem_of_cons. intros [Hne Hd].
  rewrite (eqb_ne k' k) by congruence. by rewrite IH.
Qed.

Lemma dict_keys_set_present d k v :
  k ∈ dict_keys d → dict_keys (dict_set d k v) = dict_keys d.
Proof.
  induction d as [|[k' v'] d IH]; cbn [dict_set].
  - by intros ?%elem_of_nil.
  - rewrite dict_keys_cons. destruct (String.eqb k' k) eqn:E.
    + apply String.eqb_eq in E as ->. done.
    + apply String.eqb_neq in E. intros [?|Hin]%elem_of_cons; [congruence|].
      by rewrite dict_keys_cons, IH.
Qed.

Lemma dict_keys_set d k v :
  dict_keys (dict_set d k v) =
    if decide (k ∈ dict_keys d) then dict_keys d else dict_keys d ++ [k].
Proof.
  destruct (decide (k ∈ dict_keys d)) as [Hin|Hn].
  - by apply dict_keys_set_present.
  - rewrite dict_set_fresh by done. unfold dict_keys. by rewrite fmap_app.
Qed.

Lemma dict_set_NoDup d k v :
  NoDup (dict_keys d) → NoDup (dict_keys (dict_set d k v)).
Proof.
  intros H. rewrite dict_keys_set. destruct (decide _) as [|Hn]; [done|].
  apply NoDup_app. split; [done|]. split; [|apply NoDup_singleton].
  intros x Hx ->%list_elem_of_singleton. done.
Qed.

Lemma dict_del_Some d k :
  k ∈ dict_keys d → is_Some (dict_del d k).
Proof.
  induction d as [|[k' v'] d IH]; cbn [dict_del].
  - by intros ?%elem_of_nil.
  - rewrite dict_keys_cons. destruct (String.eqb k' k) eqn:E; [by eexists|].
    apply String.eqb_neq in E. intros [?|Hin]%elem_of_cons; [congruence|].
    destruct (IH Hin) as [d' ->]. by eexists.
Qed.

Lemma dict_del_None d k : k ∉ dict_keys d → dict_del d k = None.
Proof.
  induction d as [|[k' v'] d IH]; cbn [dict_del]; [done|].
  rewrite dict_keys_cons, not_elem_of_cons. intros [Hne Hd].
  rewrite (eqb_ne k' k) by congruence. by rewrite IH.
Qed.

Lemma filter_fresh (k : string) (l : list string) :
  k ∉ l → List.filter (λ k', negb (String.eqb k' k)) l = l.
Proof.
  induction l as [|k' l IH]; [done|]. rewrite not_elem_of_cons.
  intros [Hne Hl]. cbn [List.filter].
  rewrite (eqb_ne k' k) by congruence. simpl. by rewrite IH.
Qed.

Lemma filter_not_elem (k : string) (l : list string) :
  k ∉ List.filter (λ k', negb (String.eqb k' k)) l.
Proof.
  intros Hin%list_elem_of_In. apply filter_In in Hin as [_ Hne].
  by rewrite String.eqb_refl in Hne.
Qed.

Lemma dict_del_keys d k d' :
  NoDup (dict_keys d) → dict_del d k = Some d' →
  dict_keys d' = List.filter (λ k', negb (String.eqb k' k)) (dict_keys d).
Proof.
  revert d'. induction d as [|[k0 v0] d IH]; intros d'; cbn [dict_del];
    [done|].
  rewrite dict_keys_cons. intros [Hk0 Hnd]%NoDup_cons.
  cbn [List.filter]. destruct (String.eqb k0 k) eqn:E; cbn [negb].
  - intros [= <-]. apply String.eqb_eq in E as ->.
    by rewrite filter_fresh.
  - destruct (dict_del d k) as [d0|] eqn:Hd; [|done].
    intros [= <-]. rewrite dict_keys_cons. f_equal. by apply IH.
Qed.

Lemma dict_del_get_ne d k k' d' :
  dict_del d k = Some d' → k ≠ k' → dict_get d' k' = dict_get d k'.
Proof.
  revert d'. induction d as [|[k0 v0] d IH]; intros d'; cbn [dict_del];
    [done|].
  destruct (String.eqb k0 k) eqn:E.
  - intros [= <-] Hne. apply String.eqb_eq in E as ->.
    cbn [dict_get]. by rewrite eqb_ne.
  - destruct (dict_del d k) as [d0|] eqn:Hd; [|done].
    intros [= <-] Hne. cbn [dict_get]. destruct (String.eqb k0 k'); [done|].
    by apply IH.
Qed.

Lemma dict_del_set_fresh d k v :
  k ∉ dict_keys d → dict_del (dict_set d k v) k = Some d.
Proof.
  intros Hn. rewrite dict_set_fresh by done.
  induction d as [|[k' v'] d IH]; simpl.
  - by rewrite String.eqb_refl.
  - rewrite dict_keys_cons in Hn. apply not_elem_of_cons in Hn as [Hne Hn].
    rewrite (eqb_ne k' k) by congruence. by rewrite IH.
Qed.

Lemma dict_del_sub d k d' x :
  dict_del d k = Some d' → x ∈ d' → x ∈ d.
Proof.
  revert d'. induction d as [|[k0 v0] d IH]; intros d'; cbn [dict_del];
    [done|].
  destruct (String.eqb k0 k).
  - intros [= <-] Hx. by apply list_elem_of_further.
  - destruct (dict_del d k) as [d0|] eqn:Hd; [|done].
    intros [= <-] [->|Hx]%elem_of_cons; [apply list_elem_of_here|].
    apply list_elem_of_further. by apply (IH d0).
Qed.

Lemma dict_set_sub d k v x :
  x ∈ dict_set d k v → x = (k, v) ∨ x ∈ d.
Proof.
  induction d as [|[k0 v0] d IH]; cbn [dict_set].
  - intros ->%list_elem_of_singleton. by left.
  - destruct (String.eqb k0 k).
    + intros [->|Hx]%elem_of_cons; [by left|right].
      by apply list_elem_of_further.
    + intros [->|Hx]%elem_of_cons; [right; apply list_elem_of_here|].
      destruct (IH Hx) as [->|?]; [by left|right].
      by apply list_elem_of_further.
Qed.

End pydict_facts.

(** ** The session and the store *)

(** X20.  [ensure_state] only fills in what is missing: it leaves the file
    and every key already set as they are, running it twice is the same as
    running it once, and a selection it has to choose is the first tool id
    of the store, or [None] for an empty store. *)
Theorem ensure_state_fills w :
  ensure_state (ensure_state w) = ensure_state w
  ∧ tools_file (ensure_state w) = tools_file w
  ∧ (∀ data, ss_tools_data (session w) = Some data →
       ss_tools_data (session (ensure_state w)) = Some data)
  ∧ (∀ selected, ss_selected_tool_id (session w) = Some selected →
       ss_selected_tool_id (session (ensure_state w)) = Some selected)
  ∧ (∀ tool, ss_editing_tool (session w) = Some tool →
       ss_editing_tool (session (ensure_state w)) = Some tool)
  ∧ (∀ values, ss_preview_values (session w) = Some values →
       ss_preview_values (session (ensure_state w)) = Some values)
  ∧ (ss_selected_tool_id (session w) = None →
       ∃ data, ss_tools_data (session (ensure_state w)) = Some data
         ∧ ss_selected_tool_id (session (ensure_state w))
             = Some (head (dict_keys (store_items data))))
  ∧ (ss_tools_data (session w) = None → tools_file w = None →
       ss_tools_data (session (ensure_state w))
         = Some {| store_tools := Some [] |}).
Proof.
  destruct w as [[data selected editing values] file].
  unfold ensure_state. simpl.
  repeat split.
  - by intros ? ->.
  - by intros ? ->.
  - by intros ? ->.
  - by intros ? ->.
  - intros ->. by eexists.
  - by intros -> ->.
Qed.

Lemma ensure_state_fills_witness :
  ss_tools_data (session (ensure_state world_empty))
    = Some {| store_tools := Some [] |}
  ∧ ss_selected_tool_id (session (ensure_state world_empty)) = Some None.
Proof.
  split.
  - by apply (proj2 (proj2 (proj2 (proj2 (proj2 (proj2 (proj2
      (ensure_state_fills world_empty)))))))).
  - destruct (proj1 (proj2 (proj2 (proj2 (proj2 (proj2 (proj2
      (ensure_state_fills world_empty))))))) eq_refl) as (data & Hd & Hs).
    simpl in Hd. injection Hd as <-. exact Hs.
Defined.

(** ** New Tool and Delete Tool *)

(** X21.  "New Tool" on a session whose store has the "tools" key stores a
    copy of the template under the new id, selects it and writes the store
    to the file; every other tool keeps its value and its place, a fresh id
    goes last, and an id already in use has its tool replaced by the
    template.  [ensure_editing_tool] then opens the template. *)
Theorem new_tool_effect new_id w data tools :
  ss_tools_data (session w) = Some data →
  store_tools data = Some tools →
  ∃ w' tools',
    new_tool new_id w = Some w'
    ∧ ss_tools_data (session w') = Some {| store_tools := Some tools' |}
    ∧ tools_file w' = Some {| store_tools := Some tools' |}
    ∧ ss_selected_tool_id (session w') = Some (Some new_id)
    ∧ dict_get tools' new_id = Some DEFAULT_TOOL
    ∧ (∀ k, k ≠ new_id → dict_get tools' k = dict_get tools k)
    ∧ (new_id ∉ dict_keys tools → tools' = tools ++ [(new_id, DEFAULT_TOOL)])
    ∧ (new_id ∈ dict_keys tools → dict_keys tools' = dict_keys tools)
    ∧ ss_editing_tool <$> ensure_editing_tool (session w')
        = Some (Some (Some DEFAULT_TOOL)).
Proof.
  intros Hdata Htools.
  exists {| session := set_tools (session w)
              {| store_tools := Some (dict_set tools new_id DEFAULT_TOOL) |}
              (Some new_id);
            tools_file := save_tools
              {| store_tools := Some (dict_set tools new_id DEFAULT_TOOL) |} |},
    (dict_set tools new_id DEFAULT_TOOL).
  split; [unfold new_tool; by rewrite Hdata; simpl; rewrite Htools|].
  repeat split.
  - apply dict_get_set_eq.
  - intros k Hk. by apply dict_get_set_ne.
  - apply dict_set_fresh.
  - apply dict_keys_set_present.
  - unfold ensure_editing_tool. simpl. by rewrite dict_get_set_eq.
Qed.

Lemma new_tool_effect_witness :
  ∃ w' tools',
    new_tool "tool_c" world_two_tools = Some w'
    ∧ ss_tools_data (session w') = Some {| store_tools := Some tools' |}
    ∧ tools_file w' = Some {| store_tools := Some tools' |}
    ∧ ss_selected_tool_id (session w') = Some (Some "tool_c")
    ∧ dict_get tools' "tool_c" = Some DEFAULT_TOOL
    ∧ (∀ k, k ≠ "tool_c" → dict_get tools' k = dict_get two_new_tools k)
    ∧ ("tool_c" ∉ dict_keys two_new_tools →
         tools' = two_new_tools ++ [("tool_c", DEFAULT_TOOL)])
    ∧ ("tool_c" ∈ dict_keys two_new_tools →
         dict_keys tools' = dict_keys two_new_tools)
    ∧ ss_editing_tool <$> ensure_editing_tool (session w')
        = Some (Some (Some DEFAULT_TOOL)).
Proof.
  apply (new_tool_effect "tool_c" world_two_tools
           {| store_tools := Some two_new_tools |} two_new_tools);
    reflexivity.
Defined.

(** X22.  "Delete Tool" with a stored tool selected removes that tool from
    the session's store and from the file, leaves every other tool, and
    their order, as it was, and moves the selection to the first remaining
    tool, or to [None] when the store is left empty. *)
Theorem delete_tool_effect w data tools tool_id :
  ss_tools_data (session w) = Some data →
  store_tools data = Some tools →
  NoDup (dict_keys tools) →
  ss_selected_tool_id (session w) = Some (Some tool_id) →
  tool_id ∈ dict_keys tools →
  ∃ w' tools',
    delete_tool w = Some w'
    ∧ ss_tools_data (session w') = Some {| store_tools := Some tools' |}
    ∧ tools_file w' = Some {| store_tools := Some tools' |}
    ∧ dict_get tools' tool_id = None
    ∧ (∀ k, k ≠ tool_id → dict_get tools' k = dict_get tools k)
    ∧ dict_keys tools'
        = List.filter (λ k, negb (String.eqb k tool_id)) (dict_keys tools)
    ∧ ss_selected_tool_id (session w') = Some (head (dict_keys tools')).
Proof.
  intros Hdata Htools Hnodup Hsel Hin.
  destruct (dict_del_Some tools tool_id Hin) as [tools' Hdel].
  eexists _, tools'. split.
  { unfold delete_tool. rewrite Hdata. simpl. rewrite Htools. simpl.
    rewrite Hsel. simpl. rewrite Hdel. simpl. reflexivity. }
  pose proof (dict_del_keys _ _ _ Hnodup Hdel) as Hkeys.
  repeat split.
  - apply dict_get_None. rewrite Hkeys. apply filter_not_elem.
  - intros k Hk. eapply dict_del_get_ne; [exact Hdel|congruence].
  - exact Hkeys.
Qed.

Lemma delete_tool_effect_witness :
  ∃ w' tools',
    delete_tool world_two_tools = Some w'
    ∧ ss_tools_data (session w') = Some {| store_tools := Some tools' |}
    ∧ tools_file w' = Some {| store_tools := Some tools' |}
    ∧ dict_get tools' "tool_a" = None
    ∧ (∀ k, k ≠ "tool_a" → dict_get tools' k = dict_get two_new_tools k)
    ∧ dict_keys tools'
        = List.filter (λ k, negb (String.eqb k "tool_a"))
            (dict_keys two_new_tools)
    ∧ ss_selected_tool_id (session w') = Some (head (dict_keys tools')).
Proof.
  apply (delete_tool_effect world_two_tools
           {| store_tools := Some two_new_tools |} two_new_tools "tool_a");
    try reflexivity.
  - unfold two_new_tools, dict_keys. simpl. compute_done.
  - apply list_elem_of_here.
Defined.

(** ** Runs of the script *)

Lemma filter_NoDup {A} (f : A → bool) (l : list A) :
  NoDup l → NoDup (List.filter f l).
Proof.
  induction 1 as [|x l Hx _ IH]; simpl; [constructor|].
  destruct (f x); [|done]. constructor; [|done].
  intros Hin%list_elem_of_In. apply filter_In in Hin as [Hin _].
  by apply list_elem_of_In in Hin.
Qed.

Lemma dict_del_NoDup {V} (d d' : list (string * V)) k :
  NoDup (dict_keys d) → dict_del d k = Some d' → NoDup (dict_keys d').
Proof.
  intros Hnd Hdel. rewrite (dict_del_keys _ _ _ Hnd Hdel).
  by apply filter_NoDup.
Qed.

Lemma head_selection_ok (tools : list (string * ToolDefinition)) :
  selection_ok tools (head (dict_keys tools)).
Proof.
  destruct tools as [|[k v] tools]; simpl; [done|apply list_elem_of_here].
Qed.

Lemma ensure_state_ok w :
  world_fresh w ∨ world_ok w → world_ok (ensure_state w).
Proof.
  destruct w as [[data selected editing values] file].
  intros [[Hfresh Hstore]|(data' & sel & Hd & Hok & Hfile & Hsel & Hselok)];
    simpl in *.
  - injection Hfresh as -> -> -> ->.
    exists (load_tools file), (head (dict_keys (store_items (load_tools file)))).
    repeat split; try done. apply head_selection_ok.
  - unfold world_ok, ensure_state. simpl. rewrite Hd, Hsel.
    exists data', sel. by repeat split.
Qed.

Lemma select_tool_in_keys (tools : list (string * ToolDefinition)) choice :
  Forall named tools → (choice < length tools)%nat →
  ∃ tool_id, select_tool tools choice = Some tool_id
             ∧ tool_id ∈ dict_keys tools.
Proof.
  intros Hnamed Hchoice.
  destruct (mapM_is_Some_2 (λ item : string * ToolDefinition,
              tool_name item.2) tools Hnamed) as [labels Hlabels].
  fold (tool_labels tools) in Hlabels.
  destruct (lookup_lt_is_Some_2 _ _ Hchoice) as [[id tool] Hitem].
  destruct (tool_labels_lookup _ _ _ _ _ Hlabels Hitem) as [Hlabel _].
  assert (Hin : py_in (get (tool_name tool)) labels = true)
    by (eapply py_in_lookup; [exact Hlabel|apply py_eq_refl]).
  destruct (py_index_in _ _ Hin) as [first Hfirst].
  pose proof (proj1 (py_index_Some _ _ _) Hfirst) as (x & Hx & _ & _).
  assert (Hlen : (first < length tools)%nat).
  { apply lookup_lt_Some in Hx. unfold tool_labels in Hlabels.
    apply length_mapM in Hlabels. lia. }
  destruct (lookup_lt_is_Some_2 _ _ Hlen) as [[id' tool'] Hitem'].
  exists id'. split.
  - unfold select_tool. rewrite Hlabels. simpl. rewrite Hlabel. simpl.
    rewrite Hfirst. simpl. unfold dict_keys.
    by rewrite list_lookup_fmap, Hitem'.
  - unfold dict_keys. apply list_elem_of_fmap. exists (id', tool').
    split; [done|]. by eapply list_elem_of_lookup_2.
Qed.

Lemma world_ok_selected w data tool_id :
  world_ok w → ss_tools_data (session w) = Some data →
  tool_id ∈ dict_keys (store_items data) →
  world_ok {| session := set_selected (session w) (Some tool_id);
              tools_file := tools_file w |}.
Proof.
  intros (data' & sel & Hd & Hok & Hfile & Hsel & Hselok) Hd' Hin.
  assert (data' = data) as -> by congruence.
  exists data, (Some tool_id). by repeat split.
Qed.

Lemma world_ok_editing w ss tool :
  world_ok w → ensure_editing_tool (session w) = Some ss →
  world_ok {| session := set_editing_tool ss tool; tools_file := tools_file w |}.
Proof.
  intros (data & sel & Hd & Hok & Hfile & Hsel & Hselok) Hss.
  assert (ss_tools_data ss = Some data ∧ ss_selected_tool_id ss = Some sel)
    as [Hd' Hsel'].
  { unfold ensure_editing_tool in Hss. rewrite Hsel in Hss. simpl in Hss.
    destruct sel as [id|].
    - rewrite Hd in Hss. simpl in Hss.
      destruct (store_tools data); simpl in Hss; [|done].
      by injection Hss as <-.
    - by injection Hss as <-. }
  exists data, sel. by repeat split.
Qed.

Lemma new_tool_ok new_id w :
  world_ok w → ∃ w', new_tool new_id w = Some w' ∧ world_ok w'.
Proof.
  intros (data & sel & Hd & (tools & Ht & Hnd & Hnamed) & Hfile & Hsel & _).
  eexists. split.
  { unfold new_tool. rewrite Hd. simpl. rewrite Ht. simpl. reflexivity. }
  eexists _, (Some new_id). repeat split; simpl.
  - eexists. repeat split; [by apply dict_set_NoDup|].
    apply Forall_forall. intros x [->|Hx]%dict_set_sub.
    + by eexists.
    + rewrite Forall_forall in Hnamed. by apply Hnamed.
  - unfold store_items. simpl. eapply dict_get_Some_key, dict_get_set_eq.
Qed.

Lemma delete_tool_ok w tool_id :
  world_ok w → ss_selected_tool_id (session w) = Some (Some tool_id) →
  ∃ w', delete_tool w = Some w' ∧ world_ok w'.
Proof.
  intros (data & sel & Hd & (tools & Ht & Hnd & Hnamed) & Hfile & Hsel & Hin)
    Hsel'.
  assert (sel = Some tool_id) as -> by congruence.
  unfold selection_ok, store_items in Hin. rewrite Ht in Hin. simpl in Hin.
  destruct (dict_del_Some tools tool_id Hin) as [tools' Hdel].
  eexists. split.
  { unfold delete_tool. rewrite Hd. simpl. rewrite Ht. simpl.
    rewrite Hsel. simpl. rewrite Hdel. simpl. reflexivity. }
  eexists _, _. repeat split; simpl.
  - eexists. repeat split; [by eapply dict_del_NoDup|].
    apply Forall_forall. intros x Hx. rewrite Forall_forall in Hnamed.
    eapply Hnamed, dict_del_sub; [exact Hdel|done].
  - apply head_selection_ok.
Qed.

Lemma save_tool_ok w tool_id tool :
  world_ok w → ss_selected_tool_id (session w) = Some (Some tool_id) →
  is_Some (tool_name tool) →
  ∃ w', save_tool tool_id tool w = Some w' ∧ world_ok w'.
Proof.
  intros (data & sel & Hd & (tools & Ht & Hnd & Hnamed) & Hfile & Hsel & Hin)
    Hsel' Hname.
  assert (sel = Some tool_id) as -> by congruence.
  unfold selection_ok, store_items in Hin. rewrite Ht in Hin. simpl in Hin.
  eexists. split.
  { unfold save_tool. rewrite Hd. simpl. rewrite Ht. simpl.
    rewrite Hsel. simpl. reflexivity. }
  eexists _, _. repeat split; simpl.
  - eexists. repeat split; [by apply dict_set_NoDup|].
    apply Forall_forall. intros x [->|Hx]%dict_set_sub; [done|].
    rewrite Forall_forall in Hnamed. by apply Hnamed.
  - unfold store_items. simpl. by rewrite dict_keys_set_present.
Qed.

Lemma edit_and_save_ok w tool_id tools data click edit :
  world_ok w →
  ss_tools_data (session w) = Some data →
  store_tools data = Some tools →
  ss_selected_tool_id (session w) = Some (Some tool_id) →
  tool_id ∈ dict_keys tools →
  (∀ tool tool', edit tool = Some tool' → is_Some (tool_name tool')) →
  let result :=
    ss ← ensure_editing_tool (session w);
    editing ← ss_editing_tool ss;
    tool ← editing;
    tool' ← edit tool;
    let w' := {| session := set_editing_tool ss (Some tool');
                 tools_file := tools_file w |} in
    match click with
    | ClickSave => save_tool tool_id tool' w'
    | _ => Some w'
    end in
  (∀ w', result = Some w' → world_ok w')
  ∧ (result = None → ∃ tool, edit tool = None).
Proof.
  intros Hok Hd Ht Hsel Hin Hedit.
  destruct (dict_get_is_Some tools tool_id Hin) as [tool Htool].
  assert (Hss : ensure_editing_tool (session w)
                = Some (set_editing_tool (session w) (Some tool))).
  { unfold ensure_editing_tool. rewrite Hsel. simpl. rewrite Hd. simpl.
    rewrite Ht. simpl. by rewrite Htool. }
  simpl. rewrite Hss. simpl.
  destruct (edit tool) as [tool'|] eqn:Hed; simpl.
  - pose proof (world_ok_editing w _ (Some tool') Hok Hss) as Hok'.
    simpl in Hok'.
    destruct click; try (split; [by intros w' [= <-]|done]).
    destruct (save_tool_ok _ tool_id tool' Hok') as (w' & Hsave & Hw').
    + simpl. exact Hsel.
    + by eapply Hedit.
    + rewrite Hsave. split; [by intros ? [= <-]|done].
  - split; [done|]. intros _. by exists tool.
Qed.

(** X23.  Between runs of the script the session and the file stay
    consistent.  From the state before the first run, or from a state in
    which the session holds a well-formed store, the file holds the same
    store and the selection is a stored tool id ([None] only for an empty
    store), a run that fails fails in the Builder tab, and a run that
    completes ends in such a state again, whatever the user picks or
    clicks. *)
Theorem main_run_safe choice click edit w :
  world_fresh w ∨ world_ok w →
  (∀ tool tool', edit tool = Some tool' → is_Some (tool_name tool')) →
  tool_count w = 0%nat ∨ (choice < tool_count w)%nat →
  (∀ w', main_run choice click edit w = Some w' → world_ok w')
  ∧ (main_run choice click edit w = None → ∃ tool, edit tool = None).
Proof.
  intros Hpre Hedit Hchoice.
  pose proof (ensure_state_ok w Hpre) as Hok.
  unfold tool_count in Hchoice. unfold main_run. cbv zeta.
  remember (ensure_state w) as w1 eqn:Ew1. clear Ew1 Hpre w.
  pose proof Hok as (data & sel & Hd & (tools & Ht & Hnd & Hnamed)
                       & Hfile & Hsel & Hselok).
  rewrite Hd in *. simpl. unfold store_items in *. rewrite Ht in *.
  simpl in *.
  destruct (mapM_is_Some_2 (λ item : string * ToolDefinition,
              tool_name item.2) tools Hnamed) as [labels Hlabels].
  fold (tool_labels tools) in Hlabels. rewrite Hlabels. simpl.
  destruct tools as [|item tools0] eqn:Etools.
  - assert (sel = None) as ->.
    { destruct sel as [id|]; [|done]. by apply elem_of_nil in Hselok. }
    simpl. destruct click as [|new_id| |]; simpl; rewrite ?Hsel; simpl;
      try (split; [by intros w' [= <-]|done]).
    destruct (new_tool_ok new_id w1 Hok) as (w' & -> & Hw').
    split; [by intros ? [= <-]|done].
  - destruct Hchoice as [|Hchoice]; [done|].
    destruct (select_tool_in_keys _ choice Hnamed Hchoice)
      as (tool_id & Hselect & Hin).
    rewrite Hselect. simpl.
    assert (Hok2 : world_ok
              {| session := set_selected (session w1) (Some tool_id);
                 tools_file := tools_file w1 |}).
    { eapply world_ok_selected; [done|exact Hd|].
      unfold store_items. by rewrite Ht. }
    destruct click as [|new_id| |].
    + pose proof (edit_and_save_ok _ tool_id (item :: tools0) data NoClick
                    edit Hok2 Hd Ht eq_refl Hin Hedit) as H.
      cbv zeta in H. simpl in H. simpl. exact H.
    + destruct (new_tool_ok new_id _ Hok2) as (w' & Hnew & Hw').
      cbn [dict_keys fmap list_fmap]. rewrite Hnew.
      split; [by intros ? [= <-]|done].
    + destruct (delete_tool_ok _ tool_id Hok2 eq_refl) as (w' & Hdel & Hw').
      cbn [dict_keys fmap list_fmap]. rewrite Hdel.
      split; [by intros ? [= <-]|done].
    + pose proof (edit_and_save_ok _ tool_id (item :: tools0) data ClickSave
                    edit Hok2 Hd Ht eq_refl Hin Hedit) as H.
      cbv zeta in H. simpl in H. simpl. exact H.
Qed.

(** ** The Builder tab *)

Lemma py_index_LEVELS level :
  level ∈ LEVELS → ∃ i, py_index level LEVELS = Some i
                        ∧ LEVELS !! i = Some level.
Proof.
  unfold LEVELS. rewrite !elem_of_cons, elem_of_nil.
  intros [->|[->|[->|[->|[]]]]];
    [by exists 0%nat|by exists 1%nat|by exists 2%nat|by exists 3%nat].
Qed.

Lemma py_index_not_in v l : py_in v l = false → py_index v l = None.
Proof.
  unfold py_in. induction l as [|x l IH]; [done|]. simpl.
  rewrite (py_eq_sym v x). destruct (py_eq x v); [done|]. simpl.
  by intros ->%IH.
Qed.

(** X24.  The Builder cannot open a tool whose fallback level is not one of
    "success", "info", "warning", "error": [LEVELS.index] raises, whatever
    the widgets return.  When the Builder tab completes, the tool it leaves
    has a name, a description and a fallback whose level is one of those
    four and whose message is set. *)
Theorem builder_tab_levels ui tool :
  (py_in (get_or (PStr "warning") (out_level (fallback_or_empty tool)))
         LEVELS = false →
   builder_tab ui tool = None)
  ∧ (∀ tool', builder_tab ui tool = Some tool' →
       is_Some (tool_name tool') ∧ is_Some (tool_description tool')
       ∧ ∃ level message,
           tool_fallback tool' = Some {| out_level := Some level;
                                         out_message := Some message |}
           ∧ level ∈ LEVELS).
Proof.
  unfold builder_tab. split.
  - intros ->%py_index_not_in.
    destruct (tool_to_input_rows tool); simpl; [|done].
    destruct (input_rows_to_tool _); simpl; [|done].
    destruct (tool_to_scoring_rows tool); simpl; [|done].
    destruct (scoring_rows_to_tool _); simpl; [|done].
    by destruct (rule_rows_to_tool _).
  - intros tool'.
    remember (py_index (get_or (PStr "warning")
                (out_level (fallback_or_empty tool))) LEVELS) as idx.
    clear Heqidx.
    destruct (tool_to_input_rows tool); simpl; [|done].
    destruct (input_rows_to_tool _); simpl; [|done].
    destruct (tool_to_scoring_rows tool); simpl; [|done].
    destruct (scoring_rows_to_tool _); simpl; [|done].
    destruct (rule_rows_to_tool _); simpl; [|done].
    destruct idx as [i|]; simpl; [|done].
    destruct (LEVELS !! ui_level ui i) as [level|] eqn:Hl; simpl; [|done].
    intros [= <-]. simpl. repeat split; try by eexists.
    eexists _, _. split; [done|]. by eapply list_elem_of_lookup_2.
Qed.

Lemma builder_tab_levels_witness :
  builder_tab echo tool_odd_level = None
  ∧ builder_tab echo DEFAULT_TOOL = Some DEFAULT_TOOL.
Proof.
  split; [|vm_compute; reflexivity].
  by apply (proj1 (builder_tab_levels echo tool_odd_level)).
Defined.

Lemma builder_given_fixed ui tool :
  tool_complete tool = true → tool_roundtrips tool = true →
  returns_given ui tool →
  builder_tab ui tool = Some tool.
Proof.
  unfold tool_complete, tool_roundtrips.
  intros [[Hname Hdesc]%andb_prop Hfb]%andb_prop
         [[Hin Hsc]%andb_prop Hru]%andb_prop.
  destruct tool as [[name|] [desc|] inputs scoring rules [[[level|] [msg|]]|]];
    simpl in Hname, Hdesc, Hfb, Hin, Hsc, Hru; try done;
    try by rewrite andb_false_r in Hfb.
  rewrite andb_true_r in Hfb. apply bool_decide_eq_true in Hfb.
  destruct (inputs_roundtrip _ Hin) as (rows & Hrows & Hback).
  destruct (scoring_roundtrip _ Hsc) as (srows & Hsrows & Hsback).
  destruct (py_index_LEVELS _ Hfb) as (i & Hi & Hlevel).
  unfold returns_given, builder_tab, tool_to_input_rows,
    tool_to_scoring_rows, tool_to_rule_rows, fallback_or_empty.
  cbn [tool_name tool_description tool_inputs tool_scoring_rules tool_rules
       tool_fallback from_option id out_level out_message get_or].
  intros (Hui_name & Hui_desc & Hui_in & Hui_sc & Hui_ru & Hui_lv & Hui_msg).
  rewrite Hui_name, Hui_desc, Hui_ru, Hui_msg.
  rewrite Hi, Hrows. cbn [mbind option_bind].
  rewrite (Hui_in _ Hrows), Hback. cbn [mbind option_bind].
  rewrite Hsrows. cbn [mbind option_bind].
  rewrite (Hui_sc _ Hsrows), Hsback. cbn [mbind option_bind].
  rewrite (rules_roundtrip _ Hru). cbn [mbind option_bind].
  rewrite (Hui_lv _ Hi). by rewrite Hlevel.
Qed.

Lemma echo_returns_given tool : returns_given echo tool.
Proof. by repeat split. Qed.

(** X25.  The Builder's own code changes nothing in a tool whose fields
    are all set, whose fallback level is one of the four levels and whose
    inputs, scoring rules and rules satisfy the round-trip conditions (at
    most three conditions per rule, stripped non-empty ids, comma-free
    stripped non-empty list items): in a pass where every widget returns
    the value the script handed to it, the tool is left as it was.  What
    the widgets return is a hypothesis, not a fact about Streamlit. *)
Theorem builder_tab_returns_given ui tool :
  tool_complete tool = true → tool_roundtrips tool = true →
  returns_given ui tool →
  builder_tab ui tool = Some tool.
Proof. apply builder_given_fixed. Qed.

Lemma builder_tab_returns_given_witness :
  builder_tab echo DEFAULT_TOOL = Some DEFAULT_TOOL.
Proof.
  apply builder_tab_returns_given;
    [vm_compute; reflexivity | vm_compute; reflexivity |].
  repeat split; reflexivity.
Defined.

(** X26.  A pass through the Builder normalises the tool, whatever the
    widgets returned in it: when the pass completes and leaves no input and
    no scoring rule with the empty id, a later pass in which every widget
    returns the value handed to it leaves that tool unchanged. *)
Theorem builder_tab_normalises ui ui' tool tool' :
  builder_tab ui tool = Some tool' →
  Forall (λ i, in_id i ≠ Some (PStr "")) (tool_inputs tool') →
  Forall (λ r, sr_input_id r ≠ Some (PStr "")) (tool_scoring_rules tool') →
  returns_given ui' tool' →
  builder_tab ui' tool' = Some tool'.
Proof.
  unfold builder_tab at 1.
  remember (py_index (get_or (PStr "warning")
              (out_level (fallback_or_empty tool))) LEVELS) as idx.
  clear Heqidx.
  destruct (tool_to_input_rows tool) as [rows|]; cbn [mbind option_bind];
    [|done].
  destruct (input_rows_to_tool (ui_inputs ui rows)) as [inputs|] eqn:Hin;
    cbn [mbind option_bind]; [|done].
  destruct (tool_to_scoring_rows tool) as [srows|]; cbn [mbind option_bind];
    [|done].
  destruct (scoring_rows_to_tool (ui_scoring ui srows)) as [scoring|]
    eqn:Hsc; cbn [mbind option_bind]; [|done].
  destruct (rule_rows_to_tool (ui_rules ui (tool_to_rule_rows tool)))
    as [rules|] eqn:Hru; cbn [mbind option_bind]; [|done].
  destruct idx as [i|]; cbn [mbind option_bind]; [|done].
  destruct (LEVELS !! ui_level ui i) as [level|] eqn:Hl;
    cbn [mbind option_bind]; [|done].
  intros [= <-]. simpl. intros Hne_in Hne_sc.
  apply builder_given_fixed.
  - unfold tool_complete. simpl. rewrite andb_true_r.
    apply bool_decide_eq_true. by eapply list_elem_of_lookup_2.
  - unfold tool_roundtrips. simpl.
    rewrite (normal_roundtrips _ _ _ (input_rows_normal _ _ Hin) Hne_in).
    rewrite (normal_roundtrips _ _ _ (scoring_rows_normal _ _ Hsc) Hne_sc).
    by rewrite (rule_rows_normal _ _ Hru).
Qed.

Lemma builder_tab_normalises_witness :
  ∃ tool', builder_tab echo tool_padded = Some tool'
    ∧ tool' ≠ tool_padded
    ∧ builder_tab echo tool' = Some tool'.
Proof.
  eexists.
  assert (H : builder_tab echo tool_padded = Some
    {| tool_name := Some (PStr "T");
       tool_description := Some (PStr "");
       tool_inputs :=
         [ {| in_id := Some (PStr "a"); in_label := Some (PStr "A");
              in_type := Some (PStr "select");
              in_options := [PStr "Yes"; PStr "No"] |} ];
       tool_scoring_rules := [scoring_q false];
       tool_rules := [rule_q_yes];
       tool_fallback := Some fallback_no |}) by (vm_compute; reflexivity).
  split; [exact H|]. split; [discriminate|].
  apply (builder_tab_normalises _ echo _ _ H);
    [repeat constructor; discriminate | repeat constructor; discriminate |].
  repeat split; reflexivity.
Defined.

Lemma builder_tab_named ui tool tool' :
  builder_tab ui tool = Some tool' → is_Some (tool_name tool').
Proof.
  unfold builder_tab.
  remember (py_index (get_or (PStr "warning")
              (out_level (fallback_or_empty tool))) LEVELS) as idx.
  clear Heqidx.
  destruct (tool_to_input_rows tool); simpl; [|done].
  destruct (input_rows_to_tool _); simpl; [|done].
  destruct (tool_to_scoring_rows tool); simpl; [|done].
  destruct (scoring_rows_to_tool _); simpl; [|done].
  destruct (rule_rows_to_tool _); simpl; [|done].
  destruct idx as [i|]; simpl; [|done].
  destruct (LEVELS !! ui_level ui i); simpl; [|done].
  intros [= <-]. by eexists.
Qed.

Lemma main_run_safe_witness :
  ∃ w', main_run 0 (ClickNew "tool_a") (builder_tab echo) world_empty
          = Some w'
        ∧ world_ok w'.
Proof.
  eexists.
  assert (H : main_run 0 (ClickNew "tool_a") (builder_tab echo)
                world_empty
    = Some {| session :=
                {| ss_tools_data :=
                     Some {| store_tools := Some [("tool_a", DEFAULT_TOOL)] |};
                   ss_selected_tool_id := Some (Some "tool_a");
                   ss_editing_tool := Some None;
                   ss_preview_values := Some [] |};
              tools_file :=
                Some {| store_tools := Some [("tool_a", DEFAULT_TOOL)] |} |})
    by (vm_compute; reflexivity).
  split; [exact H|].
  apply (proj1 (main_run_safe 0 (ClickNew "tool_a") (builder_tab echo)
                  world_empty
                  (or_introl (conj eq_refl
                     (ex_intro _ [] (conj eq_refl
                        (conj (NoDup_nil_2 : NoDup (dict_keys []))
                              (Forall_nil_2 named))))))
                  (builder_tab_named echo)
                  (or_introl eq_refl)) _ H).
Defined.

(** ** New Tool, then Delete Tool *)

Lemma main_run_new choice new_id edit w data tools :
  world_fresh w ∨ world_ok w →
  ss_tools_data (session (ensure_state w)) = Some data →
  store_tools data = Some tools →
  tools = [] ∨ (choice < length tools)%nat →
  ∃ w1, main_run choice (ClickNew new_id) edit w = Some w1
    ∧ world_ok w1
    ∧ ss_tools_data (session w1)
        = Some {| store_tools := Some (dict_set tools new_id DEFAULT_TOOL) |}
    ∧ tools_file w1
        = Some {| store_tools := Some (dict_set tools new_id DEFAULT_TOOL) |}
    ∧ ss_selected_tool_id (session w1) = Some (Some new_id).
Proof.
  intros Hpre Hd Ht Hchoice.
  pose proof (ensure_state_ok w Hpre) as Hok.
  unfold main_run. cbv zeta.
  remember (ensure_state w) as w1 eqn:Ew1. clear Ew1 Hpre w.
  pose proof Hok as (data' & sel & Hd' & (tools' & Ht' & Hnd & Hnamed)
                       & Hfile & Hsel & Hselok).
  assert (data' = data) as -> by congruence.
  assert (tools' = tools) as -> by congruence.
  rewrite Hd. cbn [mbind option_bind]. unfold store_items. rewrite Ht.
  cbn [from_option id].
  destruct (mapM_is_Some_2 (λ item : string * ToolDefinition,
              tool_name item.2) tools Hnamed) as [labels Hlabels].
  fold (tool_labels tools) in Hlabels. rewrite Hlabels.
  cbn [mbind option_bind].
  assert (Hnew : ∀ w2, ss_tools_data (session w2) = Some data →
            new_tool new_id w2 = Some
              {| session := set_tools (session w2)
                   {| store_tools :=
                        Some (dict_set tools new_id DEFAULT_TOOL) |}
                   (Some new_id);
                 tools_file := save_tools
                   {| store_tools :=
                        Some (dict_set tools new_id DEFAULT_TOOL) |} |}).
  { intros w2 Hd2. unfold new_tool. rewrite Hd2. cbn [mbind option_bind].
    by rewrite Ht. }
  destruct tools as [|item tools0].
  - cbn [dict_keys fmap list_fmap mbind option_bind].
    eexists. split; [by apply Hnew|]. split; [|by repeat split].
    destruct (new_tool_ok new_id w1 Hok) as (w' & Hw' & Hokw').
    pose proof (Hnew w1 Hd) as E. rewrite Hw' in E. by injection E as ->.
  - destruct Hchoice as [|Hchoice]; [done|].
    destruct (select_tool_in_keys _ choice Hnamed Hchoice)
      as (tool_id & Hselect & Hin).
    rewrite Hselect. cbn [dict_keys fmap list_fmap mbind option_bind].
    assert (Hok2 : world_ok
              {| session := set_selected (session w1) (Some tool_id);
                 tools_file := tools_file w1 |}).
    { eapply world_ok_selected; [done|exact Hd|].
      unfold store_items. by rewrite Ht. }
    eexists. split; [by apply Hnew|]. split; [|by repeat split].
    destruct (new_tool_ok new_id _ Hok2) as (w' & Hw' & Hokw').
    pose proof (Hnew _ Hd : new_tool new_id
                  {| session := set_selected (session w1) (Some tool_id);
                     tools_file := tools_file w1 |} = _) as E.
    rewrite Hw' in E. by injection E as ->.
Qed.

Lemma main_run_delete choice edit w data tools tool_id :
  world_fresh w ∨ world_ok w →
  ss_tools_data (session (ensure_state w)) = Some data →
  store_tools data = Some tools →
  select_tool tools choice = Some tool_id →
  tool_id ∈ dict_keys tools →
  ∃ w2 tools2, main_run choice ClickDelete edit w = Some w2
    ∧ dict_del tools tool_id = Some tools2
    ∧ ss_tools_data (session w2) = Some {| store_tools := Some tools2 |}
    ∧ tools_file w2 = Some {| store_tools := Some tools2 |}
    ∧ ss_selected_tool_id (session w2) = Some (head (dict_keys tools2)).
Proof.
  intros Hpre Hd Ht Hselect Hin.
  pose proof (ensure_state_ok w Hpre) as Hok.
  unfold main_run. cbv zeta.
  remember (ensure_state w) as w1 eqn:Ew1. clear Ew1 Hpre w.
  pose proof Hok as (data' & sel & Hd' & (tools' & Ht' & Hnd & Hnamed)
                       & Hfile & Hsel & Hselok).
  assert (data' = data) as -> by congruence.
  assert (tools' = tools) as -> by congruence.
  rewrite Hd. cbn [mbind option_bind]. unfold store_items. rewrite Ht.
  cbn [from_option id].
  destruct (mapM_is_Some_2 (λ item : string * ToolDefinition,
              tool_name item.2) tools Hnamed) as [labels Hlabels].
  fold (tool_labels tools) in Hlabels. rewrite Hlabels.
  cbn [mbind option_bind].
  destruct (dict_del_Some tools tool_id Hin) as [tools2 Hdel].
  destruct tools as [|item tools0]; [by apply elem_of_nil in Hin|].
  rewrite Hselect. cbn [dict_keys fmap list_fmap mbind option_bind].
  exists {| session := set_tools
              (set_selected (session w1) (Some tool_id))
              {| store_tools := Some tools2 |} (head (dict_keys tools2));
            tools_file := save_tools {| store_tools := Some tools2 |} |},
    tools2.
  split; [|by repeat split].
  unfold delete_tool. cbn [session set_selected ss_tools_data
    ss_selected_tool_id]. rewrite Hd. cbn [mbind option_bind].
  rewrite Ht. cbn [mbind option_bind]. by rewrite Hdel.
Qed.

(** X27.  Pressing "New Tool" and then, in the run that follows, "Delete
    Tool" need not delete the new tool.  The selector of the second run
    shows the new tool, which has the template's name, and resolves that
    name to the first tool carrying it.  When no stored tool is named like
    the template the store ends as it began; otherwise the first tool so
    named is deleted and the new tool stays. *)
Theorem new_then_delete_runs choice new_id edit w data tools :
  world_ok w →
  ss_tools_data (session w) = Some data →
  store_tools data = Some tools →
  tools = [] ∨ (choice < length tools)%nat →
  new_id ∉ dict_keys tools →
  ∃ w2 tools2,
    main_run choice (ClickNew new_id) edit w
      ≫= main_run (length tools) ClickDelete edit = Some w2
    ∧ ss_tools_data (session w2) = Some {| store_tools := Some tools2 |}
    ∧ tools_file w2 = Some {| store_tools := Some tools2 |}
    ∧ (Forall (λ item, py_eq (get (tool_name item.2))
                         (get (tool_name DEFAULT_TOOL)) = false) tools →
       tools2 = tools)
    ∧ (Exists (λ item, py_eq (get (tool_name item.2))
                         (get (tool_name DEFAULT_TOOL)) = true) tools →
       dict_get tools2 new_id = Some DEFAULT_TOOL
       ∧ ∃ j old_id old_tool,
           tools !! j = Some (old_id, old_tool)
           ∧ py_eq (get (tool_name old_tool))
                   (get (tool_name DEFAULT_TOOL)) = true
           ∧ (∀ i id_i tool_i, (i < j)%nat →
                tools !! i = Some (id_i, tool_i) →
                py_eq (get (tool_name tool_i))
                      (get (tool_name DEFAULT_TOOL)) = false)
           ∧ dict_get tools2 old_id = None).
Proof.
  intros Hok Hd Ht Hchoice Hfresh.
  assert (Hd1 : ss_tools_data (session (ensure_state w)) = Some data).
  { unfold ensure_state. simpl. by rewrite Hd. }
  destruct (main_run_new choice new_id edit w data tools (or_intror Hok)
              Hd1 Ht Hchoice) as (w1 & Hrun1 & Hok1 & Hd2 & Hfile1 & Hsel1).
  rewrite Hrun1. cbn [mbind option_bind].
  rewrite dict_set_fresh in Hd2 by done.
  set (tools1 := tools ++ [(new_id, DEFAULT_TOOL)]) in *.
  assert (Hd1' : ss_tools_data (session (ensure_state w1))
                 = Some {| store_tools := Some tools1 |}).
  { unfold ensure_state. simpl. by rewrite Hd2. }
  pose proof Hok1 as (data1 & sel1 & Hdata1 & (tools1' & Ht1 & Hnd1 & Hnamed1)
                        & _).
  assert (data1 = {| store_tools := Some tools1 |}) as -> by congruence.
  simpl in Ht1. injection Ht1 as <-.
  assert (Hnew : tools1 !! length tools = Some (new_id, DEFAULT_TOOL)).
  { unfold tools1. by rewrite lookup_app_r, Nat.sub_diag by lia. }
  destruct (select_tool_first tools1 (length tools) new_id DEFAULT_TOOL
              Hnd1 Hnamed1 Hnew)
    as (first & id' & tool' & Hselect & Hle & Hitem & Hname & Hmin & Hiff).
  assert (Hin' : id' ∈ dict_keys tools1).
  { unfold dict_keys. apply list_elem_of_fmap. exists (id', tool').
    split; [done|]. by eapply list_elem_of_lookup_2. }
  destruct (main_run_delete (length tools) edit w1 _ tools1 id'
              (or_intror Hok1) Hd1' eq_refl Hselect Hin')
    as (w2 & tools2 & Hrun2 & Hdel & Hd3 & Hfile2 & Hsel2).
  exists w2, tools2. split; [done|]. split; [done|]. split; [done|].
  split.
  - intros Hnone.
    assert (first = length tools) as ->.
    { destruct (decide (first = length tools)) as [|Hne]; [done|].
      assert (Hlt : (first < length tools)%nat) by lia.
      unfold tools1 in Hitem. rewrite lookup_app_l in Hitem by done.
      rewrite Forall_forall in Hnone.
      specialize (Hnone _ (list_elem_of_lookup_2 _ _ _ Hitem)).
      cbv beta in Hnone. cbn [snd] in Hnone. congruence. }
    assert (id' = new_id) as -> by (by apply Hiff).
    unfold tools1 in Hdel. rewrite <- (dict_set_fresh tools new_id) in Hdel
      by done.
    rewrite dict_del_set_fresh in Hdel by done. congruence.
  - intros Hsome.
    assert (Hlt : (first < length tools)%nat).
    { apply Exists_exists in Hsome as ([id_x tool_x] & Hx & Hname_x).
      apply list_elem_of_lookup_1 in Hx as [i Hi].
      destruct (decide (first < length tools)%nat) as [|Hge]; [done|].
      assert (Hi1 : tools1 !! i = Some (id_x, tool_x)).
      { unfold tools1. rewrite lookup_app_l; [done|].
        by eapply lookup_lt_Some. }
      apply lookup_lt_Some in Hi as Hilt.
      specialize (Hmin i id_x tool_x ltac:(lia) Hi1).
      cbv beta in Hname_x. cbn [snd] in Hname_x. congruence. }
    pose proof Hitem as Hitem0.
    unfold tools1 in Hitem0. rewrite lookup_app_l in Hitem0 by done.
    assert (Hne : id' ≠ new_id).
    { intros ->. apply Hfresh. unfold dict_keys. apply list_elem_of_fmap.
      exists (new_id, tool'). split; [done|].
      by eapply list_elem_of_lookup_2. }
    split.
    + rewrite (dict_del_get_ne _ _ _ _ Hdel Hne).
      unfold tools1. rewrite <- (dict_set_fresh tools new_id) by done.
      apply dict_get_set_eq.
    + exists first, id', tool'. repeat split; try done.
      * intros i id_i tool_i Hi Hti. apply (Hmin i id_i tool_i Hi).
        unfold tools1. rewrite lookup_app_l; [done|]. lia.
      * apply dict_get_None.
        rewrite (dict_del_keys _ _ _ Hnd1 Hdel). apply filter_not_elem.
Qed.

Lemma world_two_tools_ok : world_ok world_two_tools.
Proof.
  exists {| store_tools := Some two_new_tools |}, (Some "tool_a").
  split; [done|]. split; [|split; [done|split; [done|]]].
  - exists two_new_tools. split; [done|]. split.
    + unfold two_new_tools, dict_keys. simpl. compute_done.
    + repeat constructor; by eexists.
  - apply list_elem_of_here.
Qed.

Lemma new_then_delete_runs_witness :
  ∃ w2 tools2,
    main_run 0 (ClickNew "tool_c") (builder_tab echo) world_two_tools
      ≫= main_run (length two_new_tools) ClickDelete (builder_tab echo)
      = Some w2
    ∧ ss_tools_data (session w2) = Some {| store_tools := Some tools2 |}
    ∧ tools_file w2 = Some {| store_tools := Some tools2 |}
    ∧ (Forall (λ item, py_eq (get (tool_name item.2))
                         (get (tool_name DEFAULT_TOOL)) = false)
         two_new_tools →
       tools2 = two_new_tools)
    ∧ (Exists (λ item, py_eq (get (tool_name item.2))
                         (get (tool_name DEFAULT_TOOL)) = true)
         two_new_tools →
       dict_get tools2 "tool_c" = Some DEFAULT_TOOL
       ∧ ∃ j old_id old_tool,
           two_new_tools !! j = Some (old_id, old_tool)
           ∧ py_eq (get (tool_name old_tool))
                   (get (tool_name DEFAULT_TOOL)) = true
           ∧ (∀ i id_i tool_i, (i < j)%nat →
                two_new_tools !! i = Some (id_i, tool_i) →
                py_eq (get (tool_name tool_i))
                      (get (tool_name DEFAULT_TOOL)) = false)
           ∧ dict_get tools2 old_id = None).
Proof.
  apply (new_then_delete_runs 0 "tool_c" (builder_tab echo)
           world_two_tools {| store_tools := Some two_new_tools |}
           two_new_tools).
  - exact world_two_tools_ok.
  - reflexivity.
  - reflexivity.
  - right. simpl. lia.
  - unfold two_new_tools, dict_keys. simpl.
    intros [H|[H|H%elem_of_nil]%elem_of_cons]%elem_of_cons; done.
Defined.

(** With two tools named like the template in the store, "New Tool" and
    then "Delete Tool" deletes the first of them and keeps the new tool. *)
Example new_then_delete_deletes_old :
  ss_tools_data ∘ session <$>
    (main_run 0 (ClickNew "tool_c") (builder_tab echo) world_two_tools
       ≫= main_run 2 ClickDelete (builder_tab echo))
  = Some (Some {| store_tools :=
                    Some [("tool_b", DEFAULT_TOOL); ("tool_c", DEFAULT_TOOL)]
               |}).
Proof. vm_compute. reflexivity. Qed.

(** ** Rules read from rows, evaluated *)

Lemma slot_conditions_text_values (row : gmap string pyval) idxs conditions :
  slot_conditions row idxs = Some conditions →
  forallb (λ idx, text_cell (key_val idx) row) idxs = true →
  Forall (λ c, get (cond_value c) ≠ PNone) conditions.
Proof.
  revert conditions. induction idxs as [|idx idxs IH]; intros conditions.
  - intros [= <-] _. constructor.
  - cbn [slot_conditions forallb].
    destruct (py_strip (row_get_or row (key_id idx) (PStr ""))) as [s|];
      cbn [mbind option_bind]; [|done].
    destruct (slot_conditions row idxs) as [cs|]; cbn [mbind option_bind];
      [|done].
    intros Hcs [Hidx Hrest]%andb_prop. specialize (IH cs eq_refl Hrest).
    destruct (negb (String.eqb s "") && py_ne _ _); injection Hcs as <-;
      [|done].
    constructor; [|done]. simpl. unfold text_cell in Hidx. unfold row_get_or.
    by destruct (row !! key_val idx) as [[| | |t]|].
Qed.

(** X28.  Rules read from rows whose value cells are absent or strings
    never fire on an input that was not collected: such a rule does not
    match when the input id of one of its conditions is not a key of
    [values]. *)
Theorem text_rules_dangling_inert (rows : list (gmap string pyval)) rules
    values r c :
  rule_rows_to_tool rows = Some rules →
  Forall (λ row, rule_row_values_text row = true) rows →
  r ∈ rules → c ∈ rule_conditions r →
  not_a_key values (cond_input_id c) →
  rule_matches values r = false.
Proof.
  intros Hconv Htext Hr Hc Hk.
  assert (Hvals : Forall (λ r, Forall (λ c, get (cond_value c) ≠ PNone)
                                (rule_conditions r)) rules).
  { clear Hr. revert rules Hconv.
    induction Htext as [|row rows Hrow _ IH]; intros rules.
    - intros [= <-]. constructor.
    - rewrite rule_rows_to_tool_cons.
      destruct (has_key "name" row); [|by apply IH].
      destruct (slot_conditions row (seq 0 3)) as [cs|] eqn:Hcs;
        cbn [mbind option_bind]; [|done].
      destruct (rule_rows_to_tool rows) as [tl|]; cbn [mbind option_bind];
        [|done].
      intros [= <-]. constructor; [|by apply IH].
      by eapply slot_conditions_text_values. }
  rewrite Forall_forall in Hvals. specialize (Hvals r Hr).
  rewrite Forall_forall in Hvals. specialize (Hvals c Hc).
  destruct (rule_matches values r) eqn:E; [|done].
  pose proof (rule_matches_all_hold values r c E Hc) as Hh.
  by rewrite cond_holds_missing in Hh.
Qed.

Lemma text_rules_dangling_inert_witness :
  rule_matches values_r_x
    (rule_of "R" "success" "Go" [cond_equals "q" (PStr "Yes")]) = false.
Proof.
  apply (text_rules_dangling_inert rule_rows_sample
           [rule_of "R" "success" "Go" [cond_equals "q" (PStr "Yes")]]
           values_r_x _ (cond_equals "q" (PStr "Yes"))).
  - vm_compute. reflexivity.
  - unfold rule_rows_sample. repeat constructor.
  - apply list_elem_of_here.
  - apply list_elem_of_here.
  - intros k [= <-]. reflexivity.
Defined.

Lemma slot_blank_skipped (row : gmap string pyval) idx :
  slot_blank row idx = true →
  ∃ s, py_strip (row_get_or row (key_id idx) (PStr "")) = Some s
       ∧ negb (String.eqb s "")
         && py_ne (row_get_or row (key_val idx) (PStr "")) (PStr "") = false.
Proof.
  unfold slot_blank, py_ne.
  destruct (row_get_or row (key_id idx) (PStr "")) as [| | |s]; try done.
  intros H. exists (strip s). split; [done|].
  destruct (String.eqb (strip s) ""); [done|]. simpl in *. by rewrite H.
Qed.

(** X29.  A rule row that names an input in its first slot, whose value
    cell there is [None] (a cell never filled in) and whose other two slots
    give no condition (their stripped id is empty or their value is the
    empty string, as in the nine-column rows of [tool_to_rule_rows]) is
    read as a rule with the single condition "input equals [None]"; that
    rule fires for every [values] mapping that lacks the input. *)
Theorem blank_value_rule_fires (row : gmap string pyval) s :
  has_key "name" row = true →
  row !! key_id 0 = Some (PStr s) → strip s ≠ "" →
  row !! key_val 0 = Some PNone →
  slot_blank row 1 = true → slot_blank row 2 = true →
  ∃ rule,
    rule_rows_to_tool [row] = Some [rule]
    ∧ rule_conditions rule
        = [ {| cond_input_id := Some (PStr (strip s));
               cond_op := Some (PStr "equals");
               cond_value := Some PNone |} ]
    ∧ ∀ tool values,
        tool_rules tool = [rule] → values !! strip s = None →
        evaluate_rules tool values
          = (row_get_or row "level" (PStr "info"),
             row_get_or row "message" (PStr "")).
Proof.
  intros Hname Hid Hs Hval Hb1 Hb2.
  apply String.eqb_neq in Hs.
  destruct (slot_blank_skipped _ _ Hb1) as (s1 & Hs1 & Hskip1).
  destruct (slot_blank_skipped _ _ Hb2) as (s2 & Hs2 & Hskip2).
  assert (Hconds : slot_conditions row (seq 0 3) = Some
            [ {| cond_input_id := Some (PStr (strip s));
                 cond_op := Some (PStr "equals");
                 cond_value := Some PNone |} ]).
  { cbn [seq slot_conditions]. rewrite Hs1, Hs2.
    cbn [mbind option_bind]. rewrite Hskip1, Hskip2.
    unfold row_get_or. rewrite Hid, Hval. simpl. by rewrite Hs. }
  eexists. split; [|split].
  - rewrite rule_rows_to_tool_cons. rewrite Hname, Hconds.
    cbn [negb mbind option_bind rule_rows_to_tool]. reflexivity.
  - reflexivity.
  - intros tool values Hrules Hmissing.
    unfold evaluate_rules. rewrite Hrules, first_match_cons.
    unfold rule_matches, cond_holds, values_get, row_get. simpl.
    by rewrite Hmissing.
Qed.

Lemma blank_value_rule_fires_witness :
  ∃ rule,
    rule_rows_to_tool [rule_row_blank_value] = Some [rule]
    ∧ rule_conditions rule
        = [ {| cond_input_id := Some (PStr (strip "ghost"));
               cond_op := Some (PStr "equals");
               cond_value := Some PNone |} ]
    ∧ ∀ tool values,
        tool_rules tool = [rule] → values !! strip "ghost" = None →
        evaluate_rules tool values
          = (row_get_or rule_row_blank_value "level" (PStr "info"),
             row_get_or rule_row_blank_value "message" (PStr "")).
Proof.
  apply (blank_value_rule_fires rule_row_blank_value "ghost");
    try reflexivity.
  vm_compute. discriminate.
Defined.
